(** * duplicate_finder: a shallow embedding of [find-duplicates.py]

    The script walks directory trees, narrows the list of files by size,
    then by the SHA-1 of the first 1024 bytes, then by the SHA-1 of the
    whole content, and prints the groups that remain.

    Layout of this development:
    - [SHA1]: the hash object of [hashlib.sha1] (FIPS 180-4), executable;
    - [PyFloat]: binary64 values, integer true division and ["%.2f"];
    - [Dict]: Python's insertion-ordered [dict] with list values;
    - the world (a file system that may change between system calls) and
      the monad of the script (clock, standard output, exceptions);
    - the functions of the script, one definition per [def];
    - the theorems. *)

From Stdlib Require Import ZArith String Ascii Bool Lia Arith List.
From Stdlib Require Import DecimalString.
From Equations Require Import Equations.
From Stdlib Require Import Strings.Byte.
From Stdlib Require Import Floats.SpecFloat.
Import ListNotations.

Set Warnings "-abstract-large-number".

Local Open Scope Z_scope.

(** ** Bytes *)

Definition bytes : Type := list byte.

Definition byte_val (b : byte) : Z := Z.of_N (Byte.to_N b).

Definition byte_of_Z (z : Z) : byte :=
  match Byte.of_N (Z.to_N (z mod 256)) with
  | Some b => b
  | None => x00
  end.

Definition bytes_of_string (s : string) : bytes := list_byte_of_string s.

(** * SHA-1, as [hashlib.sha1] computes it *)

Module SHA1.

(** 32-bit words are integers in [0, 2^32). *)
Definition mask32 : Z := 0xFFFFFFFF.
Definition wrap (x : Z) : Z := Z.land x mask32.
Definition add32 (x y : Z) : Z := wrap (x + y).
Definition not32 (x : Z) : Z := Z.lxor x mask32.
Definition rotl (n : Z) (x : Z) : Z :=
  wrap (Z.lor (Z.shiftl x n) (Z.shiftr x (32 - n))).

Record digest_state := mkH { h0 : Z; h1 : Z; h2 : Z; h3 : Z; h4 : Z }.

Definition initial : digest_state :=
  mkH 0x67452301 0xEFCDAB89 0x98BADCFE 0x10325476 0xC3D2E1F0.

(** Big-endian words of a block. *)
Fixpoint words_of (bs : bytes) : list Z :=
  match bs with
  | a :: b :: c :: d :: rest =>
      (Z.lor (Z.shiftl (byte_val a) 24)
         (Z.lor (Z.shiftl (byte_val b) 16)
            (Z.lor (Z.shiftl (byte_val c) 8) (byte_val d))))
      :: words_of rest
  | _ => []
  end.

(** The message schedule, kept newest word first while it is extended. *)
Fixpoint extend (n : nat) (rev_ws : list Z) : list Z :=
  match n with
  | O => rev_ws
  | S n' =>
      let w := rotl 1 (Z.lxor (nth 2 rev_ws 0)
                         (Z.lxor (nth 7 rev_ws 0)
                            (Z.lxor (nth 13 rev_ws 0) (nth 15 rev_ws 0)))) in
      extend n' (w :: rev_ws)
  end.

Definition schedule (block : bytes) : list Z :=
  rev (extend 64 (rev (words_of block))).

Definition round_f (t : nat) (b c d : Z) : Z :=
  if (t <? 20)%nat then Z.lor (Z.land b c) (Z.land (not32 b) d)
  else if (t <? 40)%nat then Z.lxor b (Z.lxor c d)
  else if (t <? 60)%nat then
    Z.lor (Z.land b c) (Z.lor (Z.land b d) (Z.land c d))
  else Z.lxor b (Z.lxor c d).

Definition round_k (t : nat) : Z :=
  if (t <? 20)%nat then 0x5A827999
  else if (t <? 40)%nat then 0x6ED9EBA1
  else if (t <? 60)%nat then 0x8F1BBCDC
  else 0xCA62C1D6.

Definition round (s : digest_state) (tw : nat * Z) : digest_state :=
  let '(t, w) := tw in
  let tmp :=
    add32 (rotl 5 (h0 s))
      (add32 (round_f t (h1 s) (h2 s) (h3 s))
         (add32 (h4 s) (add32 (round_k t) w))) in
  mkH tmp (h0 s) (rotl 30 (h1 s)) (h2 s) (h3 s).

Definition compress (s : digest_state) (block : bytes) : digest_state :=
  let ws := schedule block in
  let r := fold_left round (combine (seq 0 80) ws) s in
  mkH (add32 (h0 s) (h0 r)) (add32 (h1 s) (h1 r)) (add32 (h2 s) (h2 r))
      (add32 (h3 s) (h3 r)) (add32 (h4 s) (h4 r)).

(** The hash object: the chaining value, the bytes of the block being
    filled (newest first) and the number of bytes absorbed so far. *)
Record t := mk { chain : digest_state; pending : bytes; count : Z }.

(** [hashlib.sha1()] *)
Definition new : t := mk initial [] 0.

Definition feed (o : t) (b : byte) : t :=
  let p := b :: pending o in
  if (length p =? 64)%nat
  then mk (compress (chain o) (rev p)) [] (count o + 1)
  else mk (chain o) p (count o + 1).

(** [o.update(data)] *)
Definition update (o : t) (data : bytes) : t := fold_left feed data o.

Definition be64 (n : Z) : bytes :=
  map (fun i => byte_of_Z (Z.shiftr n (8 * (7 - Z.of_nat i)))) (seq 0 8).

(** The padding of FIPS 180-4: a one bit, zeros up to 56 modulo 64, and
    the length of the message in bits. *)
Definition padding (o : t) : bytes :=
  let used := (length (pending o) + 1)%nat in
  let zeros := if (used <=? 56)%nat then (56 - used)%nat
               else (120 - used)%nat in
  x80 :: repeat x00 zeros ++ be64 (8 * count o).

Definition hex_digit (d : Z) : ascii :=
  nth (Z.to_nat d)
    (list_ascii_of_string "0123456789abcdef") "0"%char.

Definition hex_word (w : Z) : string :=
  string_of_list_ascii
    (map (fun i => hex_digit (Z.land (Z.shiftr w (4 * (7 - Z.of_nat i))) 15))
       (seq 0 8)).

(** [o.hexdigest()]: the object itself is left as it was. *)
Definition hexdigest (o : t) : string :=
  let c := chain (update o (padding o)) in
  (hex_word (h0 c) ++ hex_word (h1 c) ++ hex_word (h2 c)
     ++ hex_word (h3 c) ++ hex_word (h4 c))%string.

(** Hashing a whole message in one pass. *)
Definition sha1 (data : bytes) : string := hexdigest (update new data).

End SHA1.

Arguments SHA1.update : simpl never.
Arguments SHA1.hexdigest : simpl never.
Arguments SHA1.sha1 : simpl never.
Arguments SHA1.compress : simpl never.

(** * Python values and exceptions *)

(** The exception classes the script can meet. *)
Inductive exn :=
| OSError | TypeError | IndexError | ValueError | OverflowError
| ZeroDivisionError | SystemExit (code : Z).

Inductive outcome (A : Type) :=
| Return (a : A)
| Raise (e : exn).
Arguments Return {A} a.
Arguments Raise {A} e.

Definition obind {A B} (x : outcome A) (k : A -> outcome B) : outcome B :=
  match x with
  | Return a => k a
  | Raise e => Raise e
  end.

(** [xs[i]] on a Python list: negative indices count from the end. *)
Definition py_index {A} (xs : list A) (i : Z) : outcome A :=
  let n := Z.of_nat (List.length xs) in
  let j := if i <? 0 then i + n else i in
  if (0 <=? j) && (j <? n) then
    match nth_error xs (Z.to_nat j) with
    | Some x => Return x
    | None => Raise IndexError
    end
  else Raise IndexError.

(** * Python floats (IEEE 754 binary64) *)

Module PyFloat.

Definition prec : Z := 53.
Definition emax : Z := 1024.

Definition one : spec_float := S754_finite false 4503599627370496 (-52).
Definition two : spec_float := S754_finite false 4503599627370496 (-51).

Definition is_zero (f : spec_float) : bool :=
  match f with S754_zero _ => true | _ => false end.

Definition finite_or_overflow (f : spec_float) : outcome spec_float :=
  match f with
  | S754_infinity _ => Raise OverflowError
  | _ => Return f
  end.

(** [float(n)] for an int: correctly rounded, [OverflowError] beyond the
    range of a double. *)
Definition of_int (n : Z) : outcome spec_float :=
  finite_or_overflow (binary_normalize prec emax n 0 false).

(** [a / b] on two ints: the correctly rounded quotient. *)
Definition int_truediv (a b : Z) : outcome spec_float :=
  if b =? 0 then Raise ZeroDivisionError
  else if a =? 0 then Return (S754_zero (b <? 0))
  else
    let '(q, e, l) :=
      SFdiv_core_binary prec emax (Z.abs a) 0 (Z.abs b) 0 in
    finite_or_overflow
      (binary_round_aux prec emax (xorb (a <? 0) (b <? 0)) q e l).

(** [x / y] on two floats. *)
Definition truediv (x y : spec_float) : outcome spec_float :=
  if is_zero y then Raise ZeroDivisionError
  else Return (SFdiv prec emax x y).

(** [int(x)]: truncation towards zero. *)
Definition to_int (x : spec_float) : outcome Z :=
  match x with
  | S754_zero _ => Return 0
  | S754_infinity _ => Raise OverflowError
  | S754_nan => Raise ValueError
  | S754_finite s m e =>
      let v := if 0 <=? e then Z.pos m * 2 ^ e
               else Z.pos m / 2 ^ (- e) in
      Return (if s then - v else v)
  end.

Definition round_half_even (n d : Z) : Z :=
  let q := n / d in
  let r := n mod d in
  match 2 * r ?= d with
  | Lt => q
  | Gt => q + 1
  | Eq => if Z.even q then q else q + 1
  end.

Definition decimal (n : Z) : string :=
  NilZero.string_of_uint (N.to_uint (Z.to_N n)).

Definition two_digits (n : Z) : string :=
  (decimal (n / 10) ++ decimal (n mod 10))%string.

(** [format(x, ".2f")]: the exact value of the double, rounded half to
    even at the second decimal. *)
Definition format_2f (x : spec_float) : string :=
  match x with
  | S754_nan => "nan"
  | S754_infinity s => if s then "-inf" else "inf"
  | S754_zero s => if s then "-0.00" else "0.00"
  | S754_finite s m e =>
      let h := if 0 <=? e then 100 * Z.pos m * 2 ^ e
               else round_half_even (100 * Z.pos m) (2 ^ (- e)) in
      ((if s then "-" else "")
         ++ decimal (h / 100) ++ "." ++ two_digits (h mod 100))%string
  end.

End PyFloat.

(** * Python dictionaries whose values are lists of paths

    A [dict] keeps its keys in insertion order, and the script reads the
    values back in that order, so the dictionary is an association list. *)

Module Dict.
Section WithKey.
Context {K : Type} (eqb : K -> K -> bool).

Definition t : Type := list (K * list string).

Definition empty : t := [].

(** [d.setdefault(k, []).append(v)] *)
Fixpoint setdefault_append (d : t) (k : K) (v : string) : t :=
  match d with
  | [] => [(k, [v])]
  | (k', vs) :: d' =>
      if eqb k k' then (k', vs ++ [v]) :: d'
      else (k', vs) :: setdefault_append d' k v
  end.

(** [d.values()] *)
Definition values (d : t) : list (list string) := map snd d.

Definition get (d : t) (k : K) : option (list string) :=
  match find (fun kv => eqb k (fst kv)) d with
  | Some kv => Some (snd kv)
  | None => None
  end.
End WithKey.
End Dict.

(** * The world outside the script

    The file system is not under the script's control: what a path holds
    may differ from one system call to the next, so the world gives, for
    every instant of the run, the file found at a path (if any) and the
    triples [os.walk] yields for a root. *)

Record file := mk_file {
  readable : bool;   (* may the file be opened for reading? *)
  data : bytes       (* its content; the size is the length of it *)
}.

Definition walk_entry : Type := string * list string * list string.

Record world := mk_world {
  lookup : nat -> string -> option file;
  os_walk : nat -> string -> list walk_entry
}.

(** The two functions of the C mathematical library behind [math.log] with
    two int arguments and [**] with a negative exponent. *)
Record libm := mk_libm {
  math_log : Z -> Z -> spec_float;
  float_pow : spec_float -> spec_float -> spec_float
}.

(** * The monad of the script: a clock, standard output, exceptions *)

Record state := mk_state {
  clock : nat;            (* number of system calls made so far *)
  stdout : list string    (* lines printed so far, oldest first *)
}.

Definition M (A : Type) : Type := state -> outcome A * state.

Definition ret {A} (a : A) : M A := fun st => (Return a, st).

Definition raise {A} (e : exn) : M A := fun st => (Raise e, st).

Definition bind {A B} (m : M A) (k : A -> M B) : M B :=
  fun st =>
    match m st with
    | (Return a, st') => k a st'
    | (Raise e, st') => (Raise e, st')
    end.

Definition lift {A} (x : outcome A) : M A := fun st => (x, st).

Declare Scope py_scope.
Delimit Scope py_scope with py.
Notation "x <- m ;; k" := (bind m (fun x => k))
  (at level 61, m at next level, right associativity) : py_scope.
Notation "m ;;; k" := (bind m (fun _ => k))
  (at level 61, right associativity) : py_scope.
Local Open Scope py_scope.

(** [try: m except e: handler] *)
Definition try_except {A} (m : M A) (catches : exn -> bool) (handler : M A)
  : M A :=
  fun st =>
    match m st with
    | (Raise e, st') => if catches e then handler st' else (Raise e, st')
    | r => r
    end.

Definition is_OSError (e : exn) : bool :=
  match e with OSError => true | _ => false end.

(** [for x in xs: s = body(s, x)] *)
Fixpoint for_each {A S} (xs : list A) (body : S -> A -> M S) (s : S) : M S :=
  match xs with
  | [] => ret s
  | x :: xs' => s' <- body s x ;; for_each xs' body s'
  end.

Definition tick (st : state) : state := mk_state (S (clock st)) (stdout st).

(** [print(line)] *)
Definition print (line : string) : M unit :=
  fun st => (Return tt, mk_state (clock st) (stdout st ++ [line])).

(** [sys.exit(code)] *)
Definition sys_exit {A} (code : Z) : M A := raise (SystemExit code).

Definition size_of (f : file) : Z := Z.of_nat (List.length (data f)).

(** [posixpath.join(a, b)] *)
Definition ends_with_slash (s : string) : bool :=
  match rev (list_ascii_of_string s) with
  | c :: _ => Ascii.eqb c "/"
  | [] => false
  end.

Definition os_path_join (a b : string) : string :=
  match b with
  | String c _ =>
      if Ascii.eqb c "/" then b
      else if String.eqb a "" || ends_with_slash a then (a ++ b)%string
      else (a ++ "/" ++ b)%string
  | EmptyString =>
      if String.eqb a "" || ends_with_slash a then a else (a ++ "/")%string
  end.

(** [f.read(n)] on an open file: the next [n] bytes (fewer at the end of
    the file) and the file positioned after them. *)
Definition read (n : nat) (f : bytes) : bytes * bytes :=
  (firstn n f, skipn n f).

Definition inspect {A} (a : A) : {b : A | a = b} := exist _ a eq_refl.

(** [for chunk in iter(lambda: f.read(chunk_size), b): sha1.update(chunk)]
    where [b] is the empty bytes object: the loop stops at the first empty
    chunk. *)
Equations? read_loop (chunk_size : nat) (sha1 : SHA1.t) (f : bytes)
  : SHA1.t by wf (List.length f) lt :=
  read_loop chunk_size sha1 f with inspect (firstn chunk_size f) := {
    | exist _ [] _ => sha1
    | exist _ (b :: chunk) _ =>
        read_loop chunk_size (SHA1.update sha1 (b :: chunk))
          (skipn chunk_size f) }.
Proof.
  destruct chunk_size as [|n]; [discriminate|].
  destruct f as [|x f]; [discriminate|].
  simpl. pose proof (length_skipn n f). lia.
Qed.

Definition truthy (v : option Z) : bool :=
  match v with
  | Some n => negb (n =? 0)
  | None => false
  end.

Definition sizes : list string :=
  ["B"; "KB"; "MB"; "GB"; "TB"; "PB"; "EB"; "ZB"; "YB"]%string.

(** * The script *)

Section Script.

Variable w : world.
Variable lm : libm.

(** ** System calls: each one looks at the world as it is now and takes
    one tick of the clock. What is read through an open file is the
    content the file had when it was opened. *)

Definition os_path_getsize (file_path : string) : M Z :=
  fun st =>
    (match lookup w (clock st) file_path with
     | Some f => Return (size_of f)
     | None => Raise OSError
     end, tick st).

Definition open_rb (file_path : string) : M bytes :=
  fun st =>
    (match lookup w (clock st) file_path with
     | Some f => if readable f then Return (data f) else Raise OSError
     | None => Raise OSError
     end, tick st).

Definition walk (path : string) : M (list walk_entry) :=
  fun st => (Return (os_walk w (clock st) path), tick st).

(** ** [list_files] *)
Definition list_files (path : string) : M (list string) :=
  entries <- walk path ;;
  for_each entries
    (fun files '(root, _, filenames) =>
       for_each filenames
         (fun files name => ret (files ++ [os_path_join root name]))
         files)
    [].

(** ** [get_file_size]: [None] stands for Python's [None]. *)
Definition get_file_size (file_path : string) : M (option Z) :=
  try_except
    (n <- os_path_getsize file_path ;; ret (Some n))
    is_OSError
    (ret None).

(** ** [hash_first_1k_bytes] *)
Definition hash_first_1k_bytes (file_path : string) : M string :=
  let sha1 := SHA1.new in
  f <- open_rb file_path ;;
  let sha1 := SHA1.update sha1 (fst (read 1024 f)) in
  ret (SHA1.hexdigest sha1).

(** ** [hash_file] *)
Definition hash_file (file_path : string) : M string :=
  let sha1 := SHA1.new in
  f <- open_rb file_path ;;
  let sha1 := read_loop 8192 sha1 f in
  ret (SHA1.hexdigest sha1).

(** The second loop of the two filters:
    [for paths in d.values(): if len(paths) > 1: duplicates.extend(paths)] *)
Definition extend_with_groups (groups : list (list string)) : list string :=
  fold_left
    (fun duplicates paths =>
       if (1 <? List.length paths)%nat then duplicates ++ paths
       else duplicates)
    groups [].

(** ** [filter_files_by_size] *)
Definition files_by_size (file_paths : list string) : M (Dict.t (K := Z)) :=
  for_each file_paths
    (fun files_by_size file_path =>
       file_size <- get_file_size file_path ;;
       if truthy file_size then
         match file_size with
         | Some n =>
             ret (Dict.setdefault_append Z.eqb files_by_size n file_path)
         | None => ret files_by_size
         end
       else ret files_by_size)
    Dict.empty.

Definition filter_files_by_size (file_paths : list string)
  : M (list string) :=
  d <- files_by_size file_paths ;;
  ret (extend_with_groups (Dict.values d)).

(** ** [filter_files_by_first_1k_bytes] *)
Definition files_by_first_1k (file_paths : list string)
  : M (Dict.t (K := string)) :=
  for_each file_paths
    (fun files_by_hash file_path =>
       h <- hash_first_1k_bytes file_path ;;
       ret (Dict.setdefault_append String.eqb files_by_hash h file_path))
    Dict.empty.

Definition filter_files_by_first_1k_bytes (file_paths : list string)
  : M (list string) :=
  d <- files_by_first_1k file_paths ;;
  ret (extend_with_groups (Dict.values d)).

(** ** [group_files_by_full_hash] *)
Definition files_by_full_hash (file_paths : list string)
  : M (Dict.t (K := string)) :=
  for_each file_paths
    (fun files_by_hash file_path =>
       h <- hash_file file_path ;;
       ret (Dict.setdefault_append String.eqb files_by_hash h file_path))
    Dict.empty.

Definition group_files_by_full_hash (file_paths : list string)
  : M (list (list string)) :=
  d <- files_by_full_hash file_paths ;;
  ret (filter (fun paths => (1 <? List.length paths)%nat) (Dict.values d)).

(** ** [file_size_string]

    The argument is what [get_file_size] returned, so it may be [None];
    [None < 1000] is a [TypeError]. *)
Definition file_size_string (num_bytes : option Z) : outcome string :=
  match num_bytes with
  | None => Raise TypeError
  | Some n =>
      if n <? 1000 then
        obind (PyFloat.of_int n) (fun x =>
        Return (PyFloat.format_2f x ++ "B")%string)
      else
        obind (PyFloat.to_int (math_log lm n 1000)) (fun exponent =>
        obind
          (if 0 <=? exponent
           then PyFloat.int_truediv n (1000 ^ exponent)
           else
             obind (PyFloat.of_int n) (fun x =>
             obind (PyFloat.of_int 1000) (fun b =>
             obind (PyFloat.of_int exponent) (fun e =>
             PyFloat.truediv x (float_pow lm b e)))))
          (fun value =>
        obind (py_index sizes exponent) (fun unit =>
        Return (PyFloat.format_2f value ++ unit)%string)))
  end.

(** ** [print_duplicates] *)
Definition print_duplicates (duplicates : list (list string)) : M unit :=
  for_each duplicates
    (fun _ files =>
       print "Found duplicate files:" ;;;
       file0 <- lift (py_index files 0) ;;
       size <- get_file_size file0 ;;
       s <- lift (file_size_string size) ;;
       print ("Size: " ++ " " ++ s) ;;;
       for_each files (fun _ file => print file) tt)
    tt.

(** ** [check_for_duplicates]

    The body in three steps: [enumerate] is the loop that fills [files]
    from the roots, [candidate_reducer] the three stages in a row, and
    [duplicate_groups] the body up to the assignment of [duplicates], the
    groups the script goes on to report. *)
Definition enumerate (paths : list string) : M (list string) :=
  for_each paths
    (fun files path => l <- list_files path ;; ret (files ++ l))
    [].

Definition candidate_reducer (files : list string)
  : M (list (list string)) :=
  files <- filter_files_by_size files ;;
  files <- filter_files_by_first_1k_bytes files ;;
  group_files_by_full_hash files.

Definition duplicate_groups (paths : list string) : M (list (list string)) :=
  files <- enumerate paths ;;
  candidate_reducer files.

Definition check_for_duplicates (paths : list string) : M unit :=
  duplicates <- duplicate_groups paths ;;
  print_duplicates duplicates.

(** ** [main], with [sys.argv] as its argument *)
Definition main (argv : list string) : M unit :=
  (if (List.length argv <? 2)%nat
   then print "Usage: find_duplicates.py <path> [<path> ...]" ;;;
        sys_exit 1
   else ret tt) ;;;
  check_for_duplicates (tl argv).

End Script.

Definition initial_state : state := mk_state 0 [].

(** * What a stage observes

    The discriminators, as functions of the world at one instant: what
    [get_file_size], [hash_first_1k_bytes] and [hash_file] return for a
    path when called at time [t]. *)

Definition size_at (w : world) (t : nat) (p : string) : outcome (option Z) :=
  match lookup w t p with
  | Some f => Return (Some (size_of f))
  | None => Return None
  end.

Definition open_at (w : world) (t : nat) (p : string) : outcome bytes :=
  match lookup w t p with
  | Some f => if readable f then Return (data f) else Raise OSError
  | None => Raise OSError
  end.

Definition prefix_hash_at (w : world) (t : nat) (p : string) : outcome string :=
  obind (open_at w t p) (fun f => Return (SHA1.sha1 (firstn 1024 f))).

Definition full_hash_at (w : world) (t : nat) (p : string) : outcome string :=
  obind (open_at w t p) (fun f => Return (SHA1.sha1 f)).

(** The keys a loop computes for the files of its input list, the first at
    time [t], the next one tick later, and so on; the first exception ends
    the loop. *)
Fixpoint collect {K} (obs : nat -> string -> outcome K) (t : nat)
  (files : list string) : outcome (list (K * string)) :=
  match files with
  | [] => Return []
  | p :: rest =>
      obind (obs t p) (fun k =>
      obind (collect obs (S t) rest) (fun kps => Return ((k, p) :: kps)))
  end.

(** The files the size loop files under a key: [None] and [0] are falsy. *)
Definition sized (kps : list (option Z * string)) : list (Z * string) :=
  flat_map
    (fun kp => match fst kp with
               | Some n => if n =? 0 then [] else [(n, snd kp)]
               | None => []
               end)
    kps.

(** Grouping a list of keyed files, one [setdefault(...).append(...)] after
    the other. *)
Definition group_by {K} (eqb : K -> K -> bool) (kps : list (K * string))
  : Dict.t (K := K) :=
  fold_left (fun d kp => Dict.setdefault_append eqb d (fst kp) (snd kp))
    kps Dict.empty.

(** The files of a keyed list that carry the key [k], in their order. *)
Definition select {K} (eqb : K -> K -> bool) (k : K) (kps : list (K * string))
  : list string :=
  map snd (filter (fun kp => eqb (fst kp) k) kps).

(** [subseq l1 l2]: [l1] is [l2] with some elements left out, the others in
    their order. *)
Inductive subseq {A} : list A -> list A -> Prop :=
| subseq_nil : subseq [] []
| subseq_skip x l1 l2 : subseq l1 l2 -> subseq l1 (x :: l2)
| subseq_keep x l1 l2 : subseq l1 l2 -> subseq (x :: l1) (x :: l2).

(** The list a filter hands to the next stage. *)
Definition survivors {K} (eqb : K -> K -> bool) (kps : list (K * string))
  : list string :=
  extend_with_groups (Dict.values (group_by eqb kps)).

(** What the dictionary holds once the keyed files [kps] have been
    filed: distinct keys, under each key the files that carry it in
    their order, and no key of [kps] missing. *)
Definition grouped {K} (eqb : K -> K -> bool) (d : Dict.t (K := K))
  (kps : list (K * string)) : Prop :=
  NoDup (map fst d)
  /\ (forall k vs, In (k, vs) d -> vs = select eqb k kps /\ vs <> [])
  /\ (forall k p, In (k, p) kps -> In k (map fst d)).


(** What [list_files] returns for a root at time [t], and what the roots
    of a run give, one system call after the other. *)
Definition listing_at (w : world) (t : nat) (path : string) : list string :=
  flat_map
    (fun entry : walk_entry =>
       let '(root, _, filenames) := entry in
       map (os_path_join root) filenames)
    (os_walk w t path).

Fixpoint listings (w : world) (t : nat) (paths : list string)
  : list (list string) :=
  match paths with
  | [] => []
  | path :: rest => listing_at w t path :: listings w (S t) rest
  end.

Definition outcome_string_eqb (x y : outcome string) : bool :=
  match x, y with
  | Return a, Return b => String.eqb a b
  | _, _ => false
  end.

Definition advance (n : nat) (st : state) : state :=
  mk_state (clock st + n) (stdout st).

(** ** Classes of files on a disk that does not change *)

Fixpoint bytes_eqb (a b : bytes) : bool :=
  match a, b with
  | [], [] => true
  | x :: a', y :: b' => Byte.eqb x y && bytes_eqb a' b'
  | _, _ => false
  end.

(** The path holds a file with content [c]. *)
Definition content_is (disk : string -> option file) (c : bytes) (p : string)
  : bool :=
  match disk p with
  | Some f => bytes_eqb (data f) c
  | None => false
  end.

(** The path holds a file of [n] bytes. *)
Definition has_size (disk : string -> option file) (n : Z) (p : string)
  : bool :=
  match disk p with
  | Some f => size_of f =? n
  | None => false
  end.

(** The path holds a file that can be opened. *)
Definition openable (disk : string -> option file) (p : string) : bool :=
  match disk p with
  | Some f => readable f
  | None => false
  end.

(** The lines the report has for one group, on a disk that does not
    change: the heading, the size of the first file, the paths. *)
Definition group_lines (disk : string -> option file) (lm : libm)
  (files : list string) : outcome (list string) :=
  match files with
  | [] => Raise IndexError
  | file0 :: _ =>
      obind (file_size_string lm (option_map size_of (disk file0)))
        (fun s =>
           Return ("Found duplicate files:" :: ("Size:  " ++ s) :: files)%string)
  end.

(** No key of the dictionary has an empty list. *)
Definition nonempty_values {K} (d : Dict.t (K := K)) : Prop :=
  forall k vs, In (k, vs) d -> vs <> [].

(** What a rounding location says of the remainder [r] of a division by
    [d]: nothing left, less than half, half, more than half. *)
Definition loc_ok (l : location) (r d : Z) : Prop :=
  match l with
  | loc_Exact => r = 0
  | loc_Inexact Lt => 0 < r /\ 2 * r < d
  | loc_Inexact Eq => 2 * r = d
  | loc_Inexact Gt => d < 2 * r /\ r < d
  end.

(** * Sample worlds *)

Definition hello : bytes := bytes_of_string "hello".
Definition world_bytes : bytes := bytes_of_string "world".

Definition static_world (disk : string -> option file)
  (tree : string -> list walk_entry) : world :=
  mk_world (fun _ => disk) (fun _ => tree).

(** A directory [d] with the files [a], [b] (both "hello") and [c]
    ("world"). *)
Definition three_files_disk (p : string) : option file :=
  if String.eqb p "d/a" then Some (mk_file true hello)
  else if String.eqb p "d/b" then Some (mk_file true hello)
  else if String.eqb p "d/c" then Some (mk_file true world_bytes)
  else None.

Definition three_files_tree (p : string) : list walk_entry :=
  if String.eqb p "d" then [("d", [], ["a"; "b"; "c"])]%string else [].

Definition three_files : world := static_world three_files_disk three_files_tree.

(** A directory [d] with two files "hello", of which the file named [gone]
    is deleted at time [t0]. *)
Definition two_files_tree (p : string) : list walk_entry :=
  if String.eqb p "d" then [("d", [], ["a"; "b"])]%string else [].

Definition vanishing (gone : string) (t0 : nat) : world :=
  mk_world
    (fun t p =>
       if String.eqb p gone then
         if (t <? t0)%nat then Some (mk_file true hello) else None
       else if String.eqb p "d/a" then Some (mk_file true hello)
       else if String.eqb p "d/b" then Some (mk_file true hello)
       else None)
    (fun _ => two_files_tree).

(** The same directory, with [b] present but closed to reading. *)
Definition locked : world :=
  static_world
    (fun p =>
       if String.eqb p "d/a" then Some (mk_file true hello)
       else if String.eqb p "d/b" then Some (mk_file false hello)
       else None)
    two_files_tree.

(** A logarithm that is exact on integers: the largest [k] with
    [base ^ k <= x], as a double. *)
Fixpoint floor_log (fuel : nat) (base x : Z) : Z :=
  match fuel with
  | O => 0
  | S fuel' => if x <? base then 0 else 1 + floor_log fuel' base (x / base)
  end.

Definition exact_libm : libm :=
  mk_libm
    (fun x base =>
       binary_normalize PyFloat.prec PyFloat.emax
         (floor_log (Z.to_nat (Z.log2 x)) base x) 0 false)
    (fun _ _ => S754_nan).

(** Two empty files, [e/a] and [e/b], next to the three files above. *)
Definition empties : world :=
  static_world
    (fun p =>
       if String.eqb p "e/a" then Some (mk_file true [])
       else if String.eqb p "e/b" then Some (mk_file true [])
       else three_files_disk p)
    (fun p =>
       if String.eqb p "e" then [("e", [], ["a"; "b"])]%string
       else three_files_tree p).

(** Four files that start with the same 1024 bytes: [s/a1] and [s/a2] are
    1025 bytes long, [s/b1] and [s/b2] are 1026 bytes long. *)
Definition long_prefix : bytes := repeat x61 1024.

Definition same_prefix_disk (p : string) : option file :=
  if String.eqb p "s/a1" || String.eqb p "s/a2"
  then Some (mk_file true (long_prefix ++ [x62]))
  else if String.eqb p "s/b1" || String.eqb p "s/b2"
  then Some (mk_file true (long_prefix ++ [x62; x63]))
  else None.

Definition same_prefix : world :=
  static_world same_prefix_disk
    (fun p =>
       if String.eqb p "s" then [("s", [], ["a1"; "b1"; "a2"; "b2"])]%string
       else []).

(** Four files of which two are rewritten during the run: [r/x] and
    [r/x2] are six bytes long while the sizes are read (the first four
    system calls) and hold "hello", as [r/z] and [r/y] do, from then on. *)
Definition rewritten : world :=
  mk_world
    (fun t p =>
       if String.eqb p "r/z" || String.eqb p "r/y"
       then Some (mk_file true hello)
       else if String.eqb p "r/x" || String.eqb p "r/x2"
       then if (t <? 4)%nat
            then Some (mk_file true (bytes_of_string "hello!"))
            else Some (mk_file true hello)
       else None)
    (fun _ _ => []).

(** A directory [u] with three files of different sizes: [a] holds
    "hello", [b] holds "hello!" and is closed to reading, [c] is empty. *)
Definition different_sizes : world :=
  static_world
    (fun p =>
       if String.eqb p "u/a" then Some (mk_file true hello)
       else if String.eqb p "u/b"
       then Some (mk_file false (bytes_of_string "hello!"))
       else if String.eqb p "u/c" then Some (mk_file true [])
       else None)
    (fun p =>
       if String.eqb p "u" then [("u", ["sub"], ["a"; "b"; "c"])]%string
       else []).

(** * Properties *)

(** ** SHA-1 on known messages *)

Example sha1_empty :
  SHA1.sha1 [] = "da39a3ee5e6b4b0d3255bfef95601890afd80709"%string.
Proof. vm_compute. reflexivity. Qed.

Example sha1_abc :
  SHA1.sha1 (bytes_of_string "abc")
  = "a9993e364706816aba3e25717850c26c9cd0d89d"%string.
Proof. vm_compute. reflexivity. Qed.

Example sha1_two_blocks :
  SHA1.sha1 (bytes_of_string
     "abcdbcdecdefdefgefghfghighijhijkijkljklmklmnlmnomnopnopq")
  = "84983e441c3bd26ebaae4aa1f95129e5e54670f1"%string.
Proof. vm_compute. reflexivity. Qed.

Example sha1_hello :
  SHA1.sha1 (bytes_of_string "hello")
  = "aaf4c61ddcc5e8a2dabede0f3b482cd9aea9434d"%string.
Proof. vm_compute. reflexivity. Qed.

(** ** The hash object: feeding in pieces *)

Lemma update_app (o : SHA1.t) (a b : bytes) :
  SHA1.update (SHA1.update o a) b = SHA1.update o (a ++ b).
Proof. unfold SHA1.update. now rewrite fold_left_app. Qed.

Lemma update_nil (o : SHA1.t) : SHA1.update o [] = o.
Proof. reflexivity. Qed.

(** The reading loop feeds the object the whole file, whatever the size of
    the chunks. *)
Lemma read_loop_update (n : nat) (o : SHA1.t) (f : bytes) :
  (0 < n)%nat -> read_loop n o f = SHA1.update o f.
Proof.
  intros Hn.
  remember (List.length f) as len eqn:Hlen.
  revert o f Hlen.
  induction len as [len IH] using lt_wf_ind; intros o f Hlen.
  rewrite read_loop_equation_1.
  unfold read_loop_unfold_clause_1, inspect.
  destruct (firstn n f) as [|b chunk] eqn:Hchunk.
  - destruct n as [|n]; [lia|].
    destruct f; [reflexivity | discriminate].
  - rewrite (IH (List.length (skipn n f))) with (f := skipn n f);
      [| | reflexivity].
    + rewrite <- Hchunk, update_app, firstn_skipn. reflexivity.
    + subst len. destruct n as [|n]; [lia|].
      destruct f as [|x f]; [discriminate|].
      simpl. pose proof (length_skipn n f). lia.
Qed.

(** ** Subsequences *)

Section Subseq.
Context {A : Type}.
Implicit Types l : list A.

Lemma subseq_refl l : subseq l l.
Proof. induction l; constructor; assumption. Qed.

Lemma subseq_nil_l l : subseq [] l.
Proof. induction l; constructor; assumption. Qed.

Lemma subseq_trans l1 l2 l3 : subseq l1 l2 -> subseq l2 l3 -> subseq l1 l3.
Proof.
  intros H12 H23. revert l1 H12.
  induction H23 as [|x l2 l3 _ IH|x l2 l3 _ IH]; intros l1 H12.
  - assumption.
  - constructor. apply IH, H12.
  - inversion H12; subst.
    + constructor. apply IH. assumption.
    + apply subseq_keep. apply IH. assumption.
Qed.

Lemma subseq_In l1 l2 x : subseq l1 l2 -> In x l1 -> In x l2.
Proof.
  induction 1 as [|y l1 l2 _ IH|y l1 l2 _ IH]; simpl; intuition.
Qed.

Lemma subseq_length l1 l2 :
  subseq l1 l2 -> (List.length l1 <= List.length l2)%nat.
Proof. induction 1; simpl; lia. Qed.

Lemma subseq_app l1 l2 l1' l2' :
  subseq l1 l1' -> subseq l2 l2' -> subseq (l1 ++ l2) (l1' ++ l2').
Proof.
  induction 1; simpl; intros H2;
    [assumption | apply subseq_skip; auto | apply subseq_keep; auto].
Qed.

Lemma subseq_app_r l l1 l2 : subseq l l2 -> subseq l (l1 ++ l2).
Proof. intros H. induction l1; simpl; [assumption | now constructor]. Qed.

Lemma subseq_app_l l l1 l2 : subseq l l1 -> subseq l (l1 ++ l2).
Proof.
  intros H. rewrite <- (app_nil_r l).
  apply subseq_app; [assumption | apply subseq_nil_l].
Qed.

Lemma subseq_filter (f : A -> bool) l : subseq (filter f l) l.
Proof.
  induction l as [|x l IH]; simpl; [constructor|].
  destruct (f x); now constructor.
Qed.

Lemma subseq_filter_all (f : A -> bool) l1 l2 :
  subseq l1 l2 -> Forall (fun x => f x = true) l1 -> subseq l1 (filter f l2).
Proof.
  induction 1 as [|x l1 l2 _ IH|x l1 l2 _ IH]; intros Hall; simpl.
  - constructor.
  - destruct (f x); [constructor|]; auto.
  - inversion Hall as [|? ? Hx Hl]; subst. rewrite Hx.
    apply subseq_keep. auto.
Qed.

Lemma subseq_concat_member (g : list A) (gs : list (list A)) :
  In g gs -> subseq g (concat gs).
Proof.
  induction gs as [|g' gs IH]; simpl; [contradiction|].
  intros [->|Hin].
  - apply subseq_app_l, subseq_refl.
  - apply subseq_app_r, IH, Hin.
Qed.

(** A list with two elements or more gives every element a neighbour. *)
Lemma subseq_partner l x :
  In x l -> (2 <= List.length l)%nat ->
  exists y, subseq [x; y] l \/ subseq [y; x] l.
Proof.
  intros Hin Hlen.
  destruct (in_split _ _ Hin) as (l1 & l2 & ->).
  destruct l2 as [|y l2].
  - destruct l1 as [|y l1].
    + simpl in Hlen. lia.
    + exists y. right. simpl. apply subseq_keep.
      apply subseq_app_r. apply subseq_keep, subseq_nil_l.
  - exists y. left. apply subseq_app_r.
    do 2 apply subseq_keep. apply subseq_nil_l.
Qed.

Lemma subseq_pair_length l x y :
  subseq [x; y] l -> (2 <= List.length l)%nat.
Proof. intros H. apply subseq_length in H. exact H. Qed.

(** Two elements in order sit at two positions in order. *)
Lemma subseq_single_nth l x :
  subseq [x] l -> exists i, nth_error l i = Some x.
Proof.
  intros H. remember [x] as s eqn:Hs.
  induction H as [|z l1 l2 _ IH|z l1 l2 _ _].
  - discriminate.
  - destruct (IH Hs) as (i & Hi). exists (S i). exact Hi.
  - injection Hs as -> _. exists 0%nat. reflexivity.
Qed.

Lemma subseq_pair_nth l x y :
  subseq [x; y] l ->
  exists i j, (i < j)%nat /\ nth_error l i = Some x /\ nth_error l j = Some y.
Proof.
  intros H. remember [x; y] as s eqn:Hs.
  induction H as [|z l1 l2 _ IH|z l1 l2 H12 _].
  - discriminate.
  - destruct (IH Hs) as (i & j & Hij & Hi & Hj).
    exists (S i), (S j). repeat split; [lia | assumption | assumption].
  - injection Hs as -> ->.
    destruct (subseq_single_nth _ _ H12) as (j & Hj).
    exists 0%nat, (S j). repeat split; [lia | assumption].
Qed.

Lemma nth_pair_subseq l x y i j :
  (i < j)%nat -> nth_error l i = Some x -> nth_error l j = Some y ->
  subseq [x; y] l.
Proof.
  revert i j. induction l as [|z l IH]; intros i j Hij Hi Hj.
  - destruct i; discriminate.
  - destruct j as [|j]; [lia|]. destruct i as [|i]; simpl in *.
    + injection Hi as ->. apply subseq_keep.
      apply nth_error_split in Hj. destruct Hj as (l1 & l2 & -> & _).
      apply subseq_app_r. apply subseq_keep, subseq_nil_l.
    + apply subseq_skip. apply (IH i j); [lia | assumption | assumption].
Qed.

End Subseq.

Lemma subseq_map {A B} (f : A -> B) (l1 l2 : list A) :
  subseq l1 l2 -> subseq (map f l1) (map f l2).
Proof. induction 1; simpl; constructor; assumption. Qed.

Lemma subseq_map_inv {A B} (f : A -> B) (l : list B) (l' : list A) :
  subseq l (map f l') -> exists l0, subseq l0 l' /\ map f l0 = l.
Proof.
  revert l. induction l' as [|x l' IH]; simpl; intros l H.
  - inversion H; subst. exists []. split; [constructor | reflexivity].
  - inversion H as [|? ? ? H'|? l1 ? H']; subst.
    + destruct (IH _ H') as (l0 & Hs & Hm).
      exists l0. split; [now constructor | assumption].
    + destruct (IH _ H') as (l0 & Hs & Hm).
      exists (x :: l0). split; [now constructor | simpl; now rewrite Hm].
Qed.

Lemma subseq_flat_map_inv {A B} (f : A -> list B) (l : list B) (l' : list A) :
  (forall x, (List.length (f x) <= 1)%nat) ->
  subseq l (flat_map f l') ->
  exists l0, subseq l0 l' /\ flat_map f l0 = l
             /\ Forall (fun x => f x <> []) l0.
Proof.
  intros Hf. revert l. induction l' as [|x l' IH]; simpl; intros l H.
  - inversion H; subst. exists []. repeat split; constructor.
  - specialize (Hf x) as Hx. destruct (f x) as [|y [|z r]] eqn:Hfx;
      simpl in *; [| |lia].
    + destruct (IH _ H) as (l0 & Hs & Hm & Hall).
      exists l0. repeat split; [now constructor | assumption | assumption].
    + inversion H as [|? ? ? H'|? l1 ? H']; subst.
      * destruct (IH _ H') as (l0 & Hs & Hm & Hall).
        exists l0. repeat split; [now constructor | assumption | assumption].
      * destruct (IH _ H') as (l0 & Hs & Hm & Hall).
        exists (x :: l0). repeat split.
        -- now constructor.
        -- simpl. rewrite Hfx. simpl. now rewrite Hm.
        -- constructor; [rewrite Hfx; discriminate | assumption].
Qed.

(** ** Grouping with a dictionary *)

Lemma extend_with_groups_concat (groups : list (list string)) :
  extend_with_groups groups
  = concat (filter (fun paths => (1 <? List.length paths)%nat) groups).
Proof.
  unfold extend_with_groups.
  enough (H : forall acc,
             fold_left
               (fun duplicates paths =>
                  if (1 <? List.length paths)%nat then duplicates ++ paths
                  else duplicates) groups acc
             = acc ++ concat
                 (filter (fun paths => (1 <? List.length paths)%nat) groups))
    by apply (H []).
  induction groups as [|g gs IH]; intros acc; simpl.
  - now rewrite app_nil_r.
  - rewrite IH. destruct (1 <? List.length g)%nat; simpl.
    + now rewrite app_assoc.
    + reflexivity.
Qed.

Section Grouping.
Context {K : Type} (eqb : K -> K -> bool).
Hypothesis eqb_eq : forall x y, eqb x y = true <-> x = y.

Abbreviation sda := (Dict.setdefault_append eqb).
Abbreviation grouped := (grouped eqb).
Abbreviation survivors := (survivors eqb).

Lemma eqb_refl_K x : eqb x x = true.
Proof. now apply eqb_eq. Qed.

Lemma eqb_neq x y : x <> y -> eqb x y = false.
Proof.
  intros Hne. destruct (eqb x y) eqn:E; [|reflexivity].
  apply eqb_eq in E. contradiction.
Qed.

Lemma select_app k (l1 l2 : list (K * string)) :
  select eqb k (l1 ++ l2) = select eqb k l1 ++ select eqb k l2.
Proof. unfold select. now rewrite filter_app, map_app. Qed.

Lemma select_In k p kps : In p (select eqb k kps) <-> In (k, p) kps.
Proof.
  unfold select. rewrite in_map_iff. split.
  - intros ((k', p') & <- & Hin). apply filter_In in Hin as (Hin & E).
    simpl in *. apply eqb_eq in E. now subst.
  - intros Hin. exists (k, p). split; [reflexivity|].
    apply filter_In. split; [assumption | apply eqb_refl_K].
Qed.

Lemma select_subseq k kps : subseq (select eqb k kps) (map snd kps).
Proof. unfold select. apply subseq_map, subseq_filter. Qed.

Lemma keys_setdefault_append d k v k' :
  In k' (map fst (sda d k v)) <-> k' = k \/ In k' (map fst d).
Proof.
  induction d as [|(k0, vs0) d IH]; simpl.
  - intuition.
  - destruct (eqb k k0) eqn:E; simpl.
    + apply eqb_eq in E. subst. intuition.
    + rewrite IH. intuition.
Qed.

Lemma NoDup_setdefault_append d k v :
  NoDup (map fst d) -> NoDup (map fst (sda d k v)).
Proof.
  induction d as [|(k0, vs0) d IH]; simpl; intros Hnd.
  - constructor; [intros [] | constructor].
  - inversion Hnd as [|? ? Hnotin Hnd']; subst.
    destruct (eqb k k0) eqn:E; simpl.
    + constructor; assumption.
    + constructor; [|auto].
      rewrite keys_setdefault_append. intros [->|Hin]; [|contradiction].
      rewrite eqb_refl_K in E. discriminate.
Qed.

Lemma In_setdefault_append d k v k' vs :
  NoDup (map fst d) ->
  In (k', vs) (sda d k v) ->
  (k' <> k /\ In (k', vs) d)
  \/ (k' = k /\ ((exists vs0, In (k, vs0) d /\ vs = vs0 ++ [v])
                 \/ (~ In k (map fst d) /\ vs = [v]))).
Proof.
  induction d as [|(k0, vs0) d IH]; simpl; intros Hnd Hin.
  - destruct Hin as [Heq|[]]. injection Heq as <- <-.
    right. split; [reflexivity|]. right. split; [tauto | reflexivity].
  - inversion Hnd as [|? ? Hnotin Hnd']; subst.
    destruct (eqb k k0) eqn:E.
    + apply eqb_eq in E. subst k0.
      destruct Hin as [Heq|Hin].
      * injection Heq as <- <-. right. split; [reflexivity|].
        left. exists vs0. split; [now left | reflexivity].
      * left. split; [|now right].
        intros ->. apply Hnotin. apply in_map_iff.
        exists (k, vs). split; [reflexivity | assumption].
    + destruct Hin as [Heq|Hin].
      * injection Heq as <- <-. left. split; [|now left].
        intros ->. rewrite eqb_refl_K in E. discriminate.
      * destruct (IH Hnd' Hin) as [(Hne & Hd)|(-> & Hcase)].
        -- left. split; [assumption | now right].
        -- right. split; [reflexivity|].
           destruct Hcase as [(vs1 & Hd & ->)|(Hnot & ->)].
           ++ left. exists vs1. split; [now right | reflexivity].
           ++ right. split; [|reflexivity].
              intros [->|Hk]; [|contradiction].
              rewrite eqb_refl_K in E. discriminate.
Qed.

Lemma grouped_empty : grouped Dict.empty [].
Proof.
  repeat split; simpl; try contradiction. constructor.
Qed.

Lemma grouped_step d kps k v :
  grouped d kps -> grouped (sda d k v) (kps ++ [(k, v)]).
Proof.
  intros (Hnd & Hsel & Hkeys). repeat split.
  - now apply NoDup_setdefault_append.
  - apply In_setdefault_append in H; [|assumption].
    rewrite select_app. unfold select at 2. simpl.
    destruct H as [(Hne & Hd)|(-> & [(vs0 & Hd & ->)|(Hnot & ->)])].
    + rewrite eqb_neq by (intros E; apply Hne; now rewrite E).
      simpl. rewrite app_nil_r. apply (Hsel _ _ Hd).
    + rewrite eqb_refl_K. simpl. f_equal. apply (Hsel _ _ Hd).
    + rewrite eqb_refl_K. simpl.
      destruct (select eqb k kps) as [|p r] eqn:Es; [reflexivity|].
      exfalso. apply Hnot. apply (Hkeys k p). apply select_In.
      rewrite Es. now left.
  - apply In_setdefault_append in H; [|assumption].
    destruct H as [(Hne & Hd)|(-> & [(vs0 & Hd & ->)|(Hnot & ->)])].
    + apply (Hsel _ _ Hd).
    + intros E. now apply app_eq_nil in E as (_ & E).
    + discriminate.
  - intros k' p Hin. apply keys_setdefault_append.
    apply in_app_or in Hin as [Hin|[Heq|[]]].
    + right. apply (Hkeys _ _ Hin).
    + injection Heq as <- <-. now left.
Qed.

Lemma grouped_fold kps : forall d kps0,
  grouped d kps0 ->
  grouped
    (fold_left (fun d kp => sda d (fst kp) (snd kp)) kps d) (kps0 ++ kps).
Proof.
  induction kps as [|(k, v) kps IH]; intros d kps0 Hg; simpl.
  - now rewrite app_nil_r.
  - replace (kps0 ++ (k, v) :: kps) with ((kps0 ++ [(k, v)]) ++ kps)
      by now rewrite <- app_assoc.
    apply IH. now apply grouped_step.
Qed.

Lemma group_by_grouped kps : grouped (group_by eqb kps) kps.
Proof. apply (grouped_fold kps Dict.empty []), grouped_empty. Qed.

Lemma group_by_select k vs kps :
  In (k, vs) (group_by eqb kps) -> vs = select eqb k kps /\ vs <> [].
Proof. apply (group_by_grouped kps). Qed.

Lemma group_by_has k p kps :
  In (k, p) kps -> In (k, select eqb k kps) (group_by eqb kps).
Proof.
  intros Hin. destruct (group_by_grouped kps) as (_ & Hsel & Hkeys).
  specialize (Hkeys _ _ Hin). apply in_map_iff in Hkeys.
  destruct Hkeys as ((k', vs) & <- & Hd). simpl.
  destruct (Hsel _ _ Hd) as (<- & _). assumption.
Qed.

Lemma group_by_values g kps :
  In g (Dict.values (group_by eqb kps)) ->
  exists k, In (k, g) (group_by eqb kps) /\ g = select eqb k kps.
Proof.
  unfold Dict.values. rewrite in_map_iff.
  intros ((k, vs) & <- & Hd). exists k. split; [assumption|].
  apply (group_by_select _ _ _ Hd).
Qed.

(** Two files that carry the same key are filed in the same group, in
    their order. *)
Lemma pair_grouped k a b kps :
  subseq [(k, a); (k, b)] kps ->
  In (k, select eqb k kps) (group_by eqb kps)
  /\ subseq [a; b] (select eqb k kps).
Proof.
  intros Hs. split.
  - apply (group_by_has k a). apply (subseq_In _ _ _ Hs). now left.
  - unfold select. apply (subseq_map snd [(k, a); (k, b)]).
    apply subseq_filter_all; [assumption|].
    repeat constructor; simpl; apply eqb_refl_K.
Qed.

(** A pair of files of one group comes from a pair of keyed files. *)
Lemma pair_ungrouped k a b kps :
  subseq [a; b] (select eqb k kps) -> subseq [(k, a); (k, b)] kps.
Proof.
  unfold select. intros Hs.
  apply subseq_map_inv in Hs as (l0 & Hs & Hm).
  destruct l0 as [|(ka, a') [|(kb, b') [|? ?]]]; try discriminate.
  simpl in Hm. injection Hm as -> ->.
  assert (Ha : In (ka, a) (filter (fun kp => eqb (fst kp) k) kps))
    by (apply (subseq_In _ _ _ Hs); now left).
  assert (Hb : In (kb, b) (filter (fun kp => eqb (fst kp) k) kps))
    by (apply (subseq_In _ _ _ Hs); right; now left).
  apply filter_In in Ha as (_ & Ea). apply filter_In in Hb as (_ & Eb).
  simpl in *. apply eqb_eq in Ea, Eb. subst.
  apply (subseq_trans _ _ _ Hs), subseq_filter.
Qed.

Lemma survivors_In p kps :
  In p (survivors kps) <->
  exists k, In (k, p) kps /\ (2 <= List.length (select eqb k kps))%nat.
Proof.
  unfold survivors. rewrite extend_with_groups_concat, in_concat. split.
  - intros (g & Hg & Hp). apply filter_In in Hg as (Hg & Hlen).
    apply Nat.ltb_lt in Hlen.
    apply group_by_values in Hg as (k & _ & ->).
    exists k. split; [now apply select_In | lia].
  - intros (k & Hin & Hlen). exists (select eqb k kps). split.
    + apply filter_In. split.
      * unfold Dict.values. apply in_map_iff.
        exists (k, select eqb k kps). split; [reflexivity|].
        now apply (group_by_has k p).
      * apply Nat.ltb_lt. lia.
    + now apply select_In.
Qed.

Lemma survivors_group k kps :
  In (k, select eqb k kps) (group_by eqb kps) ->
  (2 <= List.length (select eqb k kps))%nat ->
  subseq (select eqb k kps) (survivors kps).
Proof.
  intros Hd Hlen. unfold survivors. rewrite extend_with_groups_concat.
  apply subseq_concat_member. apply filter_In. split.
  - unfold Dict.values. apply in_map_iff.
    exists (k, select eqb k kps). split; [reflexivity | assumption].
  - apply Nat.ltb_lt. lia.
Qed.

(** A pair with one key survives the filter, in its order. *)
Lemma pair_survives k a b kps :
  subseq [(k, a); (k, b)] kps -> subseq [a; b] (survivors kps).
Proof.
  intros Hs. destruct (pair_grouped _ _ _ _ Hs) as (Hd & Hab).
  apply (subseq_trans _ _ _ Hab). apply survivors_group; [assumption|].
  apply (subseq_pair_length _ _ _ Hab).
Qed.

(** Every survivor has a partner with the same key, itself a survivor. *)
Lemma survivors_partner p kps :
  In p (survivors kps) ->
  exists k q,
    (subseq [(k, p); (k, q)] kps \/ subseq [(k, q); (k, p)] kps)
    /\ In q (survivors kps).
Proof.
  intros Hp. apply survivors_In in Hp as (k & Hin & Hlen).
  apply select_In in Hin.
  destruct (subseq_partner _ _ Hin Hlen) as (q & Hq).
  exists k, q. split.
  - destruct Hq as [Hq|Hq]; [left | right]; now apply pair_ungrouped.
  - apply survivors_In. exists k. split; [|assumption].
    apply select_In.
    destruct Hq as [Hq|Hq]; apply (subseq_In _ _ _ Hq); simpl; tauto.
Qed.





End Grouping.

(** ** Running the loops *)

Lemma bind_run {A B} (m : M A) (k : A -> M B) st :
  bind m k st
  = match m st with
    | (Return a, st') => k a st'
    | (Raise e, st') => (Raise e, st')
    end.
Proof. reflexivity. Qed.

Lemma for_each_cons {A D} (x : A) (xs : list A) (body : D -> A -> M D) d :
  for_each (x :: xs) body d = bind (body d x) (fun d' => for_each xs body d').
Proof. reflexivity. Qed.

Lemma print_run line st :
  print line st = (Return tt, mk_state (clock st) (stdout st ++ [line])).
Proof. reflexivity. Qed.

Lemma lift_run {A} (x : outcome A) st : lift x st = (x, st).
Proof. reflexivity. Qed.

Lemma advance_tick n st : advance n (tick st) = advance (S n) st.
Proof. unfold advance, tick. simpl. f_equal. lia. Qed.

Lemma advance_0 st : advance 0 st = st.
Proof. destruct st. unfold advance. simpl. f_equal. lia. Qed.

Lemma advance_advance n m st : advance n (advance m st) = advance (m + n) st.
Proof. unfold advance. simpl. f_equal. lia. Qed.

Lemma get_file_size_run w p st :
  get_file_size w p st = (size_at w (clock st) p, tick st).
Proof.
  unfold get_file_size, try_except, bind, os_path_getsize, size_at, ret.
  destruct (lookup w (clock st) p); reflexivity.
Qed.

Lemma hash_first_1k_bytes_run w p st :
  hash_first_1k_bytes w p st = (prefix_hash_at w (clock st) p, tick st).
Proof.
  unfold hash_first_1k_bytes, bind, open_rb, prefix_hash_at, open_at, ret.
  destruct (lookup w (clock st) p) as [f|]; [|reflexivity].
  destruct (readable f); reflexivity.
Qed.

Lemma chunk_size_positive : (0 < 8192)%nat.
Proof. apply Nat.ltb_lt. vm_compute. reflexivity. Qed.

Lemma hash_file_run w p st :
  hash_file w p st = (full_hash_at w (clock st) p, tick st).
Proof.
  unfold hash_file, bind, open_rb, full_hash_at, open_at, ret.
  destruct (lookup w (clock st) p) as [f|]; [|reflexivity].
  destruct (readable f); [|reflexivity].
  simpl. rewrite (read_loop_update _ _ _ chunk_size_positive). reflexivity.
Qed.

Lemma for_each_collect {K D} (obs : nat -> string -> outcome K)
  (upd : D -> K -> string -> D) (body : D -> string -> M D) :
  (forall d p st,
      body d p st
      = (match obs (clock st) p with
         | Return k => Return (upd d k p)
         | Raise e => Raise e
         end, tick st)) ->
  forall files d st,
    for_each files body d st
    = match collect obs (clock st) files with
      | Return kps =>
          (Return (fold_left (fun d kp => upd d (fst kp) (snd kp)) kps d),
           advance (List.length files) st)
      | Raise e => (Raise e, snd (for_each files body d st))
      end.
Proof.
  intros Hbody. induction files as [|p files IH]; intros d st; simpl.
  - unfold ret. now rewrite advance_0.
  - unfold bind at 1. rewrite Hbody.
    destruct (obs (clock st) p) as [k|e] eqn:Hobs; simpl.
    + rewrite IH. simpl.
      destruct (collect obs (S (clock st)) files) as [kps|e] eqn:Hc; simpl.
      * now rewrite advance_tick.
      * unfold bind. rewrite Hbody, Hobs. rewrite IH. simpl.
        rewrite Hc. reflexivity.
    + unfold bind. rewrite Hbody, Hobs. reflexivity.
Qed.

Lemma collect_map_snd {K} (obs : nat -> string -> outcome K) files :
  forall t kps, collect obs t files = Return kps -> map snd kps = files.
Proof.
  induction files as [|p files IH]; simpl; intros t kps H.
  - injection H as <-. reflexivity.
  - destruct (obs t p) as [k|e]; simpl in H; [|discriminate].
    destruct (collect obs (S t) files) as [kps'|e] eqn:Hc; simpl in H;
      [|discriminate].
    injection H as <-. simpl. f_equal. apply (IH _ _ Hc).
Qed.

(** Each key was observed on its file at the time the loop reached it. *)
Lemma collect_nth {K} (obs : nat -> string -> outcome K) files :
  forall t kps i k p,
    collect obs t files = Return kps ->
    nth_error kps i = Some (k, p) ->
    nth_error files i = Some p /\ obs (t + i)%nat p = Return k.
Proof.
  induction files as [|q files IH]; simpl; intros t kps i k p H Hi.
  - injection H as <-. destruct i; discriminate.
  - destruct (obs t q) as [kq|e] eqn:Hq; simpl in H; [|discriminate].
    destruct (collect obs (S t) files) as [kps'|e] eqn:Hc; simpl in H;
      [|discriminate].
    injection H as <-. destruct i as [|i]; simpl in Hi.
    + injection Hi as <- <-. rewrite Nat.add_0_r. auto.
    + destruct (IH _ _ _ _ _ Hc Hi) as (Hn & Ho). split; [assumption|].
      now rewrite Nat.add_succ_r.
Qed.

Lemma collect_In {K} (obs : nat -> string -> outcome K) files t kps k p :
  collect obs t files = Return kps -> In (k, p) kps ->
  In p files /\ exists t', (t <= t')%nat /\ obs t' p = Return k.
Proof.
  intros Hc Hin. apply In_nth_error in Hin as (i & Hi).
  destruct (collect_nth _ _ _ _ _ _ _ Hc Hi) as (Hn & Ho).
  split; [apply (nth_error_In _ _ Hn)|]. exists (t + i)%nat. split; [lia|].
  assumption.
Qed.

(** The loop goes through when every file can be observed at its turn. *)
Lemma collect_total {K} (obs : nat -> string -> outcome K) files :
  forall t,
    (forall i p, nth_error files i = Some p ->
                 exists k, obs (t + i)%nat p = Return k) ->
    exists kps, collect obs t files = Return kps.
Proof.
  induction files as [|q files IH]; simpl; intros t Hall.
  - eexists. reflexivity.
  - destruct (Hall 0%nat q eq_refl) as (k & Hk).
    rewrite Nat.add_0_r in Hk. rewrite Hk. simpl.
    destruct (IH (S t)) as (kps & Hc).
    + intros i p Hi. destruct (Hall (S i) p Hi) as (k' & Hk').
      exists k'. now rewrite Nat.add_succ_r in Hk'.
    + rewrite Hc. simpl. eexists. reflexivity.
Qed.

Lemma collect_size_total w files t :
  exists kps, collect (size_at w) t files = Return kps.
Proof.
  apply collect_total. intros i p _. unfold size_at.
  destruct (lookup w (t + i) p); eexists; reflexivity.
Qed.

(** A pair of files in the input is a pair of keyed files. *)
Lemma collect_pair {K} (obs : nat -> string -> outcome K) files t kps a b :
  collect obs t files = Return kps -> subseq [a; b] files ->
  exists ka kb ta tb,
    subseq [(ka, a); (kb, b)] kps
    /\ obs ta a = Return ka /\ obs tb b = Return kb.
Proof.
  intros Hc Hs. rewrite <- (collect_map_snd _ _ _ _ Hc) in Hs.
  apply subseq_map_inv in Hs as (l0 & Hs & Hm).
  destruct l0 as [|(ka, a') [|(kb, b') [|? ?]]]; try discriminate.
  simpl in Hm. injection Hm as -> ->.
  destruct (collect_In _ _ _ _ ka a Hc) as (_ & ta & _ & Ha).
  { apply (subseq_In _ _ _ Hs). now left. }
  destruct (collect_In _ _ _ _ kb b Hc) as (_ & tb & _ & Hb).
  { apply (subseq_In _ _ _ Hs). right. now left. }
  exists ka, kb, ta, tb. auto.
Qed.

(** *** The size loop *)

Lemma sized_fold (kps : list (option Z * string)) : forall d,
  fold_left
    (fun d kp =>
       if truthy (fst kp) then
         match fst kp with
         | Some n => Dict.setdefault_append Z.eqb d n (snd kp)
         | None => d
         end
       else d) kps d
  = fold_left
      (fun d kp => Dict.setdefault_append Z.eqb d (fst kp) (snd kp))
      (sized kps) d.
Proof.
  induction kps as [|([n|], p) kps IH]; intros d; simpl.
  - reflexivity.
  - destruct (n =? 0); simpl; apply IH.
  - apply IH.
Qed.

Lemma files_by_size_run w files st kps :
  collect (size_at w) (clock st) files = Return kps ->
  files_by_size w files st
  = (Return (group_by Z.eqb (sized kps)), advance (List.length files) st).
Proof.
  intros Hc. unfold files_by_size.
  rewrite (for_each_collect (size_at w)
             (fun d k p =>
                if truthy k then
                  match k with
                  | Some n => Dict.setdefault_append Z.eqb d n p
                  | None => d
                  end
                else d)).
  - rewrite Hc. unfold group_by. now rewrite sized_fold.
  - intros d p st0. unfold bind. rewrite get_file_size_run.
    unfold size_at. destruct (lookup w (clock st0) p) as [f|]; simpl.
    + destruct (size_of f =? 0); reflexivity.
    + reflexivity.
Qed.

Lemma filter_files_by_size_run w files st kps :
  collect (size_at w) (clock st) files = Return kps ->
  filter_files_by_size w files st
  = (Return (survivors Z.eqb (sized kps)), advance (List.length files) st).
Proof.
  intros Hc. unfold filter_files_by_size, bind.
  now rewrite (files_by_size_run _ _ _ _ Hc).
Qed.

(** *** The two hash loops *)

Lemma files_by_first_1k_run w files st :
  files_by_first_1k w files st
  = match collect (prefix_hash_at w) (clock st) files with
    | Return kps =>
        (Return (group_by String.eqb kps), advance (List.length files) st)
    | Raise e => (Raise e, snd (files_by_first_1k w files st))
    end.
Proof.
  unfold files_by_first_1k at 1.
  rewrite (for_each_collect (prefix_hash_at w)
             (fun d k p => Dict.setdefault_append String.eqb d k p)).
  - reflexivity.
  - intros d p st0. unfold bind. rewrite hash_first_1k_bytes_run.
    destruct (prefix_hash_at w (clock st0) p); reflexivity.
Qed.

Lemma files_by_full_hash_run w files st :
  files_by_full_hash w files st
  = match collect (full_hash_at w) (clock st) files with
    | Return kps =>
        (Return (group_by String.eqb kps), advance (List.length files) st)
    | Raise e => (Raise e, snd (files_by_full_hash w files st))
    end.
Proof.
  unfold files_by_full_hash at 1.
  rewrite (for_each_collect (full_hash_at w)
             (fun d k p => Dict.setdefault_append String.eqb d k p)).
  - reflexivity.
  - intros d p st0. unfold bind. rewrite hash_file_run.
    destruct (full_hash_at w (clock st0) p); reflexivity.
Qed.

Lemma filter_files_by_first_1k_bytes_inv w files st out st' :
  filter_files_by_first_1k_bytes w files st = (Return out, st') ->
  exists kps,
    collect (prefix_hash_at w) (clock st) files = Return kps
    /\ out = survivors String.eqb kps
    /\ st' = advance (List.length files) st.
Proof.
  unfold filter_files_by_first_1k_bytes, bind.
  rewrite files_by_first_1k_run.
  destruct (collect (prefix_hash_at w) (clock st) files) as [kps|e];
    [|discriminate].
  unfold ret. intros H. injection H as <- <-. exists kps. auto.
Qed.

Lemma filter_files_by_first_1k_bytes_run w files st kps :
  collect (prefix_hash_at w) (clock st) files = Return kps ->
  filter_files_by_first_1k_bytes w files st
  = (Return (survivors String.eqb kps), advance (List.length files) st).
Proof.
  intros Hc. unfold filter_files_by_first_1k_bytes, bind.
  rewrite files_by_first_1k_run, Hc. reflexivity.
Qed.

(** The groups reported for a list of keyed files. *)
Lemma group_files_by_full_hash_inv w files st groups st' :
  group_files_by_full_hash w files st = (Return groups, st') ->
  exists kps,
    collect (full_hash_at w) (clock st) files = Return kps
    /\ groups = filter (fun paths => (1 <? List.length paths)%nat)
                  (Dict.values (group_by String.eqb kps))
    /\ st' = advance (List.length files) st.
Proof.
  unfold group_files_by_full_hash, bind.
  rewrite files_by_full_hash_run.
  destruct (collect (full_hash_at w) (clock st) files) as [kps|e];
    [|discriminate].
  unfold ret. intros H. injection H as <- <-. exists kps. auto.
Qed.

Lemma group_files_by_full_hash_run w files st kps :
  collect (full_hash_at w) (clock st) files = Return kps ->
  group_files_by_full_hash w files st
  = (Return (filter (fun paths => (1 <? List.length paths)%nat)
               (Dict.values (group_by String.eqb kps))),
     advance (List.length files) st).
Proof.
  intros Hc. unfold group_files_by_full_hash, bind.
  rewrite files_by_full_hash_run, Hc. reflexivity.
Qed.

(** ** Filtering what a stage hands on

    When every file that satisfies [P] carries the key [k], the files of
    the output that satisfy [P] are those of the group of [k], provided the
    group is kept. *)

Section Narrowing.
Context {K : Type} (eqb : K -> K -> bool).
Hypothesis eqb_eq : forall x y, eqb x y = true <-> x = y.

Lemma filter_none {A} (P : A -> bool) (l : list A) :
  (forall x, In x l -> P x = false) -> filter P l = [].
Proof.
  induction l as [|x l IH]; simpl; intros H; [reflexivity|].
  rewrite (H x) by now left. apply IH. intros y Hy. apply H. now right.
Qed.

Lemma filter_kept_groups (P : string -> bool) (k : K) kps :
  (forall k' p, In (k', p) kps -> P p = true -> k' = k) ->
  forall d : Dict.t (K := K),
    NoDup (map fst d) ->
    (forall k' vs, In (k', vs) d -> vs = select eqb k' kps) ->
    filter P
      (concat (filter (fun paths => (1 <? List.length paths)%nat)
                 (Dict.values d)))
    = if existsb (fun k' => eqb k' k) (map fst d)
         && (1 <? List.length (select eqb k kps))%nat
      then filter P (select eqb k kps) else [].
Proof.
  intros HP. induction d as [|(k', vs) d IH]; simpl; intros Hnd Hsel.
  - reflexivity.
  - inversion Hnd as [|? ? Hnotin Hnd']; subst.
    assert (Hvs : vs = select eqb k' kps) by (apply Hsel; now left).
    assert (IH' := IH Hnd' (fun k0 vs0 H => Hsel k0 vs0 (or_intror H))).
    destruct (eqb k' k) eqn:E; simpl.
    + apply eqb_eq in E. subst k'.
      assert (Hno : existsb (fun k' => eqb k' k) (map fst d) = false).
      { destruct (existsb _ _) eqn:Ex; [|reflexivity].
        apply existsb_exists in Ex as (k0 & Hin & E0).
        apply eqb_eq in E0. subst k0. contradiction. }
      rewrite Hno in IH'. simpl in IH'. rewrite <- Hvs.
      destruct (1 <? List.length vs)%nat; simpl.
      * rewrite filter_app, IH', app_nil_r. reflexivity.
      * assumption.
    + assert (Hnone : filter P vs = []).
      { apply filter_none. intros p Hp.
        destruct (P p) eqn:EP; [|reflexivity].
        rewrite Hvs in Hp. apply (select_In eqb eqb_eq) in Hp.
        rewrite (HP _ _ Hp EP) in E.
        rewrite (eqb_refl_K eqb eqb_eq) in E. discriminate. }
      destruct (1 <? List.length vs)%nat; simpl.
      * rewrite filter_app, Hnone. simpl. apply IH'.
      * apply IH'.
Qed.

Lemma filter_survivors (P : string -> bool) (k : K) kps :
  (forall k' p, In (k', p) kps -> P p = true -> k' = k) ->
  filter P (survivors eqb kps)
  = if (1 <? List.length (select eqb k kps))%nat
    then filter P (select eqb k kps) else [].
Proof.
  intros HP. unfold survivors. rewrite extend_with_groups_concat.
  destruct (group_by_grouped eqb eqb_eq kps) as (Hnd & Hsel & Hkeys).
  rewrite (filter_kept_groups P k kps HP _ Hnd
             (fun k' vs H => proj1 (Hsel k' vs H))).
  destruct (existsb (fun k' => eqb k' k) (map fst (group_by eqb kps)))
    eqn:Ex; simpl; [reflexivity|].
  destruct (select eqb k kps) as [|p r] eqn:Es; [reflexivity|].
  exfalso.
  assert (Hin : In (k, p) kps)
    by (apply (select_In eqb eqb_eq); rewrite Es; now left).
  apply Hkeys in Hin.
  assert (Ex' : existsb (fun k' => eqb k' k) (map fst (group_by eqb kps))
                = true).
  { apply existsb_exists. exists k. split; [assumption|].
    apply (eqb_refl_K eqb eqb_eq). }
  congruence.
Qed.

(** The group of a key, read off the list of files. *)
Lemma select_as_filter (P : string -> bool) (k : K) kps :
  (forall k' p, In (k', p) kps -> eqb k' k = P p) ->
  select eqb k kps = filter P (map snd kps).
Proof.
  unfold select. induction kps as [|(k', p) kps IH]; simpl; intros H.
  - reflexivity.
  - rewrite (H k' p) by now left.
    destruct (P p); simpl; rewrite IH; auto.
Qed.

Lemma survivors_incl kps p : In p (survivors eqb kps) -> In p (map snd kps).
Proof.
  intros Hp. apply (survivors_In eqb eqb_eq) in Hp as (k & Hin & _).
  apply in_map_iff. exists (k, p). auto.
Qed.

Lemma kept_group_survives g kps :
  In g (filter (fun paths => (1 <? List.length paths)%nat)
          (Dict.values (group_by eqb kps))) ->
  exists k, g = select eqb k kps /\ (2 <= List.length g)%nat
            /\ In (k, g) (group_by eqb kps).
Proof.
  intros Hg. apply filter_In in Hg as (Hg & Hlen).
  apply Nat.ltb_lt in Hlen.
  apply (group_by_values eqb eqb_eq) in Hg as (k & Hd & ->).
  exists k. repeat split; [lia | assumption].
Qed.

End Narrowing.

Lemma sized_In n p kps : In (n, p) (sized kps) <-> In (Some n, p) kps /\ n <> 0.
Proof.
  unfold sized. rewrite in_flat_map. split.
  - intros (([m|], q) & Hin & Hx); simpl in Hx; [|contradiction].
    destruct (m =? 0) eqn:E; [contradiction|].
    destruct Hx as [Hx|[]]. injection Hx as <- <-.
    split; [assumption|]. now apply Z.eqb_neq.
  - intros (Hin & Hne). exists (Some n, p). split; [assumption|]. simpl.
    apply Z.eqb_neq in Hne. rewrite Hne. now left.
Qed.

Lemma sized_subseq kps : subseq (map snd (sized kps)) (map snd kps).
Proof.
  induction kps as [|([n|], p) kps IH]; simpl.
  - constructor.
  - destruct (n =? 0); simpl; [now apply subseq_skip | now apply subseq_keep].
  - now apply subseq_skip.
Qed.

(** A pair of files filed by the size loop is a pair of files whose sizes
    were read. *)
Lemma sized_pair n a b kps :
  subseq [(n, a); (n, b)] (sized kps) ->
  subseq [(Some n, a); (Some n, b)] kps.
Proof.
  revert a b. induction kps as [|([m|], p) kps IH]; simpl; intros a b H.
  - inversion H.
  - destruct (m =? 0); simpl in H; [apply subseq_skip, IH, H|].
    inversion H as [|? ? ? H'|? ? ? H']; subst.
    + apply subseq_skip, IH, H'.
    + apply subseq_keep.
      clear IH H. induction kps as [|([m'|], q) kps IH]; simpl in H'.
      * inversion H'.
      * destruct (m' =? 0); simpl in H'; [apply subseq_skip, IH, H'|].
        inversion H' as [|? ? ? H''|? ? ? H'']; subst.
        -- apply subseq_skip, IH, H''.
        -- apply subseq_keep, subseq_nil_l.
      * apply subseq_skip, IH, H'.
  - apply subseq_skip, IH, H.
Qed.

Lemma sized_pair_inv n a b kps :
  n <> 0 -> subseq [(Some n, a); (Some n, b)] kps ->
  subseq [(n, a); (n, b)] (sized kps).
Proof.
  intros Hn H.
  assert (E : sized [(Some n, a); (Some n, b)] = [(n, a); (n, b)]).
  { unfold sized. simpl. apply Z.eqb_neq in Hn. now rewrite Hn. }
  rewrite <- E. clear E. unfold sized.
  induction H as [|x l1 l2 _ IH|x l1 l2 _ IH]; simpl.
  - constructor.
  - apply subseq_app_r, IH.
  - apply subseq_app; [apply subseq_refl | apply IH].
Qed.

(** ** The full fingerprint *)

(** C6: the full fingerprint [hash_file] returns for a readable file is
    the SHA-1 of its complete content, and reading the content in chunks
    of any positive size gives the same digest as hashing it in one
    pass. *)
Theorem full_fingerprint_chunk_independent
  (w : world) (p : string) (st : state) (f : file) (chunk_size : nat) :
  lookup w (clock st) p = Some f ->
  readable f = true ->
  (0 < chunk_size)%nat ->
  hash_file w p st = (Return (SHA1.sha1 (data f)), tick st)
  /\ SHA1.hexdigest (read_loop chunk_size SHA1.new (data f))
     = SHA1.sha1 (data f)
  /\ SHA1.hexdigest (read_loop 8192 SHA1.new (data f)) = SHA1.sha1 (data f).
Proof.
  intros Hf Hr Hn. repeat split.
  - rewrite hash_file_run. unfold full_hash_at, open_at.
    rewrite Hf, Hr. reflexivity.
  - rewrite (read_loop_update _ _ _ Hn). reflexivity.
  - rewrite (read_loop_update _ _ _ chunk_size_positive). reflexivity.
Qed.

Lemma full_fingerprint_chunk_independent_witness :
  lookup three_files 0 "d/a" = Some (mk_file true hello)
  /\ (0 < 2)%nat
  /\ hash_file three_files "d/a" initial_state
     = (Return (SHA1.sha1 hello), tick initial_state)
  /\ SHA1.hexdigest (read_loop 2 SHA1.new hello) = SHA1.sha1 hello.
Proof.
  split; [reflexivity|]. split; [lia|].
  destruct (full_fingerprint_chunk_independent three_files "d/a"
              initial_state (mk_file true hello) 2 eq_refl eq_refl)
    as (H1 & H2 & _); [lia|].
  split; [exact H1 | exact H2].
Defined.

(** ** Files that become unreadable *)

(** C1: a file deleted after the size probe is not dropped: the SHA-1
    stages open it without a handler, and the [OSError] leaves
    [check_for_duplicates]. The file [d/b] is deleted before the partial
    fingerprints are taken, or before the full ones, or is closed to
    reading from the start. *)
Theorem unreadable_file_aborts_run (lm : libm) :
  check_for_duplicates (vanishing "d/b" 3) lm ["d"%string] initial_state
  = (Raise OSError, mk_state 5 [])
  /\ check_for_duplicates (vanishing "d/b" 5) lm ["d"%string] initial_state
     = (Raise OSError, mk_state 7 [])
  /\ check_for_duplicates locked lm ["d"%string] initial_state
     = (Raise OSError, mk_state 5 []).
Proof. repeat split; vm_compute; reflexivity. Qed.

(** In general: a hash stage raises as soon as it meets a file it cannot
    open, whatever the other files are. *)
Lemma collect_raise {K} (obs : nat -> string -> outcome K) files :
  forall t i p e,
    nth_error files i = Some p ->
    obs (t + i)%nat p = Raise e ->
    (forall j q, (j < i)%nat -> nth_error files j = Some q ->
                 exists k, obs (t + j)%nat q = Return k) ->
    collect obs t files = Raise e.
Proof.
  induction files as [|q files IH]; intros t i p e Hi He Hbefore.
  - destruct i; discriminate.
  - destruct i as [|i]; simpl in *.
    + injection Hi as ->. rewrite Nat.add_0_r in He. now rewrite He.
    + destruct (Hbefore 0%nat q) as (k & Hk); [lia | reflexivity|].
      rewrite Nat.add_0_r in Hk. rewrite Hk. simpl.
      rewrite (IH (S t) i p e); [reflexivity | assumption | |].
      * now rewrite Nat.add_succ_r in He.
      * intros j q' Hj Hq'. destruct (Hbefore (S j) q') as (k' & Hk');
          [lia | assumption|].
        exists k'. now rewrite Nat.add_succ_r in Hk'.
Qed.

Lemma unopenable_file_raises w files st i p :
  nth_error files i = Some p ->
  open_at w (clock st + i) p = Raise OSError ->
  (forall j q, (j < i)%nat -> nth_error files j = Some q ->
               exists c, open_at w (clock st + j) q = Return c) ->
  fst (filter_files_by_first_1k_bytes w files st) = Raise OSError
  /\ fst (group_files_by_full_hash w files st) = Raise OSError.
Proof.
  intros Hi He Hbefore. split.
  - unfold filter_files_by_first_1k_bytes. rewrite bind_run.
    rewrite files_by_first_1k_run.
    rewrite (collect_raise (prefix_hash_at w) files (clock st) i p OSError);
      [reflexivity | assumption | |].
    + unfold prefix_hash_at. now rewrite He.
    + intros j q Hj Hq. destruct (Hbefore j q Hj Hq) as (c & Hc).
      unfold prefix_hash_at. rewrite Hc. eexists. reflexivity.
  - unfold group_files_by_full_hash. rewrite bind_run.
    rewrite files_by_full_hash_run.
    rewrite (collect_raise (full_hash_at w) files (clock st) i p OSError);
      [reflexivity | assumption | |].
    + unfold full_hash_at. now rewrite He.
    + intros j q Hj Hq. destruct (Hbefore j q Hj Hq) as (c & Hc).
      unfold full_hash_at. rewrite Hc. eexists. reflexivity.
Qed.

(** Deleted before the size probe, the file is dropped and the run goes
    on. *)
Example deleted_before_size_probe (lm : libm) :
  check_for_duplicates (vanishing "d/b" 1) lm ["d"%string] initial_state
  = (Return tt, mk_state 3 []).
Proof. vm_compute. reflexivity. Qed.

(** ** Reporting *)

Lemma print_all_run (files : list string) : forall st,
  for_each files (fun _ file => print file) tt st
  = (Return tt, mk_state (clock st) (stdout st ++ files)).
Proof.
  induction files as [|p files IH]; intros st; simpl.
  - unfold ret. rewrite app_nil_r. now destruct st.
  - unfold bind, print. rewrite IH. simpl.
    now rewrite <- app_assoc.
Qed.

Lemma py_index_head {A} (x : A) (xs : list A) : py_index (x :: xs) 0 = Return x.
Proof.
  unfold py_index. cbn [List.length]. rewrite Nat2Z.inj_succ.
  replace (0 <? 0) with false by reflexivity.
  replace (0 <=? 0) with true by reflexivity.
  destruct (Z.ltb_spec 0 (Z.succ (Z.of_nat (List.length xs)))); [|lia].
  reflexivity.
Qed.

(** C10: the size printed for a group is read from the group's first file
    when the group is printed. If the file is gone by then,
    [get_file_size] gives [None], [file_size_string] raises [TypeError]
    and the run stops after the heading of the group: neither its size
    nor its paths nor any later group is printed. *)
Theorem report_rereads_size_of_first_file
  (w : world) (lm : libm) (file0 : string) (files : list string)
  (rest : list (list string)) (st : state) :
  print_duplicates w lm ((file0 :: files) :: rest) st
  = (let heading := stdout st ++ ["Found duplicate files:"%string] in
     match lookup w (clock st) file0 with
     | None => (Raise TypeError, mk_state (S (clock st)) heading)
     | Some f =>
         match file_size_string lm (Some (size_of f)) with
         | Return s =>
             print_duplicates w lm rest
               (mk_state (S (clock st))
                  (heading ++ [("Size:  " ++ s)%string] ++ file0 :: files))
         | Raise e => (Raise e, mk_state (S (clock st)) heading)
         end
     end)
  /\ file_size_string lm None = Raise TypeError
  /\ check_for_duplicates (vanishing "d/a" 7) lm ["d"%string] initial_state
     = (Raise TypeError, mk_state 8 ["Found duplicate files:"%string]).
Proof.
  split; [|split; [reflexivity | vm_compute; reflexivity]].
  unfold print_duplicates. rewrite for_each_cons.
  rewrite !bind_run, print_run. cbv iota beta.
  rewrite !bind_run, lift_run, py_index_head. cbv iota beta.
  rewrite !bind_run, get_file_size_run. unfold size_at.
  cbn [clock stdout tick].
  destruct (lookup w (clock st) file0) as [f|]; cbv iota beta.
  - rewrite !bind_run, lift_run.
    destruct (file_size_string lm (Some (size_of f))) as [s|e];
      cbv iota beta; [|reflexivity].
    rewrite !bind_run, print_run. cbv iota beta.
    rewrite print_all_run. cbn [clock stdout tick String.append].
    rewrite <- !app_assoc. reflexivity.
  - rewrite !bind_run, lift_run. reflexivity.
Qed.

(** ** The three stages in a row *)

Lemma candidate_reducer_inv w files st groups st' :
  candidate_reducer w files st = (Return groups, st') ->
  exists kps1 kps2 kps3,
    collect (size_at w) (clock st) files = Return kps1
    /\ collect (prefix_hash_at w) (clock st + List.length files)
         (survivors Z.eqb (sized kps1)) = Return kps2
    /\ collect (full_hash_at w)
         (clock st + List.length files
          + List.length (survivors Z.eqb (sized kps1)))
         (survivors String.eqb kps2) = Return kps3
    /\ groups = filter (fun paths => (1 <? List.length paths)%nat)
                  (Dict.values (group_by String.eqb kps3)).
Proof.
  unfold candidate_reducer. rewrite bind_run.
  destruct (collect_size_total w files (clock st)) as (kps1 & Hc1).
  rewrite (filter_files_by_size_run _ _ _ _ Hc1). rewrite bind_run.
  destruct (filter_files_by_first_1k_bytes w (survivors Z.eqb (sized kps1))
              (advance (List.length files) st)) as ([out2|e] & st2) eqn:H2;
    [|discriminate].
  apply filter_files_by_first_1k_bytes_inv in H2 as (kps2 & Hc2 & -> & ->).
  intros H3.
  apply group_files_by_full_hash_inv in H3 as (kps3 & Hc3 & -> & ->).
  exists kps1, kps2, kps3. cbn [advance clock] in *. auto.
Qed.

(** The run goes through when the three loops can take their keys. *)
Lemma candidate_reducer_run w files st kps1 kps2 kps3 :
  collect (size_at w) (clock st) files = Return kps1 ->
  collect (prefix_hash_at w) (clock st + List.length files)
    (survivors Z.eqb (sized kps1)) = Return kps2 ->
  collect (full_hash_at w)
    (clock st + List.length files
     + List.length (survivors Z.eqb (sized kps1)))
    (survivors String.eqb kps2) = Return kps3 ->
  fst (candidate_reducer w files st)
  = Return (filter (fun paths => (1 <? List.length paths)%nat)
              (Dict.values (group_by String.eqb kps3))).
Proof.
  intros Hc1 Hc2 Hc3. unfold candidate_reducer. rewrite bind_run.
  rewrite (filter_files_by_size_run _ _ _ _ Hc1). rewrite bind_run.
  rewrite (filter_files_by_first_1k_bytes_run _ _ _ kps2) by exact Hc2.
  rewrite (group_files_by_full_hash_run _ _ _ kps3) by exact Hc3.
  reflexivity.
Qed.

(** Every reported file went through the three stages. *)
Lemma reported_in_stages g p kps1 kps2 kps3 t2 t3 files t1 w :
  collect (size_at w) t1 files = Return kps1 ->
  collect (prefix_hash_at w) t2 (survivors Z.eqb (sized kps1)) = Return kps2 ->
  collect (full_hash_at w) t3 (survivors String.eqb kps2) = Return kps3 ->
  In g (filter (fun paths => (1 <? List.length paths)%nat)
          (Dict.values (group_by String.eqb kps3))) ->
  In p g ->
  In p (survivors String.eqb kps2)
  /\ In p (survivors Z.eqb (sized kps1))
  /\ In p files.
Proof.
  intros Hc1 Hc2 Hc3 Hg Hp.
  apply (kept_group_survives String.eqb String.eqb_eq) in Hg
    as (h & -> & _ & _).
  apply (select_In String.eqb String.eqb_eq) in Hp.
  assert (H2 : In p (survivors String.eqb kps2)).
  { rewrite <- (collect_map_snd _ _ _ _ Hc3). apply in_map_iff.
    exists (h, p). auto. }
  assert (H1 : In p (survivors Z.eqb (sized kps1))).
  { rewrite <- (collect_map_snd _ _ _ _ Hc2).
    apply (survivors_incl String.eqb String.eqb_eq _ _ H2). }
  repeat split; [assumption | assumption|].
  rewrite <- (collect_map_snd _ _ _ _ Hc1).
  apply (subseq_In _ _ _ (sized_subseq kps1)).
  apply (survivors_incl Z.eqb Z.eqb_eq _ _ H1).
Qed.

(** ** Empty files *)

(** C7: a file whose size reads 0 is never filed by the size loop (a size
    of 0 is falsy), so it is in no group of the size stage, is not handed
    to the next stage, and is in no reported group: two empty files are
    never reported as duplicates. *)
Theorem empty_files_never_reported
  (w : world) (files : list string) (st : state) (p : string) :
  (forall t, size_at w t p = Return (Some 0)) ->
  (forall d st1, files_by_size w files st = (Return d, st1) ->
                 forall k vs, In (k, vs) d -> ~ In p vs)
  /\ (forall out st1, filter_files_by_size w files st = (Return out, st1) ->
                      ~ In p out)
  /\ (forall groups st', candidate_reducer w files st = (Return groups, st') ->
                         forall g, In g groups -> ~ In p g).
Proof.
  intros Hzero.
  assert (Hsized : forall t kps n, collect (size_at w) t files = Return kps ->
                                   ~ In (n, p) (sized kps)).
  { intros t kps n Hc Hin. apply sized_In in Hin as (Hin & Hne).
    destruct (collect_In _ _ _ _ _ _ Hc Hin) as (_ & t' & _ & Ht').
    rewrite Hzero in Ht'. injection Ht' as Ht'. auto. }
  destruct (collect_size_total w files (clock st)) as (kps1 & Hc1).
  repeat split.
  - intros d st1 Hd k vs Hin Hp.
    rewrite (files_by_size_run _ _ _ _ Hc1) in Hd. injection Hd as <- _.
    apply (group_by_select Z.eqb Z.eqb_eq) in Hin as (-> & _).
    apply (select_In Z.eqb Z.eqb_eq) in Hp.
    apply (Hsized _ _ _ Hc1 Hp).
  - intros out st1 Hout Hp.
    rewrite (filter_files_by_size_run _ _ _ _ Hc1) in Hout.
    injection Hout as <- _.
    apply (survivors_In Z.eqb Z.eqb_eq) in Hp as (k & Hin & _).
    apply (Hsized _ _ _ Hc1 Hin).
  - intros groups st' Hrun g Hg Hp.
    apply candidate_reducer_inv in Hrun
      as (kps1' & kps2 & kps3 & Hc1' & Hc2 & Hc3 & ->).
    destruct (reported_in_stages _ _ _ _ _ _ _ _ _ _ Hc1' Hc2 Hc3 Hg Hp)
      as (_ & H1 & _).
    apply (survivors_In Z.eqb Z.eqb_eq) in H1 as (k & Hin & _).
    apply (Hsized _ _ _ Hc1' Hin).
Qed.

Lemma empty_files_never_reported_witness :
  (forall t, size_at empties t "e/a" = Return (Some 0))
  /\ candidate_reducer empties ["e/a"; "e/b"]%string initial_state
     = (Return [], mk_state 2 [])
  /\ (forall g, In g (@nil (list string)) -> ~ In "e/a"%string g).
Proof.
  split; [intros t; reflexivity|]. split; [vm_compute; reflexivity|].
  destruct (empty_files_never_reported empties ["e/a"; "e/b"]%string
              initial_state "e/a"%string (fun t => eq_refl))
    as (_ & _ & H).
  apply (H [] (mk_state 2 [])). vm_compute. reflexivity.
Defined.

(** ** Files with the same content *)

Lemma size_at_constant w t p f :
  (forall t, lookup w t p = Some f) ->
  size_at w t p = Return (Some (size_of f)).
Proof. intros H. unfold size_at. now rewrite H. Qed.

Lemma prefix_hash_at_constant w t p c :
  (forall t, lookup w t p = Some (mk_file true c)) ->
  prefix_hash_at w t p = Return (SHA1.sha1 (firstn 1024 c)).
Proof. intros H. unfold prefix_hash_at, open_at. now rewrite H. Qed.

Lemma full_hash_at_constant w t p c :
  (forall t, lookup w t p = Some (mk_file true c)) ->
  full_hash_at w t p = Return (SHA1.sha1 c).
Proof. intros H. unfold full_hash_at, open_at. now rewrite H. Qed.

Lemma size_of_nonempty c : c <> [] -> size_of (mk_file true c) <> 0.
Proof. unfold size_of. destruct c; [congruence | simpl; lia]. Qed.

(** The run always returns when the listed files stay readable. *)
Lemma candidate_reducer_total w files st :
  (forall p t, In p files ->
               exists f, lookup w t p = Some f /\ readable f = true) ->
  exists groups st', candidate_reducer w files st = (Return groups, st').
Proof.
  intros Hall.
  destruct (collect_size_total w files (clock st)) as (kps1 & Hc1).
  assert (Hin1 : forall p, In p (survivors Z.eqb (sized kps1)) -> In p files).
  { intros p Hp. rewrite <- (collect_map_snd _ _ _ _ Hc1).
    apply (subseq_In _ _ _ (sized_subseq kps1)).
    apply (survivors_incl Z.eqb Z.eqb_eq _ _ Hp). }
  destruct (collect_total (prefix_hash_at w) (survivors Z.eqb (sized kps1))
              (clock st + List.length files)) as (kps2 & Hc2).
  { intros i p Hi. apply nth_error_In, Hin1 in Hi.
    destruct (Hall p (clock st + List.length files + i)%nat Hi)
      as (f & Hf & Hr).
    unfold prefix_hash_at, open_at. rewrite Hf, Hr. eexists. reflexivity. }
  destruct (collect_total (full_hash_at w) (survivors String.eqb kps2)
              (clock st + List.length files
               + List.length (survivors Z.eqb (sized kps1))))
    as (kps3 & Hc3).
  { intros i p Hi. apply nth_error_In in Hi.
    apply (survivors_incl String.eqb String.eqb_eq) in Hi.
    rewrite (collect_map_snd _ _ _ _ Hc2) in Hi. apply Hin1 in Hi.
    destruct (Hall p (clock st + List.length files
                      + List.length (survivors Z.eqb (sized kps1)) + i)%nat Hi)
      as (f & Hf & Hr).
    unfold full_hash_at, open_at. rewrite Hf, Hr. eexists. reflexivity. }
  pose proof (candidate_reducer_run _ _ _ _ _ _ Hc1 Hc2 Hc3) as Hrun.
  destruct (candidate_reducer w files st) as (r & st').
  simpl in Hrun. subst r. eexists. eexists. reflexivity.
Qed.

(** Two files with one non-empty content, the first listed before the
    second, are reported in one group, in that order. *)
Lemma identical_pair_grouped w files st groups st' a b c :
  subseq [a; b] files ->
  (forall t, lookup w t a = Some (mk_file true c)) ->
  (forall t, lookup w t b = Some (mk_file true c)) ->
  c <> [] ->
  candidate_reducer w files st = (Return groups, st') ->
  exists g, In g groups /\ subseq [a; b] g.
Proof.
  intros Hs Ha Hb Hc Hrun.
  apply candidate_reducer_inv in Hrun
    as (kps1 & kps2 & kps3 & Hc1 & Hc2 & Hc3 & ->).
  (* the size stage *)
  destruct (collect_pair _ _ _ _ _ _ Hc1 Hs)
    as (ka & kb & ta & tb & Hs1 & Hka & Hkb).
  rewrite (size_at_constant _ _ _ _ Ha) in Hka.
  rewrite (size_at_constant _ _ _ _ Hb) in Hkb.
  injection Hka as <-. injection Hkb as <-.
  apply (sized_pair_inv _ _ _ _ (size_of_nonempty c Hc)) in Hs1.
  apply (pair_survives Z.eqb Z.eqb_eq) in Hs1.
  (* the partial fingerprints *)
  destruct (collect_pair _ _ _ _ _ _ Hc2 Hs1)
    as (ka & kb & ta' & tb' & Hs2 & Hka & Hkb).
  rewrite (prefix_hash_at_constant _ _ _ _ Ha) in Hka.
  rewrite (prefix_hash_at_constant _ _ _ _ Hb) in Hkb.
  injection Hka as <-. injection Hkb as <-.
  apply (pair_survives String.eqb String.eqb_eq) in Hs2.
  (* the full fingerprints *)
  destruct (collect_pair _ _ _ _ _ _ Hc3 Hs2)
    as (ka & kb & ta'' & tb'' & Hs3 & Hka & Hkb).
  rewrite (full_hash_at_constant _ _ _ _ Ha) in Hka.
  rewrite (full_hash_at_constant _ _ _ _ Hb) in Hkb.
  injection Hka as <-. injection Hkb as <-.
  destruct (pair_grouped String.eqb String.eqb_eq _ _ _ _ Hs3) as (Hd & Hab).
  exists (select String.eqb (SHA1.sha1 c) kps3). split; [|assumption].
  apply filter_In. split.
  - unfold Dict.values. apply in_map_iff.
    exists (SHA1.sha1 c, select String.eqb (SHA1.sha1 c) kps3). auto.
  - apply Nat.ltb_lt. pose proof (subseq_pair_length _ _ _ Hab). lia.
Qed.

(** C2, as stated, fails on two empty files: both are readable and
    identical, the run returns, and it reports no group. *)
Lemma identical_empty_files_not_grouped :
  ~ (forall (w : world) (files : list string) (st : state)
            (groups : list (list string)) (st' : state)
            (i j : nat) (a b : string) (c : bytes),
        i <> j ->
        nth_error files i = Some a -> nth_error files j = Some b ->
        (forall t, lookup w t a = Some (mk_file true c)) ->
        (forall t, lookup w t b = Some (mk_file true c)) ->
        candidate_reducer w files st = (Return groups, st') ->
        exists g, In g groups /\ In a g /\ In b g).
Proof.
  intros H.
  destruct (H empties ["e/a"; "e/b"]%string initial_state [] (mk_state 2 [])
              0%nat 1%nat "e/a"%string "e/b"%string [])
    as (g & [] & _); try reflexivity.
  discriminate.
Qed.

(** C2, amended: two files at different places of the enumerated list
    whose content is the same non-empty byte sequence throughout the run
    are in one reported group, whenever the run returns its groups; and
    it does return them when every listed file stays readable. *)
Theorem identical_nonempty_files_grouped
  (w : world) (files : list string) (st : state)
  (i j : nat) (a b : string) (c : bytes) :
  i <> j ->
  nth_error files i = Some a -> nth_error files j = Some b ->
  (forall t, lookup w t a = Some (mk_file true c)) ->
  (forall t, lookup w t b = Some (mk_file true c)) ->
  c <> [] ->
  (forall groups st',
      candidate_reducer w files st = (Return groups, st') ->
      exists g, In g groups /\ In a g /\ In b g)
  /\ ((forall p t, In p files ->
                   exists f, lookup w t p = Some f /\ readable f = true) ->
      exists groups st', candidate_reducer w files st = (Return groups, st')).
Proof.
  intros Hij Hi Hj Ha Hb Hc. split; [|apply candidate_reducer_total].
  intros groups st' Hrun.
  destruct (Nat.lt_total i j) as [Hlt|[Heq|Hgt]]; [| contradiction |].
  - destruct (identical_pair_grouped w files st groups st' a b c)
      as (g & Hg & Hs); auto.
    { apply (nth_pair_subseq _ _ _ _ _ Hlt Hi Hj). }
    exists g. repeat split; [assumption| |];
      apply (subseq_In _ _ _ Hs); simpl; auto.
  - destruct (identical_pair_grouped w files st groups st' b a c)
      as (g & Hg & Hs); auto.
    { apply (nth_pair_subseq _ _ _ _ _ Hgt Hj Hi). }
    exists g. repeat split; [assumption| |];
      apply (subseq_In _ _ _ Hs); simpl; auto.
Qed.

Lemma identical_nonempty_files_grouped_witness :
  candidate_reducer three_files ["d/a"; "d/b"; "d/c"]%string initial_state
  = (Return [["d/a"; "d/b"]%string], mk_state 8 [])
  /\ exists g, In g [["d/a"; "d/b"]%string]
               /\ In "d/a"%string g /\ In "d/b"%string g.
Proof.
  split; [vm_compute; reflexivity|].
  destruct (identical_nonempty_files_grouped three_files
              ["d/a"; "d/b"; "d/c"]%string initial_state
              0%nat 1%nat "d/a"%string "d/b"%string hello) as (H & _).
  - lia.
  - reflexivity.
  - reflexivity.
  - intros t. reflexivity.
  - intros t. reflexivity.
  - discriminate.
  - apply (H _ (mk_state 8 [])). vm_compute. reflexivity.
Defined.

(** ** Files of different sizes *)

Lemma files_by_first_1k_inv w files st d st' :
  files_by_first_1k w files st = (Return d, st') ->
  exists kps, collect (prefix_hash_at w) (clock st) files = Return kps
              /\ d = group_by String.eqb kps.
Proof.
  rewrite files_by_first_1k_run.
  destruct (collect (prefix_hash_at w) (clock st) files) as [kps|e];
    [|discriminate].
  intros H. injection H as <- _. exists kps. auto.
Qed.

Lemma files_by_full_hash_inv w files st d st' :
  files_by_full_hash w files st = (Return d, st') ->
  exists kps, collect (full_hash_at w) (clock st) files = Return kps
              /\ d = group_by String.eqb kps.
Proof.
  rewrite files_by_full_hash_run.
  destruct (collect (full_hash_at w) (clock st) files) as [kps|e];
    [|discriminate].
  intros H. injection H as <- _. exists kps. auto.
Qed.

(** The key under which a file of a group was filed was observed on it. *)
Lemma group_member_key {K} (eqb : K -> K -> bool)
  (eqb_eq : forall x y, eqb x y = true <-> x = y)
  (obs : nat -> string -> outcome K) files t kps k vs p :
  collect obs t files = Return kps ->
  In (k, vs) (group_by eqb kps) -> In p vs ->
  exists t', obs t' p = Return k.
Proof.
  intros Hc Hd Hp. apply (group_by_select eqb eqb_eq) in Hd as (-> & _).
  apply (select_In eqb eqb_eq) in Hp.
  destruct (collect_In _ _ _ _ _ _ Hc Hp) as (_ & t' & _ & Ht').
  exists t'. assumption.
Qed.

Lemma prefix_hash_at_file w t p f h :
  lookup w t p = Some f -> prefix_hash_at w t p = Return h ->
  h = SHA1.sha1 (firstn 1024 (data f)).
Proof.
  unfold prefix_hash_at, open_at. intros ->.
  destruct (readable f); simpl; [|discriminate]. now intros [= <-].
Qed.

Lemma full_hash_at_file w t p f h :
  lookup w t p = Some f -> full_hash_at w t p = Return h ->
  h = SHA1.sha1 (data f) /\ readable f = true.
Proof.
  unfold full_hash_at, open_at. intros ->.
  destruct (readable f); simpl; [|discriminate]. now intros [= <-].
Qed.

(** C3, as stated, fails at the partial-fingerprint stage: [s/a1] (1025
    bytes) and [s/b1] (1026 bytes) both survive the size stage, start
    with the same 1024 bytes, and are filed in one group. *)
Lemma different_sizes_share_partial_group :
  ~ (forall (w : world) (files : list string) (st : state)
            (out1 : list string) (st1 : state)
            (d : Dict.t (K := string)) (st2 : state)
            (h : string) (vs : list string) (a b : string) (fa fb : file),
        filter_files_by_size w files st = (Return out1, st1) ->
        files_by_first_1k w out1 st1 = (Return d, st2) ->
        In (h, vs) d -> In a vs -> In b vs ->
        (forall t, lookup w t a = Some fa) ->
        (forall t, lookup w t b = Some fb) ->
        size_of fa = size_of fb).
Proof.
  intros H.
  specialize (H same_prefix ["s/a1"; "s/b1"; "s/a2"; "s/b2"]%string
                initial_state ["s/a1"; "s/a2"; "s/b1"; "s/b2"]%string
                (mk_state 4 [])
                [(SHA1.sha1 long_prefix,
                  ["s/a1"; "s/a2"; "s/b1"; "s/b2"]%string)]
                (mk_state 8 [])
                (SHA1.sha1 long_prefix)
                ["s/a1"; "s/a2"; "s/b1"; "s/b2"]%string
                "s/a1"%string "s/b1"%string
                (mk_file true (long_prefix ++ [x62]))
                (mk_file true (long_prefix ++ [x62; x63]))).
  assert (E : size_of (mk_file true (long_prefix ++ [x62]))
              = size_of (mk_file true (long_prefix ++ [x62; x63]))).
  { apply H.
    - vm_compute. reflexivity.
    - vm_compute. reflexivity.
    - now left.
    - now left.
    - right. right. now left.
    - intros t. reflexivity.
    - intros t. reflexivity. }
  vm_compute in E. discriminate.
Qed.

(** Two files of the input of a stage on which the stage read the same key
    are filed in one group. *)
Lemma same_key_same_group {K} (eqb : K -> K -> bool)
  (eqb_eq : forall x y, eqb x y = true <-> x = y)
  (obs : nat -> string -> outcome K) files t kps (key : K) a b :
  collect obs t files = Return kps ->
  In a files -> In b files ->
  (forall t' k, obs t' a = Return k -> k = key) ->
  (forall t' k, obs t' b = Return k -> k = key) ->
  exists vs, In (key, vs) (group_by eqb kps) /\ In a vs /\ In b vs.
Proof.
  intros Hc Hina Hinb Hka Hkb.
  assert (Hkeyed : forall p, In p files ->
                     (forall t' k, obs t' p = Return k -> k = key) ->
                     In (key, p) kps).
  { intros p Hp Hk. rewrite <- (collect_map_snd _ _ _ _ Hc) in Hp.
    apply in_map_iff in Hp as ((k, q) & Hq & Hin). simpl in Hq. subst q.
    destruct (collect_In _ _ _ _ _ _ Hc Hin) as (_ & t' & _ & Ht').
    now rewrite <- (Hk t' k Ht'). }
  pose proof (Hkeyed a Hina Hka) as Ha.
  pose proof (Hkeyed b Hinb Hkb) as Hb.
  exists (select eqb key kps). split; [|split].
  - apply (group_by_has eqb eqb_eq _ _ _ Ha).
  - now apply (select_In eqb eqb_eq).
  - now apply (select_In eqb eqb_eq).
Qed.

(** C3, amended: two files of different sizes are never in one group of
    the size stage. The partial-fingerprint stage files by the SHA-1 of
    the first 1024 bytes alone: in a run of the stage that returns its
    dictionary and has the two files in its input, they share a group
    exactly when those digests agree. The full-fingerprint stage files by
    the SHA-1 of the content alone: in a run of the stage that returns
    and has the two files in its input, they share a group exactly when
    their different contents have the same digest, and two files of one
    reported group have contents with the same digest. *)
Theorem different_sizes_grouping
  (w : world) (files : list string) (st : state) (a b : string)
  (fa fb : file) :
  (forall t, lookup w t a = Some fa) ->
  (forall t, lookup w t b = Some fb) ->
  size_of fa <> size_of fb ->
  (forall d st1 k vs,
      files_by_size w files st = (Return d, st1) ->
      In (k, vs) d -> ~ (In a vs /\ In b vs))
  /\ (forall d st1 h vs,
         files_by_first_1k w files st = (Return d, st1) ->
         In (h, vs) d -> In a vs -> In b vs ->
         SHA1.sha1 (firstn 1024 (data fa)) = SHA1.sha1 (firstn 1024 (data fb)))
  /\ (forall d st1 h vs,
         files_by_full_hash w files st = (Return d, st1) ->
         In (h, vs) d -> In a vs -> In b vs ->
         SHA1.sha1 (data fa) = SHA1.sha1 (data fb) /\ data fa <> data fb)
  /\ (forall groups st' g,
         candidate_reducer w files st = (Return groups, st') ->
         In g groups -> In a g -> In b g ->
         SHA1.sha1 (data fa) = SHA1.sha1 (data fb) /\ data fa <> data fb)
  /\ (forall d st1,
         files_by_first_1k w files st = (Return d, st1) ->
         In a files -> In b files ->
         ((exists h vs, In (h, vs) d /\ In a vs /\ In b vs) <->
          SHA1.sha1 (firstn 1024 (data fa))
          = SHA1.sha1 (firstn 1024 (data fb))))
  /\ (forall d st1,
         files_by_full_hash w files st = (Return d, st1) ->
         In a files -> In b files ->
         ((exists h vs, In (h, vs) d /\ In a vs /\ In b vs) <->
          SHA1.sha1 (data fa) = SHA1.sha1 (data fb))).
Proof.
  intros Ha Hb Hne.
  assert (Hdata : data fa <> data fb).
  { intros E. apply Hne. unfold size_of. now rewrite E. }
  assert (Hfull : forall files' t kps h vs,
             collect (full_hash_at w) t files' = Return kps ->
             In (h, vs) (group_by String.eqb kps) -> In a vs -> In b vs ->
             SHA1.sha1 (data fa) = SHA1.sha1 (data fb)).
  { intros files' t kps h vs Hc Hin Hina Hinb.
    destruct (group_member_key _ String.eqb_eq _ _ _ _ _ _ _ Hc Hin Hina)
      as (ta & Hta).
    destruct (group_member_key _ String.eqb_eq _ _ _ _ _ _ _ Hc Hin Hinb)
      as (tb & Htb).
    apply (full_hash_at_file _ _ _ _ _ (Ha ta)) in Hta as (Hta & _).
    apply (full_hash_at_file _ _ _ _ _ (Hb tb)) in Htb as (Htb & _).
    congruence. }
  split; [|split; [|split; [|split; [|split]]]].
  - intros d st1 k vs Hd Hin (Hina & Hinb).
    destruct (collect_size_total w files (clock st)) as (kps & Hc).
    rewrite (files_by_size_run _ _ _ _ Hc) in Hd. injection Hd as <- _.
    apply (group_by_select Z.eqb Z.eqb_eq) in Hin as (-> & _).
    apply (select_In Z.eqb Z.eqb_eq) in Hina, Hinb.
    apply sized_In in Hina as (Hina & _). apply sized_In in Hinb as (Hinb & _).
    destruct (collect_In _ _ _ _ _ _ Hc Hina) as (_ & ta & _ & Hta).
    destruct (collect_In _ _ _ _ _ _ Hc Hinb) as (_ & tb & _ & Htb).
    rewrite (size_at_constant _ _ _ _ Ha) in Hta.
    rewrite (size_at_constant _ _ _ _ Hb) in Htb.
    congruence.
  - intros d st1 h vs Hd Hin Hina Hinb.
    apply files_by_first_1k_inv in Hd as (kps & Hc & ->).
    destruct (group_member_key _ String.eqb_eq _ _ _ _ _ _ _ Hc Hin Hina)
      as (ta & Hta).
    destruct (group_member_key _ String.eqb_eq _ _ _ _ _ _ _ Hc Hin Hinb)
      as (tb & Htb).
    apply (prefix_hash_at_file _ _ _ _ _ (Ha ta)) in Hta.
    apply (prefix_hash_at_file _ _ _ _ _ (Hb tb)) in Htb.
    congruence.
  - intros d st1 h vs Hd Hin Hina Hinb.
    apply files_by_full_hash_inv in Hd as (kps & Hc & ->).
    split; [|assumption]. apply (Hfull _ _ _ _ _ Hc Hin Hina Hinb).
  - intros groups st' g Hrun Hg Hina Hinb.
    apply candidate_reducer_inv in Hrun
      as (kps1 & kps2 & kps3 & Hc1 & Hc2 & Hc3 & ->).
    apply (kept_group_survives String.eqb String.eqb_eq) in Hg
      as (h & -> & _ & Hd).
    split; [|assumption]. apply (Hfull _ _ _ _ _ Hc3 Hd Hina Hinb).
  - intros d st1 Hd Hina Hinb.
    apply files_by_first_1k_inv in Hd as (kps & Hc & ->). split.
    + intros (h & vs & Hin & Hva & Hvb).
      destruct (group_member_key _ String.eqb_eq _ _ _ _ _ _ _ Hc Hin Hva)
        as (ta & Hta).
      destruct (group_member_key _ String.eqb_eq _ _ _ _ _ _ _ Hc Hin Hvb)
        as (tb & Htb).
      apply (prefix_hash_at_file _ _ _ _ _ (Ha ta)) in Hta.
      apply (prefix_hash_at_file _ _ _ _ _ (Hb tb)) in Htb.
      congruence.
    + intros Hsame.
      destruct (same_key_same_group String.eqb String.eqb_eq
                  (prefix_hash_at w) files (clock st) kps
                  (SHA1.sha1 (firstn 1024 (data fa))) a b Hc Hina Hinb)
        as (vs & Hin & Hva & Hvb).
      * intros t' k Hk. apply (prefix_hash_at_file _ _ _ _ _ (Ha t') Hk).
      * intros t' k Hk. rewrite Hsame.
        apply (prefix_hash_at_file _ _ _ _ _ (Hb t') Hk).
      * exists (SHA1.sha1 (firstn 1024 (data fa))), vs. auto.
  - intros d st1 Hd Hina Hinb.
    apply files_by_full_hash_inv in Hd as (kps & Hc & ->). split.
    + intros (h & vs & Hin & Hva & Hvb).
      apply (Hfull _ _ _ _ _ Hc Hin Hva Hvb).
    + intros Hsame.
      destruct (same_key_same_group String.eqb String.eqb_eq
                  (full_hash_at w) files (clock st) kps
                  (SHA1.sha1 (data fa)) a b Hc Hina Hinb)
        as (vs & Hin & Hva & Hvb).
      * intros t' k Hk.
        apply (full_hash_at_file _ _ _ _ _ (Ha t') Hk).
      * intros t' k Hk. rewrite Hsame.
        apply (full_hash_at_file _ _ _ _ _ (Hb t') Hk).
      * exists (SHA1.sha1 (data fa)), vs. auto.
Qed.

Lemma different_sizes_grouping_witness :
  size_of (mk_file true (long_prefix ++ [x62]))
  <> size_of (mk_file true (long_prefix ++ [x62; x63]))
  /\ files_by_size same_prefix ["s/a1"; "s/b1"; "s/a2"; "s/b2"]%string
       initial_state
     = (Return [(1025, ["s/a1"; "s/a2"]%string);
                (1026, ["s/b1"; "s/b2"]%string)], mk_state 4 [])
  /\ ~ (In "s/a1"%string ["s/a1"; "s/a2"]%string
        /\ In "s/b1"%string ["s/a1"; "s/a2"]%string).
Proof.
  assert (Hne : size_of (mk_file true (long_prefix ++ [x62]))
                <> size_of (mk_file true (long_prefix ++ [x62; x63])))
    by (vm_compute; discriminate).
  split; [exact Hne|]. split; [vm_compute; reflexivity|].
  destruct (different_sizes_grouping same_prefix
              ["s/a1"; "s/b1"; "s/a2"; "s/b2"]%string initial_state
              "s/a1"%string "s/b1"%string
              (mk_file true (long_prefix ++ [x62]))
              (mk_file true (long_prefix ++ [x62; x63]))
              (fun t => eq_refl) (fun t => eq_refl) Hne) as (H & _).
  apply (H [(1025, ["s/a1"; "s/a2"]%string); (1026, ["s/b1"; "s/b2"]%string)]
           (mk_state 4 []) 1025).
  - vm_compute. reflexivity.
  - now left.
Defined.

(** ** The pipeline only narrows *)

Lemma pair_positions {K} (obs : nat -> string -> outcome K) files t kps
  k p q :
  collect obs t files = Return kps ->
  subseq [(k, p); (k, q)] kps \/ subseq [(k, q); (k, p)] kps ->
  exists i j,
    i <> j
    /\ nth_error files i = Some p /\ nth_error files j = Some q
    /\ obs (t + i)%nat p = Return k /\ obs (t + j)%nat q = Return k.
Proof.
  intros Hc [Hs|Hs]; apply subseq_pair_nth in Hs as (i & j & Hij & Hi & Hj);
    destruct (collect_nth _ _ _ _ _ _ _ Hc Hi) as (Hfi & Hoi);
    destruct (collect_nth _ _ _ _ _ _ _ Hc Hj) as (Hfj & Hoj).
  - exists i, j. repeat split; auto. lia.
  - exists j, i. repeat split; auto. lia.
Qed.





(** A directory where [a] and [b] hold "hello" and [c] holds "world": one
    group is reported, and [c] is dropped as soon as the first 1024 bytes
    are compared. *)
Example three_files_run :
  filter_files_by_size three_files ["d/a"; "d/b"; "d/c"]%string initial_state
  = (Return ["d/a"; "d/b"; "d/c"]%string, mk_state 3 [])
  /\ filter_files_by_first_1k_bytes three_files ["d/a"; "d/b"; "d/c"]%string
       (mk_state 3 [])
     = (Return ["d/a"; "d/b"]%string, mk_state 6 [])
  /\ group_files_by_full_hash three_files ["d/a"; "d/b"]%string
       (mk_state 6 [])
     = (Return [["d/a"; "d/b"]%string], mk_state 8 []).
Proof. repeat split; vm_compute; reflexivity. Qed.

(** ** Enumeration and repeated paths *)

Lemma append_names_run (f : string -> string) (names : list string) :
  forall (acc : list string) st,
    for_each names (fun files name => ret (files ++ [f name])) acc st
    = (Return (acc ++ map f names), st).
Proof.
  induction names as [|n names IH]; intros acc st; simpl.
  - unfold ret. now rewrite app_nil_r.
  - rewrite bind_run. unfold ret at 1. rewrite IH.
    now rewrite <- app_assoc.
Qed.

Lemma list_files_run w path st :
  list_files w path st = (Return (listing_at w (clock st) path), tick st).
Proof.
  unfold list_files, listing_at. rewrite bind_run. unfold walk.
  generalize (os_walk w (clock st) path) as entries.
  generalize (tick st) as st1.
  enough (H : forall entries st1 acc,
             for_each entries
               (fun files '(root, _, filenames) =>
                  for_each filenames
                    (fun files name => ret (files ++ [os_path_join root name]))
                    files) acc st1
             = (Return
                  (acc ++ flat_map
                     (fun entry : walk_entry =>
                        let '(root, _, filenames) := entry in
                        map (os_path_join root) filenames) entries), st1))
    by (intros st1 entries; apply (H entries st1 [])).
  induction entries as [|((root, dirs), names) entries IH];
    intros st1 acc; simpl.
  - unfold ret. now rewrite app_nil_r.
  - rewrite bind_run, append_names_run, IH. now rewrite <- app_assoc.
Qed.

Lemma enumerate_run w paths st :
  enumerate w paths st
  = (Return (concat (listings w (clock st) paths)),
     advance (List.length paths) st).
Proof.
  unfold enumerate.
  enough (H : forall paths st acc,
             for_each paths
               (fun files path => l <- list_files w path ;; ret (files ++ l))
               acc st
             = (Return (acc ++ concat (listings w (clock st) paths)),
                advance (List.length paths) st))
    by apply (H paths st []).
  clear. induction paths as [|path paths IH]; intros st acc; simpl.
  - unfold ret. now rewrite app_nil_r, advance_0.
  - rewrite !bind_run, list_files_run. unfold ret at 1. rewrite IH.
    cbn [clock tick]. now rewrite advance_tick, <- app_assoc.
Qed.

Lemma count_occ_filter (l : list string) (p : string) :
  count_occ string_dec l p = List.length (filter (String.eqb p) l).
Proof.
  induction l as [|q l IH]; simpl; [reflexivity|].
  destruct (string_dec q p) as [->|Hne].
  - rewrite String.eqb_refl. simpl. now rewrite IH.
  - destruct (String.eqb_spec p q) as [->|_]; [contradiction | assumption].
Qed.

Section KeepsAll.
Context {K : Type} (eqb : K -> K -> bool).
Hypothesis eqb_eq : forall x y, eqb x y = true <-> x = y.

Lemma filter_select (P : string -> bool) (k : K) kps :
  (forall k' q, In (k', q) kps -> P q = true -> k' = k) ->
  filter P (select eqb k kps) = filter P (map snd kps).
Proof.
  unfold select. induction kps as [|(k', q) kps IH]; simpl; intros H.
  - reflexivity.
  - assert (IH' : filter P (map snd (filter (fun kp => eqb (fst kp) k) kps))
                  = filter P (map snd kps))
      by (apply IH; intros k0 q0 Hin; apply H; now right).
    destruct (P q) eqn:EP.
    + rewrite (H k' q (or_introl eq_refl) EP).
      rewrite (eqb_refl_K eqb eqb_eq). simpl. rewrite EP. now f_equal.
    + destruct (eqb k' k); simpl; [rewrite EP|]; assumption.
Qed.

(** A path listed twice or more whose key is [k] at each of its places is
    kept by the stage as often as it is listed, all in the group of [k]. *)
Lemma repeated_path_kept (k : K) (p : string) kps :
  (forall k', In (k', p) kps -> k' = k) ->
  (2 <= List.length (filter (String.eqb p) (map snd kps)))%nat ->
  filter (String.eqb p) (select eqb k kps)
  = filter (String.eqb p) (map snd kps)
  /\ (2 <= List.length (select eqb k kps))%nat
  /\ filter (String.eqb p) (survivors eqb kps)
     = filter (String.eqb p) (map snd kps)
  /\ In (k, select eqb k kps) (group_by eqb kps).
Proof.
  intros Hkey Hlen.
  assert (HP : forall k' q, In (k', q) kps -> String.eqb p q = true -> k' = k).
  { intros k' q Hin E. apply String.eqb_eq in E. subst q. now apply Hkey. }
  assert (Hsel := filter_select (String.eqb p) k kps HP).
  assert (Hlen' : (2 <= List.length (select eqb k kps))%nat).
  { pose proof (subseq_length _ _
                  (subseq_filter (String.eqb p) (select eqb k kps))) as Hle.
    rewrite Hsel in Hle. lia. }
  repeat split; [assumption | assumption | |].
  - rewrite (filter_survivors eqb eqb_eq (String.eqb p) k kps HP).
    destruct (Nat.ltb_spec 1 (List.length (select eqb k kps))); [|lia].
    assumption.
  - destruct (filter (String.eqb p) (map snd kps)) as [|q r] eqn:Ef;
      [simpl in Hlen; lia|].
    assert (Hq : In q (filter (String.eqb p) (map snd kps)))
      by (rewrite Ef; now left).
    apply filter_In in Hq as (Hq & E). apply String.eqb_eq in E. subst q.
    apply in_map_iff in Hq as ((k', q) & Heq & Hin). simpl in Heq. subst q.
    rewrite (Hkey _ Hin) in Hin. apply (group_by_has eqb eqb_eq _ _ _ Hin).
Qed.

End KeepsAll.

Lemma filter_sized (p : string) (n : Z) kps :
  n <> 0 -> (forall k, In (k, p) kps -> k = Some n) ->
  filter (String.eqb p) (map snd (sized kps))
  = filter (String.eqb p) (map snd kps).
Proof.
  intros Hn. induction kps as [|(k, q) kps IH]; simpl; intros H.
  - reflexivity.
  - assert (IH' := IH (fun k0 Hin => H k0 (or_intror Hin))).
    destruct (String.eqb_spec p q) as [<-|Hne].
    + rewrite (H k (or_introl eq_refl)). simpl.
      apply Z.eqb_neq in Hn. rewrite Hn. simpl.
      rewrite String.eqb_refl. now f_equal.
    + destruct k as [m|]; simpl; [|assumption].
      destruct (m =? 0); simpl; [assumption|].
      destruct (String.eqb_spec p q); [contradiction | assumption].
Qed.

(** X13: the list the pipeline works on is the concatenation of the
    listings of the roots, as they come, with nothing removed. In a run
    that returns its groups, a path that is listed twice or more (the
    same root given twice, say) and holds a readable, non-empty file is
    reported in a group that holds the path as often as it was listed, a
    duplicate of itself; and the run does return its groups when every
    listed file stays readable. *)
Theorem repeated_path_reported_with_itself
  (w : world) (paths : list string) (st : state) (p : string) (c : bytes) :
  (2 <= count_occ string_dec (concat (listings w (clock st) paths)) p)%nat ->
  (forall t, lookup w t p = Some (mk_file true c)) ->
  c <> [] ->
  enumerate w paths st
  = (Return (concat (listings w (clock st) paths)),
     advance (List.length paths) st)
  /\ (forall groups st',
         duplicate_groups w paths st = (Return groups, st') ->
         exists g,
           In g groups
           /\ count_occ string_dec g p
              = count_occ string_dec
                  (concat (listings w (clock st) paths)) p)
  /\ ((forall q t, In q (concat (listings w (clock st) paths)) ->
                   exists f, lookup w t q = Some f /\ readable f = true) ->
      exists groups st', duplicate_groups w paths st = (Return groups, st')).
Proof.
  intros Hcount Hp Hc. split; [apply enumerate_run|]. split.
  2:{ intros Hall. unfold duplicate_groups. rewrite bind_run, enumerate_run.
      apply candidate_reducer_total. assumption. }
  intros groups st' Hrun.
  unfold duplicate_groups in Hrun. rewrite bind_run, enumerate_run in Hrun.
  remember (concat (listings w (clock st) paths)) as files eqn:Hfiles.
  clear Hfiles.
  apply candidate_reducer_inv in Hrun
    as (kps1 & kps2 & kps3 & Hc1 & Hc2 & Hc3 & ->).
  rewrite count_occ_filter in Hcount.
  (* the size stage *)
  assert (Hk1 : forall k, In (k, p) kps1 -> k = Some (size_of (mk_file true c))).
  { intros k Hin. destruct (collect_In _ _ _ _ _ _ Hc1 Hin) as (_ & t & _ & Ht).
    rewrite (size_at_constant _ _ _ _ Hp) in Ht. now injection Ht. }
  pose proof (filter_sized p _ kps1 (size_of_nonempty c Hc) Hk1) as Hs1.
  rewrite (collect_map_snd _ _ _ _ Hc1) in Hs1.
  destruct (repeated_path_kept Z.eqb Z.eqb_eq
              (size_of (mk_file true c)) p (sized kps1))
    as (_ & _ & Hout1 & _).
  { intros k Hin. apply sized_In in Hin as (Hin & _).
    apply Hk1 in Hin. now injection Hin. }
  { rewrite Hs1. assumption. }
  rewrite Hs1 in Hout1.
  (* the partial fingerprints *)
  destruct (repeated_path_kept String.eqb String.eqb_eq
              (SHA1.sha1 (firstn 1024 c)) p kps2)
    as (_ & _ & Hout2 & _).
  { intros k Hin. destruct (collect_In _ _ _ _ _ _ Hc2 Hin) as (_ & t & _ & Ht).
    rewrite (prefix_hash_at_constant _ _ _ _ Hp) in Ht. now injection Ht. }
  { rewrite (collect_map_snd _ _ _ _ Hc2), Hout1. assumption. }
  rewrite (collect_map_snd _ _ _ _ Hc2), Hout1 in Hout2.
  (* the full fingerprints *)
  destruct (repeated_path_kept String.eqb String.eqb_eq
              (SHA1.sha1 c) p kps3)
    as (Hg & Hlen & _ & Hd).
  { intros k Hin. destruct (collect_In _ _ _ _ _ _ Hc3 Hin) as (_ & t & _ & Ht).
    rewrite (full_hash_at_constant _ _ _ _ Hp) in Ht. now injection Ht. }
  { rewrite (collect_map_snd _ _ _ _ Hc3), Hout2. assumption. }
  rewrite (collect_map_snd _ _ _ _ Hc3), Hout2 in Hg.
  exists (select String.eqb (SHA1.sha1 c) kps3). split.
  - apply filter_In. split.
    + unfold Dict.values. apply in_map_iff.
      exists (SHA1.sha1 c, select String.eqb (SHA1.sha1 c) kps3). auto.
    + apply Nat.ltb_lt. lia.
  - rewrite !count_occ_filter. now rewrite Hg.
Qed.

Lemma repeated_path_reported_with_itself_witness :
  (2 <= count_occ string_dec
          (concat (listings three_files 0 ["d"; "d"]%string)) "d/c"%string)%nat
  /\ duplicate_groups three_files ["d"; "d"]%string initial_state
     = (Return [["d/a"; "d/b"; "d/a"; "d/b"]%string; ["d/c"; "d/c"]%string],
        mk_state 20 [])
  /\ exists g,
       In g [["d/a"; "d/b"; "d/a"; "d/b"]%string; ["d/c"; "d/c"]%string]
       /\ count_occ string_dec g "d/c"%string
          = count_occ string_dec
              (concat (listings three_files 0 ["d"; "d"]%string)) "d/c"%string.
Proof.
  split; [vm_compute; lia|]. split; [vm_compute; reflexivity|].
  destruct (repeated_path_reported_with_itself three_files ["d"; "d"]%string
              initial_state "d/c"%string world_bytes) as (_ & H & _).
  - vm_compute. lia.
  - intros t. reflexivity.
  - discriminate.
  - apply (H _ (mk_state 20 [])). vm_compute. reflexivity.
Defined.

(** C9: the enumerated list is the concatenation of the listings with no
    path removed, and a repeated path should be reported with itself; but
    the report is lost when another candidate cannot be opened. With the
    root [d] given twice, [d/a] is listed twice, readable and not empty;
    [d/b], of the same size, cannot be opened, so the [OSError] of the
    partial-fingerprint stage leaves [check_for_duplicates] and no group
    at all is reported. *)
Theorem repeated_path_lost_with_unreadable_file (lm : libm) :
  enumerate locked ["d"; "d"]%string initial_state
  = (Return ["d/a"; "d/b"; "d/a"; "d/b"]%string, mk_state 2 [])
  /\ count_occ string_dec ["d/a"; "d/b"; "d/a"; "d/b"]%string "d/a"%string
     = 2%nat
  /\ (forall t, lookup locked t "d/a" = Some (mk_file true hello))
  /\ hello <> []
  /\ duplicate_groups locked ["d"; "d"]%string initial_state
     = (Raise OSError, mk_state 8 [])
  /\ check_for_duplicates locked lm ["d"; "d"]%string initial_state
     = (Raise OSError, mk_state 8 []).
Proof.
  split; [vm_compute; reflexivity|].
  split; [vm_compute; reflexivity|].
  split; [intros t; reflexivity|].
  split; [discriminate|].
  split; vm_compute; reflexivity.
Qed.

(** ** Order within a group *)

Lemma size_at_disk w (disk : string -> option file) t p k :
  (forall t p, lookup w t p = disk p) ->
  size_at w t p = Return (Some k) ->
  exists f, disk p = Some f /\ k = size_of f.
Proof.
  intros Hdisk. unfold size_at. rewrite Hdisk.
  destruct (disk p) as [f|]; [|discriminate].
  intros [= <-]. exists f. auto.
Qed.

Lemma prefix_hash_at_disk w (disk : string -> option file) t p h :
  (forall t p, lookup w t p = disk p) ->
  prefix_hash_at w t p = Return h ->
  exists f, disk p = Some f /\ h = SHA1.sha1 (firstn 1024 (data f)).
Proof.
  intros Hdisk Hh. destruct (disk p) as [f|] eqn:Hp.
  - exists f. split; [reflexivity|].
    apply (prefix_hash_at_file w t p f h); [|assumption].
    now rewrite Hdisk.
  - unfold prefix_hash_at, open_at in Hh. rewrite Hdisk, Hp in Hh.
    discriminate.
Qed.

Lemma full_hash_at_disk w (disk : string -> option file) t p h :
  (forall t p, lookup w t p = disk p) ->
  full_hash_at w t p = Return h ->
  exists f, disk p = Some f /\ h = SHA1.sha1 (data f).
Proof.
  intros Hdisk Hh. destruct (disk p) as [f|] eqn:Hp.
  - exists f. split; [reflexivity|].
    apply (full_hash_at_file w t p f h); [|assumption].
    now rewrite Hdisk.
  - unfold full_hash_at, open_at in Hh. rewrite Hdisk, Hp in Hh.
    discriminate.
Qed.

(** Within one stage the order is kept, whatever the world does: every
    group a stage builds is its input list with some files left out. *)
Lemma stage_groups_in_order w files st :
  (forall d st1 k vs, files_by_size w files st = (Return d, st1) ->
                      In (k, vs) d -> subseq vs files)
  /\ (forall d st1 h vs, files_by_first_1k w files st = (Return d, st1) ->
                         In (h, vs) d -> subseq vs files)
  /\ (forall d st1 h vs, files_by_full_hash w files st = (Return d, st1) ->
                         In (h, vs) d -> subseq vs files).
Proof.
  split; [|split].
  - intros d st1 k vs Hd Hin.
    destruct (collect_size_total w files (clock st)) as (kps & Hc).
    rewrite (files_by_size_run _ _ _ _ Hc) in Hd. injection Hd as <- _.
    apply (group_by_select Z.eqb Z.eqb_eq) in Hin as (-> & _).
    apply (subseq_trans _ _ _ (select_subseq Z.eqb _ _)).
    rewrite <- (collect_map_snd _ _ _ _ Hc). apply sized_subseq.
  - intros d st1 h vs Hd Hin.
    apply files_by_first_1k_inv in Hd as (kps & Hc & ->).
    apply (group_by_select String.eqb String.eqb_eq) in Hin as (-> & _).
    rewrite <- (collect_map_snd _ _ _ _ Hc). apply select_subseq.
  - intros d st1 h vs Hd Hin.
    apply files_by_full_hash_inv in Hd as (kps & Hc & ->).
    apply (group_by_select String.eqb String.eqb_eq) in Hin as (-> & _).
    rewrite <- (collect_map_snd _ _ _ _ Hc). apply select_subseq.
Qed.

(** C8, as stated, fails when files change during the run: [r/x] comes
    before [r/y] in the list, the size stage has them in different groups
    and hands on the group of [r/y] first, and the last stage, by which
    time the four files are the same, reports [r/y] before [r/x]. *)
Lemma group_order_broken_by_rewrite :
  ~ (forall (w : world) (files : list string) (st : state)
            (groups : list (list string)) (st' : state),
        candidate_reducer w files st = (Return groups, st') ->
        forall g, In g groups -> subseq g files).
Proof.
  intros H.
  assert (Hs : subseq ["r/z"; "r/y"; "r/x"; "r/x2"]%string
                 ["r/z"; "r/x"; "r/y"; "r/x2"]%string).
  { apply (H rewritten ["r/z"; "r/x"; "r/y"; "r/x2"]%string initial_state
             [["r/z"; "r/y"; "r/x"; "r/x2"]%string] (mk_state 12 [])).
    - vm_compute. reflexivity.
    - now left. }
  repeat match goal with
         | Hx : subseq _ _ |- _ => inversion Hx; clear Hx; subst
         end.
Qed.

(** C8, amended: in a run during which the files do not change and no
    two listed files with different contents have the same SHA-1, every
    reported group is the enumerated list with some files left out: its
    files are in the order in which the enumeration met them. *)
Theorem group_order_follows_enumeration
  (w : world) (disk : string -> option file) (files : list string)
  (st : state) (groups : list (list string)) (st' : state) :
  (forall t p, lookup w t p = disk p) ->
  (forall p q fp fq,
      In p files -> In q files -> disk p = Some fp -> disk q = Some fq ->
      SHA1.sha1 (data fp) = SHA1.sha1 (data fq) -> data fp = data fq) ->
  candidate_reducer w files st = (Return groups, st') ->
  forall g, In g groups -> subseq g files.
Proof.
  intros Hdisk Hfree Hrun g Hg.
  apply candidate_reducer_inv in Hrun
    as (kps1 & kps2 & kps3 & Hc1 & Hc2 & Hc3 & ->).
  destruct g as [|p0 g']; [apply subseq_nil_l|].
  assert (Hp0 : In p0 (p0 :: g')) by now left.
  destruct (reported_in_stages _ _ _ _ _ _ _ _ _ _ Hc1 Hc2 Hc3 Hg Hp0)
    as (_ & _ & Hp0files).
  apply (kept_group_survives String.eqb String.eqb_eq) in Hg
    as (h & Hgsel & _ & _).
  rewrite Hgsel in Hp0. apply (select_In String.eqb String.eqb_eq) in Hp0.
  destruct (collect_In _ _ _ _ _ _ Hc3 Hp0) as (_ & t0 & _ & Ht0).
  apply (full_hash_at_disk _ _ _ _ _ Hdisk) in Ht0 as (f0 & Hf0 & Hh).
  set (Pc := fun p : string =>
               match disk p with
               | Some f => String.eqb (SHA1.sha1 (data f)) h
               | None => false
               end).
  assert (HPc : forall p, In p files -> Pc p = true ->
                          exists f, disk p = Some f /\ data f = data f0).
  { intros p Hp E. unfold Pc in E. destruct (disk p) as [f|] eqn:Hf;
      [|discriminate].
    apply String.eqb_eq in E. exists f. split; [reflexivity|].
    apply (Hfree p p0 f f0 Hp Hp0files Hf Hf0). congruence. }
  assert (Hin1 : forall p, In p (survivors Z.eqb (sized kps1)) -> In p files).
  { intros p Hp. rewrite <- (collect_map_snd _ _ _ _ Hc1).
    apply (subseq_In _ _ _ (sized_subseq kps1)).
    apply (survivors_incl Z.eqb Z.eqb_eq _ _ Hp). }
  (* the group is what the fingerprint selects among the partial survivors *)
  assert (HA : p0 :: g' = filter Pc (survivors String.eqb kps2)).
  { rewrite Hgsel, <- (collect_map_snd _ _ _ _ Hc3).
    apply (select_as_filter String.eqb). intros k' p Hin.
    destruct (collect_In _ _ _ _ _ _ Hc3 Hin) as (_ & t & _ & Ht).
    apply (full_hash_at_disk _ _ _ _ _ Hdisk) in Ht as (f & Hf & ->).
    unfold Pc. now rewrite Hf. }
  (* among the partial survivors it selects files of one partial group *)
  assert (HP2 : forall k' p, In (k', p) kps2 -> Pc p = true ->
                             k' = SHA1.sha1 (firstn 1024 (data f0))).
  { intros k' p Hin E.
    destruct (collect_In _ _ _ _ _ _ Hc2 Hin) as (Hp & t & _ & Ht).
    apply (prefix_hash_at_disk _ _ _ _ _ Hdisk) in Ht as (f & Hf & ->).
    destruct (HPc p (Hin1 p Hp) E) as (f' & Hf' & Hdata).
    rewrite Hf in Hf'. injection Hf' as <-. now rewrite Hdata. }
  rewrite (filter_survivors String.eqb String.eqb_eq Pc _ kps2 HP2) in HA.
  destruct (1 <? List.length
                   (select String.eqb (SHA1.sha1 (firstn 1024 (data f0))) kps2))%nat;
    [|discriminate].
  rewrite (filter_select String.eqb String.eqb_eq Pc _ kps2 HP2) in HA.
  rewrite (collect_map_snd _ _ _ _ Hc2) in HA.
  (* among the size survivors it selects files of one size group *)
  assert (HP1 : forall k' p, In (k', p) (sized kps1) -> Pc p = true ->
                             k' = size_of f0).
  { intros k' p Hin E. apply sized_In in Hin as (Hin & _).
    destruct (collect_In _ _ _ _ _ _ Hc1 Hin) as (Hp & t & _ & Ht).
    apply (size_at_disk _ _ _ _ _ Hdisk) in Ht as (f & Hf & ->).
    destruct (HPc p Hp E) as (f' & Hf' & Hdata).
    rewrite Hf in Hf'. injection Hf' as <-.
    unfold size_of. now rewrite Hdata. }
  rewrite (filter_survivors Z.eqb Z.eqb_eq Pc _ (sized kps1) HP1) in HA.
  destruct (1 <? List.length (select Z.eqb (size_of f0) (sized kps1)))%nat;
    [|discriminate].
  rewrite HA.
  apply (subseq_trans _ _ _ (subseq_filter Pc _)).
  apply (subseq_trans _ _ _ (select_subseq Z.eqb _ _)).
  rewrite <- (collect_map_snd _ _ _ _ Hc1). apply sized_subseq.
Qed.

Lemma group_order_follows_enumeration_witness :
  (forall t p, lookup same_prefix t p = same_prefix_disk p)
  /\ candidate_reducer same_prefix ["s/a1"; "s/b1"; "s/a2"; "s/b2"]%string
       initial_state
     = (Return [["s/a1"; "s/a2"]%string; ["s/b1"; "s/b2"]%string],
        mk_state 12 [])
  /\ forall g, In g [["s/a1"; "s/a2"]%string; ["s/b1"; "s/b2"]%string] ->
               subseq g ["s/a1"; "s/b1"; "s/a2"; "s/b2"]%string.
Proof.
  split; [intros t p; reflexivity|]. split; [vm_compute; reflexivity|].
  apply (group_order_follows_enumeration same_prefix same_prefix_disk
           ["s/a1"; "s/b1"; "s/a2"; "s/b2"]%string initial_state
           [["s/a1"; "s/a2"]%string; ["s/b1"; "s/b2"]%string]
           (mk_state 12 [])).
  - intros t p. reflexivity.
  - intros p q fp fq Hp Hq Hfp Hfq Hsha.
    simpl in Hp, Hq.
    destruct Hp as [<-|[<-|[<-|[<-|[]]]]];
      destruct Hq as [<-|[<-|[<-|[<-|[]]]]];
      cbn [same_prefix_disk String.eqb Ascii.eqb Bool.eqb orb] in Hfp, Hfq;
      injection Hfp as <-; injection Hfq as <-;
      try reflexivity;
      vm_compute in Hsha; discriminate Hsha.
  - vm_compute. reflexivity.
Defined.

(** ** Human-readable sizes *)

Lemma outcome_string_eqb_eq x y : outcome_string_eqb x y = true -> x = y.
Proof.
  destruct x as [a|e], y as [b|e']; simpl; try discriminate.
  intros E. apply String.eqb_eq in E. now subst.
Qed.

(** Below 1000 no logarithm is taken: the bytes are printed with two
    zero decimals. *)
Lemma small_sizes_checked :
  forallb
    (fun i =>
       let n := Z.of_nat i in
       outcome_string_eqb
         (obind (PyFloat.of_int n)
            (fun x => Return (PyFloat.format_2f x ++ "B")%string))
         (Return (PyFloat.decimal n ++ ".00B")%string))
    (seq 0 1000)
  = true.
Proof. vm_compute. reflexivity. Qed.

Lemma file_size_string_small (lm : libm) (n : Z) :
  0 <= n < 1000 ->
  file_size_string lm (Some n) = Return (PyFloat.decimal n ++ ".00B")%string.
Proof.
  intros Hn. unfold file_size_string.
  destruct (Z.ltb_spec n 1000) as [_|]; [|lia].
  pose proof small_sizes_checked as Hall.
  rewrite forallb_forall in Hall.
  specialize (Hall (Z.to_nat n)).
  rewrite Z2Nat.id in Hall by lia.
  apply outcome_string_eqb_eq, Hall, in_seq. lia.
Qed.

Lemma file_size_string_power (lm : libm) (k : Z) :
  1 <= k <= 8 ->
  PyFloat.to_int (math_log lm (1000 ^ k) 1000) = Return k ->
  file_size_string lm (Some (1000 ^ k))
  = Return ("1.00" ++ nth (Z.to_nat k) sizes "")%string.
Proof.
  intros Hk Hlog. unfold file_size_string.
  assert (Hbig : (1000 ^ k <? 1000) = false).
  { apply Z.ltb_ge. change 1000 with (1000 ^ 1) at 1.
    apply Z.pow_le_mono_r; lia. }
  rewrite Hbig, Hlog. clear Hbig Hlog.
  assert (Hcases : k = 1 \/ k = 2 \/ k = 3 \/ k = 4 \/ k = 5 \/ k = 6
                   \/ k = 7 \/ k = 8) by lia.
  repeat (destruct Hcases as [->|Hcases]; [vm_compute; reflexivity|]).
  subst k. vm_compute. reflexivity.
Qed.

(** *** Division and rounding of binary64

    [n / 1000 ** exponent] is the correctly rounded quotient of two ints,
    and [.2f] rounds the double once more; the lemmas below bound the two
    errors. *)

Lemma digits2_pos_bounds (p : positive) :
  2 ^ (Z.pos (digits2_pos p) - 1) <= Z.pos p < 2 ^ Z.pos (digits2_pos p).
Proof.
  induction p as [p IH|p IH|]; cbn [digits2_pos].
  - rewrite Pos2Z.inj_succ.
    replace (Z.succ (Z.pos (digits2_pos p)) - 1)
      with (Z.succ (Z.pos (digits2_pos p) - 1)) by lia.
    rewrite !Z.pow_succ_r by lia. lia.
  - rewrite Pos2Z.inj_succ.
    replace (Z.succ (Z.pos (digits2_pos p)) - 1)
      with (Z.succ (Z.pos (digits2_pos p) - 1)) by lia.
    rewrite !Z.pow_succ_r by lia. lia.
  - simpl. lia.
Qed.

Lemma Zdigits2_unique (z k : Z) :
  2 ^ (k - 1) <= z < 2 ^ k -> 0 < k -> Zdigits2 z = k.
Proof.
  intros Hz Hk.
  assert (0 < z) by (pose proof (Z.pow_pos_nonneg 2 (k - 1)); lia).
  destruct z as [|p|p]; try lia. cbn [Zdigits2].
  pose proof (digits2_pos_bounds p) as Hp.
  set (j := Z.pos (digits2_pos p)) in *.
  assert (Hj : 0 < j) by (unfold j; lia).
  destruct (Z.lt_trichotomy j k) as [Hlt|[Heq|Hgt]]; [|assumption|].
  - assert (2 ^ j <= 2 ^ (k - 1)) by (apply Z.pow_le_mono_r; lia). lia.
  - assert (2 ^ k <= 2 ^ (j - 1)) by (apply Z.pow_le_mono_r; lia). lia.
Qed.

Lemma shr_fexp_53 m e l :
  Zdigits2 m = 53 -> -1074 <= e ->
  shr_fexp 53 1024 m e l = (shr_record_of_loc m l, e).
Proof.
  intros Hd He. unfold shr_fexp, fexp, emin. rewrite Hd.
  replace (Z.max (53 + e - 53) (3 - 1024 - 53) - e) with 0 by lia.
  reflexivity.
Qed.

Lemma shr_fexp_54 m e l :
  Zdigits2 m = 54 -> -1075 <= e ->
  shr_fexp 53 1024 m e l = (shr_1 (shr_record_of_loc m l), e + 1).
Proof.
  intros Hd He. unfold shr_fexp, fexp, emin. rewrite Hd.
  replace (Z.max (54 + e - 53) (3 - 1024 - 53) - e) with 1 by lia.
  reflexivity.
Qed.

Lemma Zdigits2_bounds (z : Z) :
  0 < z -> 0 < Zdigits2 z /\ 2 ^ (Zdigits2 z - 1) <= z < 2 ^ Zdigits2 z.
Proof.
  destruct z as [|p|p]; try lia. intros _. cbn [Zdigits2].
  split; [lia|apply digits2_pos_bounds].
Qed.

Lemma shr_1_pos m r s :
  0 < m ->
  shr_1 (Build_shr_record m r s) = Build_shr_record (m / 2) (Z.odd m) (r || s).
Proof.
  intros Hm. rewrite <- Z.div2_div.
  destruct m as [|[p|p|]|]; try lia; reflexivity.
Qed.

Lemma shr_m_of_loc m l : shr_m (shr_record_of_loc m l) = m.
Proof. destruct l as [|[]]; reflexivity. Qed.

Lemma loc_of_shr_record_of_loc m l :
  loc_of_shr_record (shr_record_of_loc m l) = l.
Proof. destruct l as [|[]]; reflexivity. Qed.

Lemma new_location_ok d r : 0 <= r < d -> loc_ok (new_location d r) r d.
Proof.
  intros Hr. unfold new_location.
  destruct (Z.even d) eqn:Ev.
  - unfold new_location_even.
    destruct (Z.eqb_spec r 0) as [->|Hnz]; [reflexivity|].
    destruct (Z.compare_spec (2 * r) d); cbn [loc_ok]; lia.
  - assert (Hodd : Z.odd d = true) by (rewrite <- Z.negb_even, Ev; reflexivity).
    apply Z.odd_spec in Hodd. destruct Hodd as [k Hk].
    unfold new_location_odd.
    destruct (Z.eqb_spec r 0) as [->|Hnz]; [reflexivity|].
    destruct (Z.compare_spec (2 * r + 1) d); cbn [loc_ok]; lia.
Qed.

Lemma round_finish (m2 e1 : Z) :
  2 ^ 52 <= m2 <= 2 ^ 53 -> -1074 <= e1 <= 950 ->
  exists m ex,
    (let '(mrs, e2) := shr_fexp 53 1024 m2 e1 loc_Exact in
     match shr_m mrs with
     | Z0 => S754_zero false
     | Zpos m => if e2 <=? 1024 - 53 then S754_finite false m e2
                 else S754_infinity false
     | Zneg _ => S754_nan
     end) = S754_finite false m ex
    /\ ((ex = e1 /\ Z.pos m = m2) \/ (ex = e1 + 1 /\ 2 * Z.pos m = m2)).
Proof.
  intros Hm He.
  destruct (Z.eq_dec m2 (2 ^ 53)) as [->|Hne].
  - rewrite shr_fexp_54 by (try reflexivity; lia).
    cbn [shr_record_of_loc].
    rewrite shr_1_pos by lia. cbn [shr_m].
    change (2 ^ 53 / 2) with (Z.pos 4503599627370496).
    destruct (Z.leb_spec (e1 + 1) (1024 - 53)); [|lia].
    eexists _, _. split; [reflexivity|]. right. split; reflexivity.
  - rewrite shr_fexp_53 by (try lia; apply Zdigits2_unique; lia).
    cbn [shr_record_of_loc shr_m].
    destruct m2 as [|p|p]; try lia.
    destruct (Z.leb_spec e1 (1024 - 53)); [|lia].
    eexists _, _. split; [reflexivity|]. left. split; reflexivity.
Qed.

Lemma binary_round_aux_accurate (q e r d : Z) (l : location) :
  2 ^ 52 <= q < 2 ^ 54 -> -1074 <= e <= 900 ->
  0 <= r < d -> loc_ok l r d ->
  exists m ex,
    binary_round_aux 53 1024 false q e l = S754_finite false m ex
    /\ ((ex = e /\ Z.abs (Z.pos m * d - (q * d + r)) * 2 <= d)
        \/ (ex = e + 1 /\ Z.abs (Z.pos m * 2 * d - (q * d + r)) <= d)
        \/ (ex = e + 2 /\ Z.abs (Z.pos m * 4 * d - (q * d + r)) <= d)).
Proof.
  intros Hq He Hr Hl. unfold binary_round_aux.
  destruct (Z.lt_ge_cases q (2 ^ 53)) as [Hlt|Hge].
  - rewrite shr_fexp_53 by (try lia; apply Zdigits2_unique; lia).
    rewrite shr_m_of_loc, loc_of_shr_record_of_loc.
    set (m2 := round_nearest_even q l).
    assert (Hm2 : q <= m2 <= q + 1 /\ Z.abs (m2 * d - (q * d + r)) * 2 <= d).
    { unfold m2. destruct l as [|[]]; cbn [round_nearest_even loc_ok] in *;
        try destruct (Z.even q); split; try lia; nia. }
    destruct Hm2 as [Hm2 Herr].
    destruct (round_finish m2 e) as (m & ex & -> & [[-> Hm]|[-> Hm]]);
      try lia; exists m; eexists; (split; [reflexivity|]).
    + left. split; [reflexivity|]. rewrite Hm. exact Herr.
    + right. left. split; [reflexivity|].
      replace (Z.pos m * 2 * d) with (m2 * d) by nia. lia.
  - rewrite shr_fexp_54 by (try lia; apply Zdigits2_unique; lia).
    assert (Hrec : exists b s, shr_record_of_loc q l = Build_shr_record q b s
                               /\ loc_of_shr_record
                                    (Build_shr_record (q / 2) (Z.odd q) (b || s))
                                  = (if Z.odd q
                                     then loc_Inexact
                                            (match l with loc_Exact => Eq
                                                     | _ => Gt end)
                                     else match l with loc_Exact => loc_Exact
                                                  | _ => loc_Inexact Lt end)).
    { destruct l as [|[]]; eexists _, _; (split; [reflexivity|]);
        destruct (Z.odd q); reflexivity. }
    destruct Hrec as (b & s & -> & Hloc).
    rewrite shr_1_pos by lia. cbn [shr_m]. rewrite Hloc. clear Hloc.
    set (q1 := q / 2).
    assert (Hq1 : q = 2 * q1 + (if Z.odd q then 1 else 0)).
    { unfold q1. rewrite (Z.div_mod q 2) at 1 by lia.
      rewrite Zmod_odd. reflexivity. }
    set (l1 := if Z.odd q then _ else _).
    set (m2 := round_nearest_even q1 l1).
    assert (Hm2 : q1 <= m2 <= q1 + 1
                  /\ Z.abs (m2 * 2 * d - (q * d + r)) <= d).
    { unfold m2, l1. destruct (Z.odd q); destruct l as [|[]];
        cbn [round_nearest_even loc_ok] in *;
        try destruct (Z.even q1); split; try lia; nia. }
    destruct Hm2 as [Hm2 Herr].
    assert (Hq1b : 2 ^ 52 <= q1 < 2 ^ 53) by (destruct (Z.odd q); lia).
    destruct (round_finish m2 (e + 1)) as (m & ex & -> & [[-> Hm]|[-> Hm]]);
      try lia; exists m; eexists; (split; [reflexivity|]).
    + right. left. split; [reflexivity|]. rewrite Hm. exact Herr.
    + right. right. split; [lia|].
      replace (Z.pos m * 4 * d) with (m2 * 2 * d) by nia. lia.
Qed.

Lemma SFdiv_core_binary_ints (n d s : Z) :
  s = 53 + Zdigits2 d - Zdigits2 n -> 0 <= s <= 1074 ->
  SFdiv_core_binary 53 1024 n 0 d 0
  = ((n * 2 ^ s) / d, - s, new_location d ((n * 2 ^ s) mod d)).
Proof.
  intros Hs Hrange. unfold SFdiv_core_binary, fexp, emin.
  replace (Z.min (Z.max (Zdigits2 n + 0 - (Zdigits2 d + 0) - 53)
                    (3 - 1024 - 53)) (0 - 0)) with (- s) by lia.
  replace (0 - 0 - - s) with s by lia.
  assert (Hm : match s with
               | 0 => n
               | Z.pos _ => Z.shiftl n s
               | Z.neg _ => 0
               end = n * 2 ^ s).
  { destruct s as [|p|p]; [lia|apply Z.shiftl_mul_pow2; lia|lia]. }
  rewrite Hm. unfold Z.div, Z.modulo.
  destruct (Z.div_eucl (n * 2 ^ s) d). reflexivity.
Qed.

Lemma int_truediv_accurate (n d : Z) :
  0 < n -> 0 < d -> n < 2 ^ 43 * d -> d < 2 ^ 80 * n ->
  exists m ex,
    PyFloat.int_truediv n d = Return (S754_finite false m ex)
    /\ ex <= -8
    /\ Z.abs (Z.pos m * d - n * 2 ^ (- ex)) * 2 <= d.
Proof.
  intros Hn Hd Hnd Hdn.
  destruct (Zdigits2_bounds n Hn) as (Hd1 & Hn1).
  destruct (Zdigits2_bounds d Hd) as (Hd2 & Hn2).
  set (d1 := Zdigits2 n) in *. set (d2 := Zdigits2 d) in *.
  assert (Hle : d1 - d2 <= 43).
  { destruct (Z.le_gt_cases (d1 - d2) 43) as [|Hgt]; [assumption|].
    assert (2 ^ (43 + d2) <= 2 ^ (d1 - 1)) by (apply Z.pow_le_mono_r; lia).
    rewrite Z.pow_add_r in * by lia. nia. }
  assert (Hge : d2 - d1 <= 80).
  { destruct (Z.le_gt_cases (d2 - d1) 80) as [|Hgt]; [assumption|].
    assert (2 ^ (80 + d1) <= 2 ^ (d2 - 1)) by (apply Z.pow_le_mono_r; lia).
    rewrite Z.pow_add_r in * by lia. nia. }
  set (s := 53 + d2 - d1).
  assert (Hs : 10 <= s <= 133) by (unfold s; lia).
  unfold PyFloat.int_truediv.
  destruct (Z.eqb_spec d 0); [lia|]. destruct (Z.eqb_spec n 0); [lia|].
  rewrite !Z.abs_eq by lia.
  change PyFloat.prec with 53. change PyFloat.emax with 1024.
  rewrite (SFdiv_core_binary_ints n d s) by (fold d1 d2; unfold s; lia).
  destruct (Z.ltb_spec n 0); [lia|]. destruct (Z.ltb_spec d 0); [lia|].
  cbn [xorb].
  set (N := n * 2 ^ s).
  assert (Hpow : 2 ^ (d1 - 1) * 2 ^ s = 2 ^ 53 * 2 ^ (d2 - 1)).
  { rewrite <- !Z.pow_add_r by lia. f_equal. unfold s. lia. }
  assert (Hpd1 : 2 ^ d1 = 2 * 2 ^ (d1 - 1)).
  { rewrite <- Z.pow_succ_r by lia. f_equal. lia. }
  assert (Hpd2 : 2 ^ d2 = 2 * 2 ^ (d2 - 1)).
  { rewrite <- Z.pow_succ_r by lia. f_equal. lia. }
  assert (HS : 0 < 2 ^ s) by (apply Z.pow_pos_nonneg; lia).
  assert (HB : 0 < 2 ^ (d2 - 1)) by (apply Z.pow_pos_nonneg; lia).
  assert (HA : 0 < 2 ^ (d1 - 1)) by (apply Z.pow_pos_nonneg; lia).
  assert (Hq : 2 ^ 52 <= N / d < 2 ^ 54).
  { split.
    - apply Z.div_le_lower_bound; [lia|]. unfold N.
      assert (2 ^ (d1 - 1) * 2 ^ s <= n * 2 ^ s)
        by (apply Z.mul_le_mono_nonneg_r; lia).
      nia.
    - apply Z.div_lt_upper_bound; [lia|]. unfold N.
      assert (n * 2 ^ s < 2 ^ d1 * 2 ^ s)
        by (apply Z.mul_lt_mono_pos_r; lia).
      nia. }
  pose proof (Z.mod_pos_bound N d Hd) as Hr.
  pose proof (Z.div_mod N d ltac:(lia)) as HN.
  destruct (binary_round_aux_accurate (N / d) (- s) (N mod d) d
              (new_location d (N mod d)) Hq ltac:(lia) Hr
              (new_location_ok d (N mod d) Hr))
    as (m & ex & -> & Hcases).
  exists m, ex. split; [reflexivity|].
  replace (N / d * d + N mod d) with N in Hcases by lia.
  destruct Hcases as [[-> Herr]|[[-> Herr]|[-> Herr]]].
  - split; [lia|]. replace (- - s) with s by lia. exact Herr.
  - split; [lia|]. replace (- (- s + 1)) with (s - 1) by lia.
    assert (HS1 : 2 ^ s = 2 * 2 ^ (s - 1)).
    { rewrite <- Z.pow_succ_r by lia. f_equal. lia. }
    unfold N in Herr. rewrite HS1 in Herr. lia.
  - split; [lia|]. replace (- (- s + 2)) with (s - 2) by lia.
    assert (HS2 : 2 ^ s = 4 * 2 ^ (s - 2)).
    { change 4 with (2 ^ 2). rewrite <- Z.pow_add_r by lia. f_equal. lia. }
    unfold N in Herr. rewrite HS2 in Herr. lia.
Qed.

Lemma round_half_even_accurate (n d : Z) :
  0 < d -> Z.abs (PyFloat.round_half_even n d * d - n) * 2 <= d.
Proof.
  intros Hd. unfold PyFloat.round_half_even.
  pose proof (Z.div_mod n d ltac:(lia)) as Hn.
  pose proof (Z.mod_pos_bound n d Hd) as Hr.
  destruct (Z.compare_spec (2 * (n mod d)) d); try destruct (Z.even (n / d));
    nia.
Qed.

Lemma format_2f_accurate (m : positive) (ex n d : Z) :
  ex <= -8 -> 0 < n -> 0 < d ->
  Z.abs (Z.pos m * d - n * 2 ^ (- ex)) * 2 <= d ->
  exists h,
    PyFloat.format_2f (S754_finite false m ex)
    = (PyFloat.decimal (h / 100) ++ "." ++ PyFloat.two_digits (h mod 100))%string
    /\ 0 <= h
    /\ Z.abs (h * d - 100 * n) < d.
Proof.
  intros Hex Hn Hd Herr. unfold PyFloat.format_2f.
  destruct (Z.leb_spec 0 ex); [lia|].
  set (T := 2 ^ (- ex)) in *.
  assert (HT : 256 <= T).
  { change 256 with (2 ^ 8). apply Z.pow_le_mono_r; lia. }
  set (h := PyFloat.round_half_even (100 * Z.pos m) T).
  pose proof (round_half_even_accurate (100 * Z.pos m) T ltac:(lia)) as Hh.
  fold h in Hh.
  exists h. split; [reflexivity|].
  split.
  - unfold h, PyFloat.round_half_even.
    assert (0 <= 100 * Z.pos m / T) by (apply Z.div_pos; lia).
    destruct (_ ?= _); try destruct (Z.even _); lia.
  - nia.
Qed.

Lemma two_digits_length (x : Z) :
  0 <= x < 100 -> String.length (PyFloat.two_digits x) = 2%nat.
Proof.
  intros Hx.
  assert (Hall : forallb
                   (fun i => Nat.eqb (String.length
                                        (PyFloat.two_digits (Z.of_nat i))) 2)
                   (seq 0 100) = true) by (vm_compute; reflexivity).
  rewrite forallb_forall in Hall.
  specialize (Hall (Z.to_nat x)).
  rewrite Z2Nat.id in Hall by lia.
  apply Nat.eqb_eq, Hall, in_seq. lia.
Qed.

Lemma thousand_pow_bounds (e : Z) :
  0 <= e <= 8 -> 1 <= 1000 ^ e <= 1000 ^ 8.
Proof.
  intros He. split.
  - change 1 with (1000 ^ 0). apply Z.pow_le_mono_r; lia.
  - apply Z.pow_le_mono_r; lia.
Qed.

Lemma py_index_sizes (e : Z) :
  0 <= e <= 8 ->
  py_index sizes e
  = Return (nth (Z.to_nat e)
              ["B"; "KB"; "MB"; "GB"; "TB"; "PB"; "EB"; "ZB"; "YB"]%string
              ""%string).
Proof.
  intros He.
  assert (Hcases : e = 0 \/ e = 1 \/ e = 2 \/ e = 3 \/ e = 4 \/ e = 5
                   \/ e = 6 \/ e = 7 \/ e = 8) by lia.
  repeat (destruct Hcases as [->|Hcases]; [reflexivity|]).
  subst e. reflexivity.
Qed.

(** From 1000 on: the quotient by 1000 to the exponent, printed with two
    decimals, and the unit the exponent selects. *)
Lemma file_size_string_large (lm : libm) (n e : Z) :
  1000 <= n ->
  PyFloat.to_int (math_log lm n 1000) = Return e ->
  0 <= e <= 8 ->
  file_size_string lm (Some n)
  = obind (PyFloat.int_truediv n (1000 ^ e))
      (fun value =>
         Return (PyFloat.format_2f value
                   ++ nth (Z.to_nat e)
                        ["B"; "KB"; "MB"; "GB"; "TB"; "PB"; "EB"; "ZB"; "YB"]
                        "")%string).
Proof.
  intros Hn Hlog He. unfold file_size_string.
  destruct (Z.ltb_spec n 1000); [lia|].
  rewrite Hlog. cbn [obind].
  destruct (Z.leb_spec 0 e); [|lia].
  destruct (PyFloat.int_truediv n (1000 ^ e)) as [v|x]; [|reflexivity].
  cbn [obind]. rewrite (py_index_sizes e He). reflexivity.
Qed.

(** The number printed is within one hundredth of the size divided by
    1000 to the exponent. *)
Lemma file_size_string_accurate (lm : libm) (n e : Z) :
  1000 <= n ->
  PyFloat.to_int (math_log lm n 1000) = Return e ->
  0 <= e <= 8 ->
  n < 10 ^ 12 * 1000 ^ e ->
  exists h,
    0 <= h
    /\ Z.abs (h * 1000 ^ e - 100 * n) < 1000 ^ e
    /\ String.length (PyFloat.two_digits (h mod 100)) = 2%nat
    /\ file_size_string lm (Some n)
       = Return ((PyFloat.decimal (h / 100) ++ "."
                    ++ PyFloat.two_digits (h mod 100))
                   ++ nth (Z.to_nat e)
                        ["B"; "KB"; "MB"; "GB"; "TB"; "PB"; "EB"; "ZB"; "YB"]
                        "")%string.
Proof.
  intros Hn Hlog He Hlt.
  rewrite (file_size_string_large lm n e Hn Hlog He).
  pose proof (thousand_pow_bounds e He) as Hd.
  set (d := 1000 ^ e) in *.
  destruct (int_truediv_accurate n d) as (m & ex & -> & Hex & Herr);
    try lia.
  cbn [obind].
  destruct (format_2f_accurate m ex n d Hex) as (h & -> & Hh & Hclose);
    try lia.
  exists h. split; [exact Hh|]. split; [exact Hclose|].
  split; [|reflexivity].
  apply two_digits_length. apply Z.mod_pos_bound. lia.
Qed.

(** C5: sizes are printed in base 1000 with the units B, KB, ... YB and
    two decimals. Below 1000 the number of bytes itself is printed,
    followed by [.00B]; in particular 0, 999 and 512 give [0.00B],
    [999.00B] and [512.00B]. From 1000 on the exponent is
    [int(math.log(n, 1000))], with [math.log] taken from the C library;
    when it gives [k] on 1000 to the power [k], the powers print as
    [1.00KB], [1.00MB], ... [1.00YB]. For every size from 1000 on and
    every exponent [e] from 0 to 8 the library gives for it, the result
    is the correctly rounded quotient of the size by 1000 to the power
    [e], printed with two decimals and followed by the [e]-th unit; when
    the quotient is below 10 to the power 12, the number printed, of
    exactly two decimals, differs from the true quotient by less than one
    hundredth. So 1500, 1999 and 999999 with exponent 1 print as
    [1.50KB], [2.00KB] and [1000.00KB], and 1234567 with exponent 2 as
    [1.23MB]. *)
Theorem size_formatting (lm : libm) :
  (forall k, 1 <= k <= 8 ->
             PyFloat.to_int (math_log lm (1000 ^ k) 1000) = Return k) ->
  file_size_string lm (Some 0) = Return "0.00B"%string
  /\ file_size_string lm (Some 999) = Return "999.00B"%string
  /\ file_size_string lm (Some 1000) = Return "1.00KB"%string
  /\ file_size_string lm (Some 1000000) = Return "1.00MB"%string
  /\ file_size_string lm (Some 512) = Return "512.00B"%string
  /\ (forall n, 0 <= n < 1000 ->
                file_size_string lm (Some n)
                = Return (PyFloat.decimal n ++ ".00B")%string)
  /\ (forall k, 1 <= k <= 8 ->
                file_size_string lm (Some (1000 ^ k))
                = Return ("1.00" ++ nth (Z.to_nat k) sizes "")%string)
  /\ map (fun k => file_size_string lm (Some (1000 ^ k)))
       [1; 2; 3; 4; 5; 6; 7; 8]
     = [Return "1.00KB"; Return "1.00MB"; Return "1.00GB"; Return "1.00TB";
        Return "1.00PB"; Return "1.00EB"; Return "1.00ZB";
        Return "1.00YB"]%string
  /\ (forall n e,
         1000 <= n ->
         PyFloat.to_int (math_log lm n 1000) = Return e ->
         0 <= e <= 8 ->
         file_size_string lm (Some n)
         = obind (PyFloat.int_truediv n (1000 ^ e))
             (fun value =>
                Return (PyFloat.format_2f value
                          ++ nth (Z.to_nat e)
                               ["B"; "KB"; "MB"; "GB"; "TB"; "PB"; "EB";
                                "ZB"; "YB"] "")%string))
  /\ (forall n e,
         1000 <= n ->
         PyFloat.to_int (math_log lm n 1000) = Return e ->
         0 <= e <= 8 ->
         n < 10 ^ 12 * 1000 ^ e ->
         exists h,
           0 <= h
           /\ Z.abs (h * 1000 ^ e - 100 * n) < 1000 ^ e
           /\ String.length (PyFloat.two_digits (h mod 100)) = 2%nat
           /\ file_size_string lm (Some n)
              = Return ((PyFloat.decimal (h / 100) ++ "."
                           ++ PyFloat.two_digits (h mod 100))
                          ++ nth (Z.to_nat e)
                               ["B"; "KB"; "MB"; "GB"; "TB"; "PB"; "EB";
                                "ZB"; "YB"] "")%string)
  /\ (PyFloat.to_int (math_log lm 1500 1000) = Return 1 ->
      file_size_string lm (Some 1500) = Return "1.50KB"%string)
  /\ (PyFloat.to_int (math_log lm 1999 1000) = Return 1 ->
      file_size_string lm (Some 1999) = Return "2.00KB"%string)
  /\ (PyFloat.to_int (math_log lm 999999 1000) = Return 1 ->
      file_size_string lm (Some 999999) = Return "1000.00KB"%string)
  /\ (PyFloat.to_int (math_log lm 1234567 1000) = Return 2 ->
      file_size_string lm (Some 1234567) = Return "1.23MB"%string).
Proof.
  intros Hlog.
  assert (Hpow : forall k, 1 <= k <= 8 ->
                           file_size_string lm (Some (1000 ^ k))
                           = Return ("1.00" ++ nth (Z.to_nat k) sizes "")%string)
    by (intros k Hk; apply file_size_string_power; auto).
  assert (Hsample : forall n e s,
             1000 <= n -> 0 <= e <= 8 ->
             obind (PyFloat.int_truediv n (1000 ^ e))
               (fun value =>
                  Return (PyFloat.format_2f value
                            ++ nth (Z.to_nat e)
                                 ["B"; "KB"; "MB"; "GB"; "TB"; "PB"; "EB";
                                  "ZB"; "YB"] "")%string) = Return s ->
             PyFloat.to_int (math_log lm n 1000) = Return e ->
             file_size_string lm (Some n) = Return s).
  { intros n e s Hn He Hs Hl.
    rewrite (file_size_string_large lm n e Hn Hl He). exact Hs. }
  refine (conj _ (conj _ (conj _ (conj _ (conj _ (conj _ (conj _
         (conj _ (conj _ (conj _ (conj _ (conj _ (conj _ _))))))))))))).
  - apply (file_size_string_small lm 0). lia.
  - apply (file_size_string_small lm 999). lia.
  - apply (Hpow 1). lia.
  - apply (Hpow 2). lia.
  - apply (file_size_string_small lm 512). lia.
  - apply file_size_string_small.
  - assumption.
  - cbn [map].
    rewrite (Hpow 1), (Hpow 2), (Hpow 3), (Hpow 4), (Hpow 5), (Hpow 6),
      (Hpow 7), (Hpow 8) by lia.
    reflexivity.
  - apply file_size_string_large.
  - apply file_size_string_accurate.
  - apply Hsample; [lia|lia|vm_compute; reflexivity].
  - apply Hsample; [lia|lia|vm_compute; reflexivity].
  - apply Hsample; [lia|lia|vm_compute; reflexivity].
  - apply Hsample; [lia|lia|vm_compute; reflexivity].
Qed.

Lemma exact_libm_on_powers (k : Z) :
  1 <= k <= 8 ->
  PyFloat.to_int (math_log exact_libm (1000 ^ k) 1000) = Return k.
Proof.
  intros Hk.
  assert (Hcases : k = 1 \/ k = 2 \/ k = 3 \/ k = 4 \/ k = 5 \/ k = 6
                   \/ k = 7 \/ k = 8) by lia.
  repeat (destruct Hcases as [->|Hcases]; [vm_compute; reflexivity|]).
  subst k. vm_compute. reflexivity.
Defined.

Lemma size_formatting_witness :
  (forall k, 1 <= k <= 8 ->
             PyFloat.to_int (math_log exact_libm (1000 ^ k) 1000) = Return k)
  /\ file_size_string exact_libm (Some 1000) = Return "1.00KB"%string
  /\ file_size_string exact_libm (Some 1000000) = Return "1.00MB"%string
  /\ file_size_string exact_libm (Some 1999) = Return "2.00KB"%string
  /\ file_size_string exact_libm (Some 1234567) = Return "1.23MB"%string.
Proof.
  split; [exact exact_libm_on_powers|].
  destruct (size_formatting exact_libm exact_libm_on_powers)
    as (_ & _ & H1000 & H1000000 & _ & _ & _ & _ & _ & _ & _ & H1999 & _
        & H1234567).
  split; [exact H1000|]. split; [exact H1000000|].
  split; [apply H1999|apply H1234567]; vm_compute; reflexivity.
Defined.

(** Other sizes, and the first size without a unit. *)
Example formatted_samples :
  map (fun n => file_size_string exact_libm (Some n))
    [1999; 1234567; 999999; 1000 ^ 8; 1000 ^ 9]
  = [Return "2.00KB"; Return "1.23MB"; Return "1000.00KB";
     Return "1.00YB"; Raise IndexError]%string.
Proof. vm_compute. reflexivity. Qed.

(** * Further properties of the script *)

(** ** [main] *)

(** X1: with no root on the command line [main] prints the usage line and
    leaves with exit status 1 without a single system call; with roots it
    runs [check_for_duplicates] on the arguments after the program
    name. *)
Theorem main_usage_or_roots
  (w : world) (lm : libm) (argv : list string) (st : state) :
  ((List.length argv < 2)%nat ->
   main w lm argv st
   = (Raise (SystemExit 1),
      mk_state (clock st)
        (stdout st ++ ["Usage: find_duplicates.py <path> [<path> ...]"%string])))
  /\ ((2 <= List.length argv)%nat ->
      main w lm argv st = check_for_duplicates w lm (tl argv) st).
Proof.
  split; intros Hlen; unfold main; rewrite bind_run.
  - destruct (Nat.ltb_spec (List.length argv) 2) as [_|]; [|lia].
    rewrite bind_run, print_run. reflexivity.
  - destruct (Nat.ltb_spec (List.length argv) 2) as [|_]; [lia|].
    reflexivity.
Qed.

(** ** [list_files] *)

Lemma listing_at_In w t path p :
  In p (listing_at w t path) <->
  exists root dirs names name,
    In (root, dirs, names) (os_walk w t path)
    /\ In name names /\ p = os_path_join root name.
Proof.
  unfold listing_at. rewrite in_flat_map. split.
  - intros (((root, dirs), names) & Hin & Hp).
    apply in_map_iff in Hp as (name & <- & Hname).
    exists root, dirs, names, name. auto.
  - intros (root & dirs & names & name & Hin & Hname & ->).
    exists (root, dirs, names). split; [assumption|].
    apply in_map_iff. exists name. auto.
Qed.

Lemma listing_at_length w t path :
  List.length (listing_at w t path)
  = list_sum (map (fun entry : walk_entry => List.length (snd entry))
                (os_walk w t path)).
Proof.
  unfold listing_at.
  induction (os_walk w t path) as [|((root, dirs), names) entries IH]; simpl.
  - reflexivity.
  - rewrite length_app, length_map, IH. reflexivity.
Qed.

(** X2: [list_files] never raises and makes one system call. It returns
    one path for each file name of each triple [os.walk] yields, the root
    of the triple joined with the name, and nothing else: the lists of
    directory names add no path. *)
Theorem list_files_lists_walk (w : world) (path : string) (st : state) :
  exists files,
    list_files w path st = (Return files, tick st)
    /\ List.length files
       = list_sum (map (fun entry : walk_entry => List.length (snd entry))
                     (os_walk w (clock st) path))
    /\ (forall p, In p files <->
                  exists root dirs names name,
                    In (root, dirs, names) (os_walk w (clock st) path)
                    /\ In name names /\ p = os_path_join root name).
Proof.
  exists (listing_at w (clock st) path). split; [apply list_files_run|].
  split; [apply listing_at_length|]. intros p. apply listing_at_In.
Qed.

(** ** The two fingerprints *)

(** X3: for a readable file of at most 1024 bytes the partial fingerprint
    is the full fingerprint; and two readable files that start with the
    same 1024 bytes have the same partial fingerprint, whatever their
    lengths. *)
Theorem partial_fingerprint_of_short_file
  (w : world) (p q : string) (st st' : state) (f g : file) :
  lookup w (clock st) p = Some f -> readable f = true ->
  lookup w (clock st') q = Some g -> readable g = true ->
  ((List.length (data f) <= 1024)%nat ->
   fst (hash_first_1k_bytes w p st) = fst (hash_file w p st))
  /\ (firstn 1024 (data f) = firstn 1024 (data g) ->
      fst (hash_first_1k_bytes w p st) = fst (hash_first_1k_bytes w q st')).
Proof.
  intros Hf Hrf Hg Hrg. split.
  - intros Hlen. rewrite hash_first_1k_bytes_run, hash_file_run.
    unfold prefix_hash_at, full_hash_at, open_at. rewrite Hf, Hrf.
    cbn [obind fst]. now rewrite (firstn_all2 _ Hlen).
  - intros Hpre. rewrite !hash_first_1k_bytes_run.
    unfold prefix_hash_at, open_at. rewrite Hf, Hrf, Hg, Hrg.
    cbn [obind fst]. now rewrite Hpre.
Qed.

Lemma partial_fingerprint_of_short_file_witness :
  lookup three_files 0 "d/a" = Some (mk_file true hello)
  /\ lookup same_prefix 0 "s/a1" = Some (mk_file true (long_prefix ++ [x62]))
  /\ fst (hash_first_1k_bytes three_files "d/a" initial_state)
     = fst (hash_file three_files "d/a" initial_state)
  /\ fst (hash_first_1k_bytes same_prefix "s/a1" initial_state)
     = fst (hash_first_1k_bytes same_prefix "s/b1" initial_state).
Proof.
  split; [reflexivity|]. split; [reflexivity|]. split.
  - destruct (partial_fingerprint_of_short_file three_files "d/a" "d/a"
                initial_state initial_state (mk_file true hello)
                (mk_file true hello) eq_refl eq_refl eq_refl eq_refl)
      as (H & _).
    apply H. apply Nat.leb_le. vm_compute. reflexivity.
  - destruct (partial_fingerprint_of_short_file same_prefix "s/a1" "s/b1"
                initial_state initial_state
                (mk_file true (long_prefix ++ [x62]))
                (mk_file true (long_prefix ++ [x62; x63]))
                eq_refl eq_refl eq_refl eq_refl) as (_ & H).
    apply H. vm_compute. reflexivity.
Defined.

(** ** No path is reported more often than it is listed *)

Lemma count_occ_concat_filter (f : list string -> bool)
  (gs : list (list string)) (p : string) :
  (count_occ string_dec (concat (filter f gs)) p
   <= count_occ string_dec (concat gs) p)%nat.
Proof.
  induction gs as [|g gs IH]; simpl; [lia|].
  destruct (f g); simpl; rewrite !count_occ_app; lia.
Qed.

Lemma subseq_count_occ (l1 l2 : list string) (p : string) :
  subseq l1 l2 ->
  (count_occ string_dec l1 p <= count_occ string_dec l2 p)%nat.
Proof.
  induction 1 as [|x l1 l2 _ IH|x l1 l2 _ IH]; simpl.
  - lia.
  - destruct (string_dec x p); lia.
  - destruct (string_dec x p); lia.
Qed.

Section Counting.
Context {K : Type} (eqb : K -> K -> bool).

Lemma count_occ_setdefault_append (d : Dict.t (K := K)) k v p :
  count_occ string_dec
    (concat (Dict.values (Dict.setdefault_append eqb d k v))) p
  = (count_occ string_dec (concat (Dict.values d)) p
     + count_occ string_dec [v] p)%nat.
Proof.
  unfold Dict.values.
  induction d as [|(k0, vs0) d IH].
  - simpl. reflexivity.
  - cbn [Dict.setdefault_append]. destruct (eqb k k0);
      cbn [map concat snd]; rewrite !count_occ_app.
    + lia.
    + rewrite IH. lia.
Qed.

Lemma count_occ_group_by kps p :
  count_occ string_dec (concat (Dict.values (group_by eqb kps))) p
  = count_occ string_dec (map snd kps) p.
Proof.
  unfold group_by.
  enough (H : forall d,
             count_occ string_dec
               (concat (Dict.values
                  (fold_left
                     (fun d kp => Dict.setdefault_append eqb d (fst kp) (snd kp))
                     kps d))) p
             = (count_occ string_dec (concat (Dict.values d)) p
                + count_occ string_dec (map snd kps) p)%nat)
    by apply (H Dict.empty).
  induction kps as [|(k, v) kps IH]; intros d.
  - simpl. lia.
  - cbn [fold_left fst snd map]. rewrite IH, count_occ_setdefault_append.
    change (v :: map snd kps) with ([v] ++ map snd kps).
    rewrite count_occ_app. lia.
Qed.

Lemma count_occ_survivors kps p :
  (count_occ string_dec (survivors eqb kps) p
   <= count_occ string_dec (map snd kps) p)%nat.
Proof.
  unfold survivors. rewrite extend_with_groups_concat.
  rewrite <- count_occ_group_by. apply count_occ_concat_filter.
Qed.

End Counting.

(** X4: a run that returns its groups reports no path more often, all
    groups taken together, than the enumerated list has it, whatever
    happens to the files meanwhile. So when the list has no path twice, no
    path is reported twice: not twice in a group, and not in two
    groups. *)
Theorem reported_once_per_listing
  (w : world) (files : list string) (st : state)
  (groups : list (list string)) (st' : state) :
  candidate_reducer w files st = (Return groups, st') ->
  (forall p, (count_occ string_dec (concat groups) p
              <= count_occ string_dec files p)%nat)
  /\ (NoDup files -> NoDup (concat groups)).
Proof.
  intros Hrun.
  apply candidate_reducer_inv in Hrun
    as (kps1 & kps2 & kps3 & Hc1 & Hc2 & Hc3 & ->).
  assert (Hcount : forall p,
             (count_occ string_dec
                (concat (filter (fun paths => (1 <? List.length paths)%nat)
                           (Dict.values (group_by String.eqb kps3)))) p
              <= count_occ string_dec files p)%nat).
  { intros p.
    pose proof (count_occ_concat_filter
                  (fun paths => (1 <? List.length paths)%nat)
                  (Dict.values (group_by String.eqb kps3)) p) as H3.
    rewrite count_occ_group_by, (collect_map_snd _ _ _ _ Hc3) in H3.
    pose proof (count_occ_survivors String.eqb kps2 p) as H2.
    rewrite (collect_map_snd _ _ _ _ Hc2) in H2.
    pose proof (count_occ_survivors Z.eqb (sized kps1) p) as H1.
    pose proof (subseq_count_occ _ _ p (sized_subseq kps1)) as H0.
    rewrite (collect_map_snd _ _ _ _ Hc1) in H0. lia. }
  split; [exact Hcount|].
  intros Hnd. apply (NoDup_count_occ string_dec). intros p.
  rewrite (NoDup_count_occ string_dec) in Hnd.
  specialize (Hnd p). specialize (Hcount p). lia.
Qed.

Lemma reported_once_per_listing_witness :
  candidate_reducer three_files ["d/a"; "d/b"; "d/c"]%string initial_state
  = (Return [["d/a"; "d/b"]%string], mk_state 8 [])
  /\ (NoDup ["d/a"; "d/b"; "d/c"]%string ->
      NoDup (concat [["d/a"; "d/b"]%string])).
Proof.
  split; [vm_compute; reflexivity|].
  apply (reported_once_per_listing three_files
           ["d/a"; "d/b"; "d/c"]%string initial_state
           [["d/a"; "d/b"]%string] (mk_state 8 [])).
  vm_compute. reflexivity.
Defined.

(** ** Classes of files through the stages *)

Lemma bytes_eqb_eq (a b : bytes) : bytes_eqb a b = true <-> a = b.
Proof.
  revert b. induction a as [|x a IH]; intros [|y b]; simpl;
    try (split; [discriminate | congruence]); [tauto|].
  rewrite andb_true_iff, IH. split.
  - intros (Hxy & ->). now rewrite (Byte.byte_dec_bl _ _ Hxy).
  - intros [= -> ->]. split; [now apply Byte.byte_dec_lb | reflexivity].
Qed.

Lemma content_is_true disk c p :
  content_is disk c p = true <-> exists f, disk p = Some f /\ data f = c.
Proof.
  unfold content_is. destruct (disk p) as [f|].
  - rewrite bytes_eqb_eq. split.
    + intros <-. exists f. auto.
    + intros (f' & [= <-] & H). exact H.
  - split; [discriminate | intros (f & Hf & _); discriminate].
Qed.

Lemma filter_sized_class (P : string -> bool) (n : Z) kps :
  n <> 0 ->
  (forall k q, In (k, q) kps -> P q = true -> k = Some n) ->
  filter P (map snd (sized kps)) = filter P (map snd kps).
Proof.
  intros Hn. induction kps as [|(k, q) kps IH]; simpl; intros H.
  - reflexivity.
  - assert (IH' := IH (fun k0 q0 Hin => H k0 q0 (or_intror Hin))).
    destruct (P q) eqn:EP.
    + rewrite (H k q (or_introl eq_refl) EP). simpl.
      apply Z.eqb_neq in Hn. rewrite Hn. simpl. rewrite EP. now f_equal.
    + destruct k as [m|]; simpl; [|assumption].
      destruct (m =? 0); simpl; [assumption|]. now rewrite EP.
Qed.

Section ClassKept.
Context {K : Type} (eqb : K -> K -> bool).
Hypothesis eqb_eq : forall x y, eqb x y = true <-> x = y.

(** The files of a class that all carry one key either all survive the
    filter, in their order, or none does; they do when they are two or
    more. *)
Lemma class_survives (P : string -> bool) (k : K) kps :
  (forall k' q, In (k', q) kps -> P q = true -> k' = k) ->
  (filter P (survivors eqb kps) = filter P (map snd kps)
   \/ filter P (survivors eqb kps) = [])
  /\ ((2 <= List.length (filter P (map snd kps)))%nat ->
      filter P (survivors eqb kps) = filter P (map snd kps)).
Proof.
  intros HP.
  pose proof (filter_survivors eqb eqb_eq P k kps HP) as Hs.
  pose proof (filter_select eqb eqb_eq P k kps HP) as Hsel.
  rewrite Hsel in Hs. split.
  - destruct (1 <? List.length (select eqb k kps))%nat; auto.
  - intros Hlen.
    destruct (Nat.ltb_spec 1 (List.length (select eqb k kps))) as [_|Hle];
      [assumption|].
    pose proof (subseq_length _ _ (subseq_filter P (select eqb k kps))) as H.
    rewrite Hsel in H. lia.
Qed.

End ClassKept.

Section StaticDisk.
Variable w : world.
Variable disk : string -> option file.
Hypothesis static : forall t p, lookup w t p = disk p.

Lemma class_size_key c files t kps k q :
  collect (size_at w) t files = Return kps ->
  In (k, q) kps -> content_is disk c q = true ->
  k = Some (Z.of_nat (List.length c)).
Proof.
  intros Hc Hin HP. apply content_is_true in HP as (f & Hf & <-).
  destruct (collect_In _ _ _ _ _ _ Hc Hin) as (_ & t' & _ & Ht').
  unfold size_at in Ht'. rewrite static, Hf in Ht'. now injection Ht' as <-.
Qed.

Lemma class_prefix_key c files t kps k q :
  collect (prefix_hash_at w) t files = Return kps ->
  In (k, q) kps -> content_is disk c q = true ->
  k = SHA1.sha1 (firstn 1024 c).
Proof.
  intros Hc Hin HP. apply content_is_true in HP as (f & Hf & <-).
  destruct (collect_In _ _ _ _ _ _ Hc Hin) as (_ & t' & _ & Ht').
  apply (prefix_hash_at_disk _ _ _ _ _ static) in Ht' as (f' & Hf' & ->).
  rewrite Hf in Hf'. now injection Hf' as <-.
Qed.

Lemma class_full_key c files t kps k q :
  collect (full_hash_at w) t files = Return kps ->
  In (k, q) kps -> content_is disk c q = true ->
  k = SHA1.sha1 c.
Proof.
  intros Hc Hin HP. apply content_is_true in HP as (f & Hf & <-).
  destruct (collect_In _ _ _ _ _ _ Hc Hin) as (_ & t' & _ & Ht').
  apply (full_hash_at_disk _ _ _ _ _ static) in Ht' as (f' & Hf' & ->).
  rewrite Hf in Hf'. now injection Hf' as <-.
Qed.

Lemma length_nonempty (c : bytes) : c <> [] -> Z.of_nat (List.length c) <> 0.
Proof. destruct c; [congruence | simpl; lia]. Qed.

(** Among the files handed to the last stage, a class of non-empty
    content is the class in the enumerated list or nothing. *)
Lemma class_through_filters c files t1 t2 kps1 kps2 :
  c <> [] ->
  collect (size_at w) t1 files = Return kps1 ->
  collect (prefix_hash_at w) t2 (survivors Z.eqb (sized kps1)) = Return kps2 ->
  (filter (content_is disk c) (survivors String.eqb kps2)
   = filter (content_is disk c) files
   \/ filter (content_is disk c) (survivors String.eqb kps2) = [])
  /\ ((2 <= List.length (filter (content_is disk c) files))%nat ->
      filter (content_is disk c) (survivors String.eqb kps2)
      = filter (content_is disk c) files).
Proof.
  intros Hne Hc1 Hc2.
  set (P := content_is disk c).
  assert (H0 : filter P (map snd (sized kps1)) = filter P files).
  { rewrite <- (collect_map_snd _ _ _ _ Hc1).
    apply (filter_sized_class P _ kps1 (length_nonempty c Hne)).
    intros k q Hin HP. apply (class_size_key c _ _ _ _ _ Hc1 Hin HP). }
  destruct (class_survives Z.eqb Z.eqb_eq P
              (Z.of_nat (List.length c)) (sized kps1)) as (H1 & H1').
  { intros k q Hin HP. apply sized_In in Hin as (Hin & _).
    pose proof (class_size_key c _ _ _ _ _ Hc1 Hin HP) as E.
    now injection E. }
  rewrite H0 in H1, H1'.
  destruct (class_survives String.eqb String.eqb_eq P
              (SHA1.sha1 (firstn 1024 c)) kps2) as (H2 & H2').
  { intros k q Hin HP. apply (class_prefix_key c _ _ _ _ _ Hc2 Hin HP). }
  rewrite (collect_map_snd _ _ _ _ Hc2) in H2, H2'.
  split.
  - destruct H2 as [H2|H2]; [|now right]. rewrite H2.
    destruct H1 as [H1|H1]; [now left | now right].
  - intros Hlen. rewrite H2'; rewrite (H1' Hlen); [reflexivity | assumption].
Qed.

End StaticDisk.

(** X5: on a disk that does not change, with no two listed files of
    different contents sharing a SHA-1, a run that returns its groups
    reports exactly the classes of equal content: a list is a reported
    group when and only when it is, for some non-empty content, the list
    of all the enumerated paths that hold this content, in their order,
    and has two paths or more. *)
Theorem groups_are_content_classes
  (w : world) (disk : string -> option file) (files : list string)
  (st : state) (groups : list (list string)) (st' : state) :
  (forall t p, lookup w t p = disk p) ->
  (forall p q fp fq,
      In p files -> In q files -> disk p = Some fp -> disk q = Some fq ->
      SHA1.sha1 (data fp) = SHA1.sha1 (data fq) -> data fp = data fq) ->
  candidate_reducer w files st = (Return groups, st') ->
  forall g,
    In g groups <->
    exists c, c <> []
              /\ g = filter (content_is disk c) files
              /\ (2 <= List.length g)%nat.
Proof.
  intros Hdisk Hfree Hrun g.
  apply candidate_reducer_inv in Hrun
    as (kps1 & kps2 & kps3 & Hc1 & Hc2 & Hc3 & ->).
  assert (Hin2 : forall p, In p (survivors String.eqb kps2) -> In p files).
  { intros p Hp. apply (survivors_incl String.eqb String.eqb_eq) in Hp.
    rewrite (collect_map_snd _ _ _ _ Hc2) in Hp.
    apply (survivors_incl Z.eqb Z.eqb_eq) in Hp.
    apply (subseq_In _ _ _ (sized_subseq kps1)) in Hp.
    now rewrite (collect_map_snd _ _ _ _ Hc1) in Hp. }
  (* the group of a digest is the class of a content *)
  assert (Hclass : forall p0 f0,
             In p0 files -> disk p0 = Some f0 ->
             select String.eqb (SHA1.sha1 (data f0)) kps3
             = filter (content_is disk (data f0)) (survivors String.eqb kps2)).
  { intros p0 f0 Hp0 Hf0. rewrite <- (collect_map_snd _ _ _ _ Hc3).
    apply (select_as_filter String.eqb). intros k p Hin.
    destruct (collect_In _ _ _ _ _ _ Hc3 Hin) as (Hp & t & _ & Ht).
    apply (full_hash_at_disk _ _ _ _ _ Hdisk) in Ht as (f & Hf & ->).
    unfold content_is. rewrite Hf.
    destruct (bytes_eqb (data f) (data f0)) eqn:E.
    - apply bytes_eqb_eq in E. rewrite E. apply String.eqb_refl.
    - destruct (String.eqb_spec (SHA1.sha1 (data f)) (SHA1.sha1 (data f0)))
        as [Hsha|]; [|reflexivity].
      rewrite (Hfree p p0 f f0 (Hin2 p Hp) Hp0 Hf Hf0 Hsha) in E.
      assert (E' : bytes_eqb (data f0) (data f0) = true)
        by now apply bytes_eqb_eq.
      congruence. }
  split.
  - intros Hg.
    destruct g as [|p0 g'];
      [apply (kept_group_survives String.eqb String.eqb_eq) in Hg
         as (_ & _ & Hlen & _); simpl in Hlen; lia|].
    assert (Hp0 : In p0 (p0 :: g')) by now left.
    destruct (reported_in_stages _ _ _ _ _ _ _ _ _ _ Hc1 Hc2 Hc3 Hg Hp0)
      as (_ & Hp0out1 & Hp0files).
    apply (kept_group_survives String.eqb String.eqb_eq) in Hg
      as (h & Hgsel & Hlen & _).
    assert (Hp0' := Hp0). rewrite Hgsel in Hp0'.
    apply (select_In String.eqb String.eqb_eq) in Hp0'.
    destruct (collect_In _ _ _ _ _ _ Hc3 Hp0') as (_ & t0 & _ & Ht0).
    apply (full_hash_at_disk _ _ _ _ _ Hdisk) in Ht0 as (f0 & Hf0 & ->).
    assert (Hne : data f0 <> []).
    { apply (survivors_In Z.eqb Z.eqb_eq) in Hp0out1 as (n & Hin & _).
      apply sized_In in Hin as (Hin & Hn).
      destruct (collect_In _ _ _ _ _ _ Hc1 Hin) as (_ & t & _ & Ht).
      apply (size_at_disk _ _ _ _ _ Hdisk) in Ht as (f & Hf & ->).
      rewrite Hf0 in Hf. injection Hf as <-.
      intros E. apply Hn. unfold size_of. now rewrite E. }
    exists (data f0). split; [assumption|]. split; [|assumption].
    rewrite (Hclass p0 f0 Hp0files Hf0) in Hgsel.
    destruct (class_through_filters w disk Hdisk (data f0) files _ _ _ _
                Hne Hc1 Hc2) as ([H|H] & _).
    + now rewrite H in Hgsel.
    + rewrite H in Hgsel. discriminate.
  - intros (c & Hne & -> & Hlen).
    destruct (class_through_filters w disk Hdisk c files _ _ _ _
                Hne Hc1 Hc2) as (_ & H).
    specialize (H Hlen).
    destruct (filter (content_is disk c) files) as [|p0 r] eqn:Ef;
      [simpl in Hlen; lia|].
    assert (Hp0 : In p0 (filter (content_is disk c) files))
      by (rewrite Ef; now left).
    apply filter_In in Hp0 as (Hp0files & HP0).
    apply content_is_true in HP0 as (f0 & Hf0 & <-).
    assert (Hp0out2 : In p0 (survivors String.eqb kps2)).
    { assert (Hp0' : In p0 (filter (content_is disk (data f0))
                              (survivors String.eqb kps2)))
        by (rewrite H; now left).
      now apply filter_In in Hp0' as (Hp0' & _). }
    pose proof (Hclass p0 f0 Hp0files Hf0) as Hsel. rewrite H in Hsel.
    rewrite <- (collect_map_snd _ _ _ _ Hc3) in Hp0out2.
    apply in_map_iff in Hp0out2 as ((k, q) & Hq & Hin). simpl in Hq. subst q.
    assert (Hk : k = SHA1.sha1 (data f0)).
    { apply (class_full_key w disk Hdisk (data f0) _ _ _ _ _ Hc3 Hin).
      apply content_is_true. exists f0. auto. }
    subst k.
    apply (group_by_has String.eqb String.eqb_eq) in Hin.
    rewrite Hsel in Hin.
    apply filter_In. split.
    + unfold Dict.values. apply in_map_iff.
      exists (SHA1.sha1 (data f0), p0 :: r). auto.
    + apply Nat.ltb_lt. exact Hlen.
Qed.

Lemma groups_are_content_classes_witness :
  (forall t p, lookup three_files t p = three_files_disk p)
  /\ candidate_reducer three_files ["d/a"; "d/b"; "d/c"]%string initial_state
     = (Return [["d/a"; "d/b"]%string], mk_state 8 [])
  /\ (In ["d/a"; "d/b"]%string [["d/a"; "d/b"]%string] <->
      exists c, c <> []
                /\ ["d/a"; "d/b"]%string
                   = filter (content_is three_files_disk c)
                       ["d/a"; "d/b"; "d/c"]%string
                /\ (2 <= List.length ["d/a"; "d/b"]%string)%nat).
Proof.
  split; [intros t p; reflexivity|]. split; [vm_compute; reflexivity|].
  apply (groups_are_content_classes three_files three_files_disk
           ["d/a"; "d/b"; "d/c"]%string initial_state
           [["d/a"; "d/b"]%string] (mk_state 8 [])).
  - intros t p. reflexivity.
  - intros p q fp fq Hp Hq Hfp Hfq Hsha.
    simpl in Hp, Hq.
    destruct Hp as [<-|[<-|[<-|[]]]];
      destruct Hq as [<-|[<-|[<-|[]]]];
      vm_compute in Hfp, Hfq;
      injection Hfp as <-; injection Hfq as <-;
      try reflexivity;
      vm_compute in Hsha; discriminate Hsha.
  - vm_compute. reflexivity.
Defined.

(** ** Which files the size stage hands on *)

Lemma collect_size_static w disk files :
  (forall t p, lookup w t p = disk p) ->
  forall t,
    collect (size_at w) t files
    = Return (map (fun p => (option_map size_of (disk p), p)) files).
Proof.
  intros Hdisk. induction files as [|p files IH]; intros t; simpl.
  - reflexivity.
  - unfold size_at at 1. rewrite Hdisk, IH.
    destruct (disk p); reflexivity.
Qed.

Lemma has_size_true disk n p :
  has_size disk n p = true <-> option_map size_of (disk p) = Some n.
Proof.
  unfold has_size. destruct (disk p) as [f|]; simpl.
  - rewrite Z.eqb_eq. split; [now intros -> | now intros [= ->]].
  - split; discriminate.
Qed.

(** X6: on a disk that does not change, the size stage never raises and
    hands on exactly the paths that exist, are not empty, and share their
    size with another entry of the list; whether a file can be opened
    plays no part. *)
Theorem size_stage_survivors
  (w : world) (disk : string -> option file) (files : list string)
  (st : state) :
  (forall t p, lookup w t p = disk p) ->
  exists out,
    filter_files_by_size w files st
    = (Return out, advance (List.length files) st)
    /\ forall p,
         In p out <->
         In p files
         /\ exists n, n <> 0
                      /\ has_size disk n p = true
                      /\ (2 <= List.length (filter (has_size disk n) files))%nat.
Proof.
  intros Hdisk.
  pose proof (collect_size_static w disk files Hdisk (clock st)) as Hc.
  set (kps := map (fun p => (option_map size_of (disk p), p)) files) in *.
  exists (survivors Z.eqb (sized kps)). split.
  - apply (filter_files_by_size_run _ _ _ _ Hc).
  - assert (Hkps : forall k p, In (k, p) kps <->
                               In p files /\ k = option_map size_of (disk p)).
    { intros k p. unfold kps. rewrite in_map_iff. split.
      - intros (q & [= <- <-] & Hq). auto.
      - intros (Hp & ->). exists p. auto. }
    assert (Hsel : forall n, n <> 0 ->
                     select Z.eqb n (sized kps)
                     = filter (has_size disk n) files).
    { intros n Hn.
      rewrite (select_as_filter Z.eqb (has_size disk n) n (sized kps)).
      - rewrite (filter_sized_class (has_size disk n) n kps Hn).
        + unfold kps. rewrite map_map. simpl. now rewrite map_id.
        + intros k q Hin HP. apply Hkps in Hin as (_ & ->).
          now apply has_size_true.
      - intros k q Hin. apply sized_In in Hin as (Hin & _).
        apply Hkps in Hin as (_ & Hk). unfold has_size.
        destruct (disk q) as [f|]; [|discriminate].
        simpl in Hk. now injection Hk as ->. }
    intros p. rewrite (survivors_In Z.eqb Z.eqb_eq). split.
    + intros (n & Hin & Hlen). apply sized_In in Hin as (Hin & Hn).
      apply Hkps in Hin as (Hp & Hk). split; [assumption|].
      exists n. split; [assumption|]. split.
      * now apply has_size_true.
      * now rewrite <- (Hsel n Hn).
    + intros (Hp & n & Hn & Hsize & Hlen). exists n. split.
      * apply sized_In. split; [|assumption]. apply Hkps. split; [assumption|].
        symmetry. now apply has_size_true.
      * now rewrite (Hsel n Hn).
Qed.

Lemma size_stage_survivors_witness :
  (forall t p, lookup locked t p = lookup locked 0 p)
  /\ exists out,
       filter_files_by_size locked ["d/a"; "d/b"]%string initial_state
       = (Return out, advance 2 initial_state)
       /\ (In "d/b"%string out <->
           In "d/b"%string ["d/a"; "d/b"]%string
           /\ exists n, n <> 0
                        /\ has_size (lookup locked 0) n "d/b" = true
                        /\ (2 <= List.length
                                   (filter (has_size (lookup locked 0) n)
                                      ["d/a"; "d/b"]%string))%nat).
Proof.
  split; [intros t p; reflexivity|].
  destruct (size_stage_survivors locked (lookup locked 0)
              ["d/a"; "d/b"]%string initial_state (fun t p => eq_refl))
    as (out & Hrun & Hout).
  exists out. split; [exact Hrun | apply Hout].
Defined.

(** ** Files of pairwise different sizes *)

Lemma no_element_nil {A} (l : list A) : (forall x, ~ In x l) -> l = [].
Proof.
  destruct l as [|x l]; [reflexivity|].
  intros H. exfalso. apply (H x). now left.
Qed.

(** X7: when no two entries of the enumerated list have the same non-zero
    size, [check_for_duplicates] prints nothing and returns after one
    system call for each root and one for each listed file: every size is
    read and no file is opened, so files that could not be read do no
    harm. *)
Theorem distinct_sizes_open_no_file
  (w : world) (lm : libm) (paths : list string) (st : state) :
  (forall i j p q n,
      i <> j ->
      nth_error (concat (listings w (clock st) paths)) i = Some p ->
      nth_error (concat (listings w (clock st) paths)) j = Some q ->
      size_at w (clock st + List.length paths + i) p = Return (Some n) ->
      size_at w (clock st + List.length paths + j) q = Return (Some n) ->
      n = 0) ->
  check_for_duplicates w lm paths st
  = (Return tt,
     advance
       (List.length paths
        + List.length (concat (listings w (clock st) paths))) st).
Proof.
  intros Hdistinct.
  unfold check_for_duplicates, duplicate_groups.
  rewrite !bind_run, enumerate_run.
  remember (concat (listings w (clock st) paths)) as files eqn:Hfiles.
  clear Hfiles.
  destruct (collect_size_total w files
              (clock (advance (List.length paths) st))) as (kps & Hc).
  unfold candidate_reducer. rewrite bind_run.
  rewrite (filter_files_by_size_run _ _ _ _ Hc).
  assert (Hnone : survivors Z.eqb (sized kps) = []).
  { apply no_element_nil. intros p Hp.
    destruct (survivors_partner Z.eqb Z.eqb_eq _ _ Hp) as (n & q & Hs & _).
    assert (Hn : n <> 0).
    { apply (survivors_In Z.eqb Z.eqb_eq) in Hp as (n' & Hin & _).
      destruct Hs as [Hs|Hs];
        assert (Hin' : In (n, p) (sized kps))
          by (apply (subseq_In _ _ _ Hs); simpl; auto);
        now apply sized_In in Hin' as (_ & Hn). }
    assert (Hs' : subseq [(Some n, p); (Some n, q)] kps
                  \/ subseq [(Some n, q); (Some n, p)] kps)
      by (destruct Hs as [Hs|Hs]; [left | right]; now apply sized_pair).
    destruct (pair_positions _ _ _ _ _ _ _ Hc Hs')
      as (i & j & Hij & Hi & Hj & Hoi & Hoj).
    cbn [advance clock] in Hoi, Hoj.
    apply Hn. apply (Hdistinct i j p q n Hij Hi Hj Hoi Hoj). }
  rewrite Hnone. rewrite advance_advance. reflexivity.
Qed.

Lemma distinct_sizes_open_no_file_witness :
  check_for_duplicates different_sizes exact_libm ["u"]%string initial_state
  = (Return tt, mk_state 4 []).
Proof.
  apply (distinct_sizes_open_no_file different_sizes exact_libm
           ["u"]%string initial_state).
  intros i j p q n Hij Hi Hj Hsi Hsj.
  destruct i as [|[|[|i]]]; destruct j as [|[|[|j]]];
    try (exfalso; apply Hij; reflexivity);
    vm_compute in Hi, Hj;
    try (destruct i; discriminate Hi);
    try (destruct j; discriminate Hj);
    injection Hi as <-; injection Hj as <-;
    vm_compute in Hsi, Hsj; congruence.
Defined.

(** ** When the run is abandoned *)

Lemma collect_raise_inv {K} (obs : nat -> string -> outcome K) files :
  forall t e,
    collect obs t files = Raise e ->
    exists p t', In p files /\ obs t' p = Raise e.
Proof.
  induction files as [|q files IH]; simpl; intros t e H; [discriminate|].
  destruct (obs t q) as [k|e'] eqn:Hq; simpl in H.
  - destruct (collect obs (S t) files) as [kps|e''] eqn:Hc; simpl in H;
      [discriminate|].
    injection H as ->. destruct (IH _ _ Hc) as (p & t' & Hp & Ht').
    exists p, t'. auto.
  - injection H as ->. exists q, t. auto.
Qed.

Lemma collect_return_all {K} (obs : nat -> string -> outcome K) files t kps p :
  collect obs t files = Return kps -> In p files ->
  exists t' k, obs t' p = Return k.
Proof.
  intros Hc Hp. rewrite <- (collect_map_snd _ _ _ _ Hc) in Hp.
  apply in_map_iff in Hp as ((k, q) & Hq & Hin). simpl in Hq. subst q.
  destruct (collect_In _ _ _ _ _ _ Hc Hin) as (_ & t' & _ & Ht').
  exists t', k. assumption.
Qed.

Lemma filter_files_by_first_1k_bytes_raise w files st e :
  collect (prefix_hash_at w) (clock st) files = Raise e ->
  fst (filter_files_by_first_1k_bytes w files st) = Raise e.
Proof.
  intros Hc. unfold filter_files_by_first_1k_bytes. rewrite bind_run.
  rewrite files_by_first_1k_run, Hc. reflexivity.
Qed.

Lemma group_files_by_full_hash_raise w files st e :
  collect (full_hash_at w) (clock st) files = Raise e ->
  fst (group_files_by_full_hash w files st) = Raise e.
Proof.
  intros Hc. unfold group_files_by_full_hash. rewrite bind_run.
  rewrite files_by_full_hash_run, Hc. reflexivity.
Qed.

Lemma candidate_reducer_cases w files st kps1 :
  collect (size_at w) (clock st) files = Return kps1 ->
  fst (candidate_reducer w files st)
  = match collect (prefix_hash_at w) (clock st + List.length files)
            (survivors Z.eqb (sized kps1)) with
    | Raise e => Raise e
    | Return kps2 =>
        match collect (full_hash_at w)
                (clock st + List.length files
                 + List.length (survivors Z.eqb (sized kps1)))
                (survivors String.eqb kps2) with
        | Raise e => Raise e
        | Return kps3 =>
            Return (filter (fun paths => (1 <? List.length paths)%nat)
                      (Dict.values (group_by String.eqb kps3)))
        end
    end.
Proof.
  intros Hc1.
  destruct (collect (prefix_hash_at w) (clock st + List.length files)
              (survivors Z.eqb (sized kps1))) as [kps2|e] eqn:Hc2.
  - destruct (collect (full_hash_at w)
                (clock st + List.length files
                 + List.length (survivors Z.eqb (sized kps1)))
                (survivors String.eqb kps2)) as [kps3|e] eqn:Hc3.
    + apply (candidate_reducer_run _ _ _ _ _ _ Hc1 Hc2 Hc3).
    + unfold candidate_reducer. rewrite bind_run.
      rewrite (filter_files_by_size_run _ _ _ _ Hc1). rewrite bind_run.
      rewrite (filter_files_by_first_1k_bytes_run _ _ _ kps2) by exact Hc2.
      pose proof (group_files_by_full_hash_raise w
                    (survivors String.eqb kps2)
                    (advance (List.length (survivors Z.eqb (sized kps1)))
                       (advance (List.length files) st)) e Hc3) as Hr.
      destruct (group_files_by_full_hash w (survivors String.eqb kps2)
                  (advance (List.length (survivors Z.eqb (sized kps1)))
                     (advance (List.length files) st))) as (r & s3).
      simpl in Hr. subst r. reflexivity.
  - unfold candidate_reducer. rewrite bind_run.
    rewrite (filter_files_by_size_run _ _ _ _ Hc1). rewrite bind_run.
    pose proof (filter_files_by_first_1k_bytes_raise w
                  (survivors Z.eqb (sized kps1))
                  (advance (List.length files) st) e Hc2) as Hr.
    destruct (filter_files_by_first_1k_bytes w (survivors Z.eqb (sized kps1))
                (advance (List.length files) st)) as (r & s2).
    simpl in Hr. subst r. reflexivity.
Qed.

Lemma open_at_static w disk t p :
  (forall t p, lookup w t p = disk p) ->
  (openable disk p = true -> exists c, open_at w t p = Return c)
  /\ (openable disk p = false -> open_at w t p = Raise OSError).
Proof.
  intros Hdisk. unfold open_at, openable. rewrite Hdisk.
  destruct (disk p) as [f|]; [destruct (readable f)|]; split;
    try discriminate; eauto.
Qed.

(** X8: on a disk that does not change, the run is abandoned with
    [OSError] exactly when one of the paths the size stage hands on
    cannot be opened, and returns its groups exactly when all of them can
    be opened: one such file among the candidates is enough to lose every
    group. *)
Theorem run_abandoned_iff_candidate_unopenable
  (w : world) (disk : string -> option file) (files : list string)
  (st : state) (out1 : list string) (st1 : state) :
  (forall t p, lookup w t p = disk p) ->
  filter_files_by_size w files st = (Return out1, st1) ->
  (fst (candidate_reducer w files st) = Raise OSError <->
   exists p, In p out1 /\ openable disk p = false)
  /\ ((exists groups, fst (candidate_reducer w files st) = Return groups) <->
      forall p, In p out1 -> openable disk p = true).
Proof.
  intros Hdisk Hout1.
  destruct (collect_size_total w files (clock st)) as (kps1 & Hc1).
  rewrite (filter_files_by_size_run _ _ _ _ Hc1) in Hout1.
  injection Hout1 as <- _.
  rewrite (candidate_reducer_cases _ _ _ _ Hc1).
  set (out1 := survivors Z.eqb (sized kps1)).
  set (t2 := (clock st + List.length files)%nat).
  set (t3 := (t2 + List.length out1)%nat).
  assert (Hopen : forall p, {openable disk p = true} + {openable disk p = false})
    by (intros p; destruct (openable disk p); auto).
  assert (HA : forall kps2, collect (prefix_hash_at w) t2 out1 = Return kps2 ->
                            forall p, In p out1 -> openable disk p = true).
  { intros kps2 Hc2 p Hp.
    destruct (collect_return_all _ _ _ _ _ Hc2 Hp) as (t' & k & Ht').
    destruct (Hopen p) as [|Hno]; [assumption|].
    apply (open_at_static w disk t' p Hdisk) in Hno.
    unfold prefix_hash_at in Ht'. rewrite Hno in Ht'. discriminate. }
  assert (HB : forall e, collect (prefix_hash_at w) t2 out1 = Raise e ->
                         e = OSError
                         /\ exists p, In p out1 /\ openable disk p = false).
  { intros e Hc2.
    destruct (collect_raise_inv _ _ _ _ Hc2) as (p & t' & Hp & Ht').
    destruct (Hopen p) as [Hyes|Hno].
    - apply (open_at_static w disk t' p Hdisk) in Hyes as (c & Hc).
      unfold prefix_hash_at in Ht'. rewrite Hc in Ht'. discriminate.
    - pose proof (proj2 (open_at_static w disk t' p Hdisk) Hno) as Hr.
      unfold prefix_hash_at in Ht'. rewrite Hr in Ht'.
      injection Ht' as <-. split; [reflexivity|]. exists p. auto. }
  assert (HC : forall kps2, collect (prefix_hash_at w) t2 out1 = Return kps2 ->
                 exists kps3, collect (full_hash_at w) t3
                                (survivors String.eqb kps2) = Return kps3).
  { intros kps2 Hc2. apply collect_total. intros i p Hi.
    apply nth_error_In in Hi.
    apply (survivors_incl String.eqb String.eqb_eq) in Hi.
    rewrite (collect_map_snd _ _ _ _ Hc2) in Hi.
    destruct (proj1 (open_at_static w disk (t3 + i) p Hdisk)
                (HA kps2 Hc2 p Hi)) as (c & Hc).
    unfold full_hash_at. rewrite Hc. eexists. reflexivity. }
  destruct (collect (prefix_hash_at w) t2 out1) as [kps2|e] eqn:Hc2.
  - destruct (HC kps2 eq_refl) as (kps3 & Hc3). rewrite Hc3. split; split.
    + discriminate.
    + intros (p & Hp & Hno). rewrite (HA kps2 eq_refl p Hp) in Hno.
      discriminate.
    + intros _. apply (HA kps2 eq_refl).
    + intros _. eexists. reflexivity.
  - destruct (HB e eq_refl) as (-> & p & Hp & Hno). split; split.
    + intros _. exists p. auto.
    + reflexivity.
    + intros (groups & Hg). discriminate.
    + intros Hall. rewrite (Hall p Hp) in Hno. discriminate.
Qed.

Lemma run_abandoned_iff_candidate_unopenable_witness :
  (forall t p, lookup locked t p = lookup locked 0 p)
  /\ filter_files_by_size locked ["d/a"; "d/b"]%string initial_state
     = (Return ["d/a"; "d/b"]%string, mk_state 2 [])
  /\ (fst (candidate_reducer locked ["d/a"; "d/b"]%string initial_state)
      = Raise OSError <->
      exists p, In p ["d/a"; "d/b"]%string
                /\ openable (lookup locked 0) p = false).
Proof.
  split; [intros t p; reflexivity|]. split; [vm_compute; reflexivity|].
  apply (run_abandoned_iff_candidate_unopenable locked (lookup locked 0)
           ["d/a"; "d/b"]%string initial_state
           ["d/a"; "d/b"]%string (mk_state 2 [])).
  - intros t p. reflexivity.
  - vm_compute. reflexivity.
Defined.

(** ** The order of the groups *)

Section GroupOrder.
Context {K : Type} (eqb : K -> K -> bool).

Lemma heads_setdefault_append (d : Dict.t (K := K)) k v :
  nonempty_values d ->
  nonempty_values (Dict.setdefault_append eqb d k v)
  /\ (map (hd ""%string) (Dict.values (Dict.setdefault_append eqb d k v))
      = map (hd ""%string) (Dict.values d)
      \/ map (hd ""%string) (Dict.values (Dict.setdefault_append eqb d k v))
         = map (hd ""%string) (Dict.values d) ++ [v]).
Proof.
  unfold Dict.values.
  induction d as [|(k0, vs0) d IH]; intros Hne; cbn [Dict.setdefault_append].
  - split.
    + intros k' vs [[= <- <-]|[]]. discriminate.
    + right. reflexivity.
  - assert (Hvs0 : vs0 <> []) by (apply (Hne k0); now left).
    assert (Hd : nonempty_values d)
      by (intros k' vs Hin; apply (Hne k' vs); now right).
    destruct (eqb k k0).
    + split.
      * intros k' vs [[= <- <-]|Hin].
        -- intros E. now apply app_eq_nil in E as (E & _).
        -- apply (Hne k' vs). now right.
      * left. cbn [map snd]. f_equal.
        destruct vs0; [contradiction | reflexivity].
    + destruct (IH Hd) as (Hne' & Hheads). split.
      * intros k' vs [[= <- <-]|Hin]; [assumption | apply (Hne' _ _ Hin)].
      * cbn [map snd]. destruct Hheads as [->| ->]; [left | right];
          reflexivity.
Qed.

Lemma heads_group_by kps :
  subseq (map (hd ""%string) (Dict.values (group_by eqb kps))) (map snd kps).
Proof.
  unfold group_by.
  enough (H : forall d kps0,
             nonempty_values d ->
             subseq (map (hd ""%string) (Dict.values d)) (map snd kps0) ->
             subseq
               (map (hd ""%string)
                  (Dict.values
                     (fold_left
                        (fun d kp =>
                           Dict.setdefault_append eqb d (fst kp) (snd kp))
                        kps d)))
               (map snd (kps0 ++ kps))).
  { apply (H Dict.empty []); [intros k vs [] | constructor]. }
  induction kps as [|(k, v) kps IH]; intros d kps0 Hne Hs.
  - now rewrite app_nil_r.
  - cbn [fold_left fst snd].
    replace (kps0 ++ (k, v) :: kps) with ((kps0 ++ [(k, v)]) ++ kps)
      by now rewrite <- app_assoc.
    destruct (heads_setdefault_append d k v Hne) as (Hne' & Hheads).
    apply IH; [assumption|]. rewrite map_app.
    destruct Hheads as [->| ->].
    + apply subseq_app_l. assumption.
    + apply subseq_app; [assumption | apply subseq_refl].
Qed.

End GroupOrder.

(** X9: the last stage returns its groups in the order in which their
    first files stand in the list it was given: the first paths of the
    groups, one after the other, are that list with some paths left
    out. *)
Theorem groups_ordered_by_first_file
  (w : world) (files : list string) (st : state)
  (groups : list (list string)) (st' : state) :
  group_files_by_full_hash w files st = (Return groups, st') ->
  subseq (map (hd ""%string) groups) files.
Proof.
  intros Hrun.
  apply group_files_by_full_hash_inv in Hrun as (kps & Hc & -> & _).
  rewrite <- (collect_map_snd _ _ _ _ Hc).
  apply (subseq_trans _ _ _
           (subseq_map (hd ""%string) _ _
              (subseq_filter (fun paths => (1 <? List.length paths)%nat)
                 (Dict.values (group_by String.eqb kps))))).
  apply heads_group_by.
Qed.

Lemma groups_ordered_by_first_file_witness :
  group_files_by_full_hash same_prefix
    ["s/a1"; "s/b1"; "s/a2"; "s/b2"]%string initial_state
  = (Return [["s/a1"; "s/a2"]%string; ["s/b1"; "s/b2"]%string],
     mk_state 4 [])
  /\ subseq (map (hd ""%string)
              [["s/a1"; "s/a2"]%string; ["s/b1"; "s/b2"]%string])
       ["s/a1"; "s/b1"; "s/a2"; "s/b2"]%string.
Proof.
  split; [vm_compute; reflexivity|].
  apply (groups_ordered_by_first_file same_prefix
           ["s/a1"; "s/b1"; "s/a2"; "s/b2"]%string initial_state
           [["s/a1"; "s/a2"]%string; ["s/b1"; "s/b2"]%string]
           (mk_state 4 [])).
  vm_compute. reflexivity.
Defined.

(** ** The report *)

Lemma print_group_run w lm file0 files rest st :
  print_duplicates w lm ((file0 :: files) :: rest) st
  = match file_size_string lm
            (option_map size_of (lookup w (clock st) file0)) with
    | Return s =>
        print_duplicates w lm rest
          (mk_state (S (clock st))
             (stdout st
              ++ ("Found duplicate files:" :: ("Size:  " ++ s)
                    :: file0 :: files)%string))
    | Raise e =>
        (Raise e,
         mk_state (S (clock st))
           (stdout st ++ ["Found duplicate files:"%string]))
    end.
Proof.
  unfold print_duplicates. rewrite for_each_cons.
  rewrite !bind_run, print_run. cbv iota beta.
  rewrite !bind_run, lift_run, py_index_head. cbv iota beta.
  rewrite !bind_run, get_file_size_run. unfold size_at.
  cbn [clock stdout tick].
  destruct (lookup w (clock st) file0) as [f|]; cbv iota beta;
    cbn [option_map].
  - rewrite !bind_run, lift_run.
    destruct (file_size_string lm (Some (size_of f))) as [s|e];
      cbv iota beta; [|reflexivity].
    rewrite !bind_run, print_run. cbv iota beta.
    rewrite print_all_run. cbn [clock stdout tick String.append].
    rewrite <- !app_assoc. reflexivity.
  - rewrite !bind_run, lift_run. reflexivity.
Qed.

(** X10: on a disk that does not change, when the first file of every
    group exists and its size can be formatted, [print_duplicates]
    returns after one system call for each group and has added to the
    output, group after group, the heading, the line with the size of the
    first file of the group, and the paths of the group in their order. *)
Theorem report_lists_every_group
  (w : world) (lm : libm) (disk : string -> option file)
  (groups : list (list string)) (lines : list (list string)) (st : state) :
  (forall t p, lookup w t p = disk p) ->
  Forall2 (fun files ls => group_lines disk lm files = Return ls)
    groups lines ->
  print_duplicates w lm groups st
  = (Return tt,
     mk_state (clock st + List.length groups) (stdout st ++ concat lines)).
Proof.
  intros Hdisk Hall. revert st.
  induction Hall as [|files ls groups lines Hls _ IH]; intros st.
  - unfold print_duplicates. simpl. unfold ret.
    rewrite app_nil_r, Nat.add_0_r. now destruct st.
  - destruct files as [|file0 files]; [discriminate|].
    rewrite print_group_run, Hdisk. unfold group_lines in Hls.
    destruct (file_size_string lm (option_map size_of (disk file0)))
      as [s|e]; [|discriminate].
    injection Hls as <-. rewrite IH. cbn [clock stdout List.length concat].
    rewrite <- app_assoc. f_equal. f_equal. lia.
Qed.

Lemma report_lists_every_group_witness :
  (forall t p, lookup three_files t p = three_files_disk p)
  /\ print_duplicates three_files exact_libm
       [["d/a"; "d/b"]%string; ["d/c"; "d/c"]%string] initial_state
     = (Return tt,
        mk_state 2
          ["Found duplicate files:"; "Size:  5.00B"; "d/a"; "d/b";
           "Found duplicate files:"; "Size:  5.00B"; "d/c"; "d/c"]%string).
Proof.
  split; [intros t p; reflexivity|].
  apply (report_lists_every_group three_files exact_libm three_files_disk
           [["d/a"; "d/b"]%string; ["d/c"; "d/c"]%string]
           [["Found duplicate files:"; "Size:  5.00B"; "d/a"; "d/b"]%string;
            ["Found duplicate files:"; "Size:  5.00B"; "d/c"; "d/c"]%string]
           initial_state).
  - intros t p. reflexivity.
  - repeat constructor.
Defined.

(** ** Sizes without a unit *)

Lemma int_truediv_raises n d e :
  d <> 0 -> PyFloat.int_truediv n d = Raise e -> e = OverflowError.
Proof.
  intros Hd. unfold PyFloat.int_truediv.
  destruct (Z.eqb_spec d 0) as [|_]; [contradiction|].
  destruct (n =? 0); [discriminate|].
  destruct (SFdiv_core_binary PyFloat.prec PyFloat.emax (Z.abs n) 0
              (Z.abs d) 0) as ((q & e') & l).
  unfold PyFloat.finite_or_overflow.
  destruct (binary_round_aux _ _ _ _ _ _); try discriminate.
  now intros [= <-].
Qed.

(** X11: the list of units ends at YB and the index is not checked: for
    a size of 1000 or more whose exponent [int(math.log(n, 1000))] is 9
    or more, [file_size_string] returns no string but raises
    ([IndexError], or [OverflowError] should the quotient be too large
    for a float); for an exponent from 0 to 8 it never raises
    [IndexError]. *)
Theorem sizes_beyond_last_unit_raise (lm : libm) (n e : Z) :
  1000 <= n ->
  PyFloat.to_int (math_log lm n 1000) = Return e ->
  (9 <= e ->
   file_size_string lm (Some n) = Raise IndexError
   \/ file_size_string lm (Some n) = Raise OverflowError)
  /\ (0 <= e <= 8 -> file_size_string lm (Some n) <> Raise IndexError).
Proof.
  intros Hn Hlog. unfold file_size_string.
  destruct (Z.ltb_spec n 1000) as [|_]; [lia|].
  rewrite Hlog. cbn [obind]. split; intros He.
  - destruct (Z.leb_spec 0 e) as [_|]; [|lia].
    destruct (PyFloat.int_truediv n (1000 ^ e)) as [v|err] eqn:Hdiv;
      cbn [obind].
    + left. unfold py_index.
      change (Z.of_nat (List.length sizes)) with 9.
      destruct (Z.ltb_spec e 0) as [|_]; [lia|].
      destruct (Z.ltb_spec e 9) as [|_]; [lia|].
      now rewrite andb_false_r.
    + right. f_equal.
      apply (int_truediv_raises n (1000 ^ e)); [|assumption].
      apply Z.pow_nonzero; lia.
  - destruct (Z.leb_spec 0 e) as [_|]; [|lia].
    destruct (PyFloat.int_truediv n (1000 ^ e)) as [v|err] eqn:Hdiv;
      cbn [obind].
    + assert (Hcases : e = 0 \/ e = 1 \/ e = 2 \/ e = 3 \/ e = 4 \/ e = 5
                       \/ e = 6 \/ e = 7 \/ e = 8) by lia.
      repeat (destruct Hcases as [->|Hcases]; [discriminate|]).
      subst e. discriminate.
    + intros [= ->].
      pose proof (int_truediv_raises n (1000 ^ e) IndexError) as H.
      assert (IndexError = OverflowError); [|discriminate].
      apply H; [apply Z.pow_nonzero; lia | assumption].
Qed.

Lemma sizes_beyond_last_unit_raise_witness :
  1000 <= 1000 ^ 9
  /\ PyFloat.to_int (math_log exact_libm (1000 ^ 9) 1000) = Return 9
  /\ (file_size_string exact_libm (Some (1000 ^ 9)) = Raise IndexError
      \/ file_size_string exact_libm (Some (1000 ^ 9)) = Raise OverflowError).
Proof.
  assert (H1 : 1000 <= 1000 ^ 9) by (vm_compute; discriminate).
  assert (H2 : PyFloat.to_int (math_log exact_libm (1000 ^ 9) 1000) = Return 9)
    by (vm_compute; reflexivity).
  split; [exact H1|]. split; [exact H2|].
  destruct (sizes_beyond_last_unit_raise exact_libm (1000 ^ 9) 9 H1 H2)
    as (H & _).
  apply H. lia.
Defined.

(** ** Paths at which nothing is found *)

(** X12: a path at which no file is found is dropped by the size stage
    without an error, whatever the other files are: the stage returns, the
    path is not in what it hands on, and the path is in no reported
    group. *)
Theorem missing_file_dropped_silently
  (w : world) (files : list string) (st : state) (p : string) :
  (forall t, lookup w t p = None) ->
  (exists out,
      filter_files_by_size w files st
      = (Return out, advance (List.length files) st)
      /\ ~ In p out)
  /\ (forall groups st',
         candidate_reducer w files st = (Return groups, st') ->
         forall g, In g groups -> ~ In p g).
Proof.
  intros Hmissing.
  assert (Hsized : forall t kps n, collect (size_at w) t files = Return kps ->
                                   ~ In (n, p) (sized kps)).
  { intros t kps n Hc Hin. apply sized_In in Hin as (Hin & _).
    destruct (collect_In _ _ _ _ _ _ Hc Hin) as (_ & t' & _ & Ht').
    unfold size_at in Ht'. rewrite Hmissing in Ht'. discriminate. }
  split.
  - destruct (collect_size_total w files (clock st)) as (kps1 & Hc1).
    exists (survivors Z.eqb (sized kps1)). split.
    + apply (filter_files_by_size_run _ _ _ _ Hc1).
    + intros Hp. apply (survivors_In Z.eqb Z.eqb_eq) in Hp as (k & Hin & _).
      apply (Hsized _ _ _ Hc1 Hin).
  - intros groups st' Hrun g Hg Hp.
    apply candidate_reducer_inv in Hrun
      as (kps1 & kps2 & kps3 & Hc1 & Hc2 & Hc3 & ->).
    destruct (reported_in_stages _ _ _ _ _ _ _ _ _ _ Hc1 Hc2 Hc3 Hg Hp)
      as (_ & H1 & _).
    apply (survivors_In Z.eqb Z.eqb_eq) in H1 as (k & Hin & _).
    apply (Hsized _ _ _ Hc1 Hin).
Qed.

Lemma missing_file_dropped_silently_witness :
  (forall t, lookup three_files t "d/x" = None)
  /\ candidate_reducer three_files ["d/a"; "d/x"; "d/b"]%string initial_state
     = (Return [["d/a"; "d/b"]%string], mk_state 7 [])
  /\ (forall g, In g [["d/a"; "d/b"]%string] -> ~ In "d/x"%string g).
Proof.
  split; [intros t; reflexivity|]. split; [vm_compute; reflexivity|].
  destruct (missing_file_dropped_silently three_files
              ["d/a"; "d/x"; "d/b"]%string initial_state "d/x"%string
              (fun t => eq_refl)) as (_ & H).
  apply (H _ (mk_state 7 [])). vm_compute. reflexivity.
Defined.
